(** * CanvasRenderingContext2D: the state-stack and event-recording engine

    A shallow embedding of [src/classes/CanvasRenderingContext2D.js].  The
    class is a mock of the browser's 2D drawing context: every method
    validates and coerces its arguments the way the browser does, updates
    the drawing state (parallel attribute stacks indexed by [_stackIndex],
    the transform, the current path) and records what happened in two logs,
    [_events] and [_drawCalls].

    JavaScript numbers are IEEE 754 binary64 values, so they are modelled
    by Rocq's primitive floats.  A method is a computation in a state and
    exception monad over the instance's fields; a [throw] keeps whatever
    state the method had reached, so that "nothing was mutated before the
    throw" is a property to be proved and not an artefact of the types. *)

From Stdlib Require Import String Ascii List Floats DecimalString Bool Arith
  ZArith Uint63 Lia.
From stdpp Require Import base list strings.

Set Warnings "-register-all".

Open Scope string_scope.
Open Scope list_scope.

(** ** JavaScript values *)

(** The values a caller can hand to the context: the primitives, arrays,
    plain option bags, and the host objects the class tests with
    [instanceof], each with only the fields the class reads.  Symbols,
    BigInts and objects with a [valueOf]/[toString] of the caller's own are
    outside this universe. *)
Inductive value : Type :=
| VUndefined
| VNull
| VBool (b : bool)
| VNum (x : float)
| VStr (s : string)
| VArray (elems : list value)
| VObject (fields : list (string * value))
| VPath2D (segments : list event)
| VDOMMatrix (a b c d e f : float)
| VImageData (width height : value)
| VImageBitmap (closed : bool) (width height : value)
| VHTMLImageElement (width height : value)
| VHTMLVideoElement (width height : value)
| VHTMLCanvasElement (width height : value)
| VElement
| VCanvasGradient
| VCanvasPattern
| VTextMetrics (text : string)
| VEvents (evs : list event)
with event : Type :=
| CanvasEvent (type : string) (transform : list float)
    (props : list (string * value)).

Definition ev_type (e : event) : string :=
  match e with CanvasEvent t _ _ => t end.
Definition ev_transform (e : event) : list float :=
  match e with CanvasEvent _ m _ => m end.
Definition ev_props (e : event) : list (string * value) :=
  match e with CanvasEvent _ _ p => p end.

(** Modelled from the spec: [createCanvasEvent] lives in
    [src/mock/createCanvasEvent], which is not among the sources; the spec
    gives its result as the record [{ type, transform, props }]. *)
Definition createCanvasEvent (type : string) (transform : list float)
    (props : list (string * value)) : event :=
  CanvasEvent type transform props.

(** What [parse-color] returns, as far as [parseCSSColor] reads it. *)
Record parsed_color := {
  rgba : option (list float);
  hex : option string;
}.

(** ** The host

    Built-ins of the JavaScript engine and the two parsing packages the
    class imports.  They are parameters of the whole development: nothing
    below depends on how they are implemented. *)
Record Host := {
  (** [Number(s)] on a string *)
  StringToNumber : string -> float;
  (** [String(x)] on a number *)
  NumberToString : float -> string;
  (** [String(o)] on an array or object *)
  ObjectToString : value -> string;
  Math_cos : float -> float;
  Math_sin : float -> float;
  (** the [parse-color] package *)
  parseColor : string -> parsed_color;
  (** [cssfontparser(value).toString()], [None] when either step throws *)
  cssfontparser : value -> option string;
}.

(** A concrete host, for running the model on closed inputs.  Strings of
    decimal digits convert to the number they spell, numbers print as
    their integer part (exact on integers), and the cosine and sine are
    truncated Taylor series; no colour and no font is recognised.  Every
    general statement below is proved for an arbitrary host. *)
Definition digits_to_number (s : string) : float :=
  match NilEmpty.uint_of_string s with
  | Some u => of_uint63 (Uint63.of_Z (Z.of_N (N.of_uint u)))
  | None => nan
  end.

Definition integer_part (x : float) : Z :=
  match Prim2SF x with
  | S754_finite s m e =>
      let z :=
        if (0 <=? e)%Z then (Z.pos m * 2 ^ e)%Z
        else (Z.pos m / 2 ^ (- e))%Z in
      if s then (- z)%Z else z
  | _ => 0%Z
  end.

Definition number_to_string (x : float) : string :=
  if is_nan x then "NaN"
  else if (x =? infinity)%float then "Infinity"
  else if (x =? neg_infinity)%float then "-Infinity"
  else NilZero.string_of_int (Z.to_int (integer_part x)).

Definition cos_series (x : float) : float :=
  let x2 := (x * x)%float in
  (1 - x2 / 2 * (1 - x2 / 12 * (1 - x2 / 30 * (1 - x2 / 56))))%float.

Definition sin_series (x : float) : float :=
  let x2 := (x * x)%float in
  (x * (1 - x2 / 6 * (1 - x2 / 20 * (1 - x2 / 42 * (1 - x2 / 72)))))%float.

Definition sample_host : Host :=
  {| StringToNumber := digits_to_number;
     NumberToString := number_to_string;
     ObjectToString := fun _ => "[object Object]";
     Math_cos := cos_series;
     Math_sin := sin_series;
     parseColor := fun _ => {| rgba := None; hex := None |};
     cssfontparser := fun _ => None |}.

(** ** Failures *)

Inductive exn : Type :=
| TypeError (message : string)
| DOMException (arg1 arg2 : string).

Inductive outcome (A : Type) : Type :=
| Normal (a : A)
| Throw (e : exn).
Arguments Normal {A} a.
Arguments Throw {A} e.

(** What a method hands back: a value, or the address of one of the
    context's own arrays (a reference the caller may go on to mutate). *)
Inductive retval : Type :=
| Value (v : value)
| ArrayRef (a : nat).

Definition undefined : retval := Value VUndefined.

(** ** The instance

    The twenty scalar attribute stacks are the fields of [this] named by
    [stack]; each holds one value per saved frame.  [_lineDashStack] and
    [_transformStack] hold references to arrays: an entry is the address of
    an array in [store], or [None] for [undefined].  References matter
    because [save] pushes the current transform array itself, not a copy,
    and [getLineDash] returns the stored array itself. *)
Inductive stack : Type :=
| _directionStack | _fillStyleStack | _filterStack | _fontStack
| _globalAlphaStack | _globalCompositeOperationStack
| _imageSmoothingEnabledStack | _imageSmoothingQualityStack
| _lineCapStack | _lineDashOffsetStack | _lineJoinStack | _lineWidthStack
| _miterLimitStack | _shadowBlurStack | _shadowColorStack
| _shadowOffsetXStack | _shadowOffsetYStack | _strokeStyleStack
| _textAlignStack | _textBaselineStack.

#[global] Instance stack_eq_dec : EqDecision stack.
Proof. solve_decision. Defined.

Record context := {
  _drawCalls : list event;
  _events : list event;
  _path : list event;
  stacks : stack -> list value;
  _lineDashStack : list (option nat);
  _transformStack : list (option nat);
  _stackIndex : nat;
  _canvas : value;
  store : list (list float);
}.

Definition with_drawCalls (v : list event) (c : context) : context :=
  {| _drawCalls := v; _events := _events c; _path := _path c;
     stacks := stacks c; _lineDashStack := _lineDashStack c;
     _transformStack := _transformStack c; _stackIndex := _stackIndex c;
     _canvas := _canvas c; store := store c |}.
Definition with_events (v : list event) (c : context) : context :=
  {| _drawCalls := _drawCalls c; _events := v; _path := _path c;
     stacks := stacks c; _lineDashStack := _lineDashStack c;
     _transformStack := _transformStack c; _stackIndex := _stackIndex c;
     _canvas := _canvas c; store := store c |}.
Definition with_path (v : list event) (c : context) : context :=
  {| _drawCalls := _drawCalls c; _events := _events c; _path := v;
     stacks := stacks c; _lineDashStack := _lineDashStack c;
     _transformStack := _transformStack c; _stackIndex := _stackIndex c;
     _canvas := _canvas c; store := store c |}.
Definition with_stacks (v : stack -> list value) (c : context) : context :=
  {| _drawCalls := _drawCalls c; _events := _events c; _path := _path c;
     stacks := v; _lineDashStack := _lineDashStack c;
     _transformStack := _transformStack c; _stackIndex := _stackIndex c;
     _canvas := _canvas c; store := store c |}.
Definition with_lineDashStack (v : list (option nat)) (c : context) : context :=
  {| _drawCalls := _drawCalls c; _events := _events c; _path := _path c;
     stacks := stacks c; _lineDashStack := v;
     _transformStack := _transformStack c; _stackIndex := _stackIndex c;
     _canvas := _canvas c; store := store c |}.
Definition with_transformStack (v : list (option nat)) (c : context) : context :=
  {| _drawCalls := _drawCalls c; _events := _events c; _path := _path c;
     stacks := stacks c; _lineDashStack := _lineDashStack c;
     _transformStack := v; _stackIndex := _stackIndex c;
     _canvas := _canvas c; store := store c |}.
Definition with_stackIndex (v : nat) (c : context) : context :=
  {| _drawCalls := _drawCalls c; _events := _events c; _path := _path c;
     stacks := stacks c; _lineDashStack := _lineDashStack c;
     _transformStack := _transformStack c; _stackIndex := v;
     _canvas := _canvas c; store := store c |}.
Definition with_store (v : list (list float)) (c : context) : context :=
  {| _drawCalls := _drawCalls c; _events := _events c; _path := _path c;
     stacks := stacks c; _lineDashStack := _lineDashStack c;
     _transformStack := _transformStack c; _stackIndex := _stackIndex c;
     _canvas := _canvas c; store := v |}.

(** The field initialisers of the class, then the constructor's
    [this._canvas = canvas].  The transform array lives at address 0 of the
    store and the empty dash list at address 1. *)
Definition initial_stacks (s : stack) : list value :=
  match s with
  | _directionStack => [VStr "inherit"]
  | _fillStyleStack => [VStr "#000"]
  | _filterStack => [VStr "none"]
  | _fontStack => [VStr "10px sans-serif"]
  | _globalAlphaStack => [VNum 1]
  | _globalCompositeOperationStack => [VStr "source-over"]
  | _imageSmoothingEnabledStack => [VBool true]
  | _imageSmoothingQualityStack => [VStr "low"]
  | _lineCapStack => [VStr "butt"]
  | _lineDashOffsetStack => [VNum 0]
  | _lineJoinStack => [VStr "miter"]
  | _lineWidthStack => [VNum 1]
  | _miterLimitStack => [VNum 10]
  | _shadowBlurStack => [VNum 0]
  | _shadowColorStack => [VStr "rgba(0, 0, 0, 0)"]
  | _shadowOffsetXStack => [VNum 0]
  | _shadowOffsetYStack => [VNum 0]
  | _strokeStyleStack => [VStr "#000"]
  | _textAlignStack => [VStr "start"]
  | _textBaselineStack => [VStr "alphabetic"]
  end.

Definition identity_matrix : list float := [1; 0; 0; 1; 0; 0]%float.

Definition new_context (canvas : value) : context :=
  {| _drawCalls := [];
     _events := [];
     _path := [createCanvasEvent "beginPath" identity_matrix []];
     stacks := initial_stacks;
     _lineDashStack := [Some 1];
     _transformStack := [Some 0];
     _stackIndex := 0;
     _canvas := canvas;
     store := [identity_matrix; []] |}.

(** ** Array primitives of the language *)

(** [arr[i]] read: [undefined] (the default [d]) out of range. *)
Definition array_get {A} (d : A) (arr : list A) (i : nat) : A :=
  default d (arr !! i).

(** [arr[i] = v]: in range the slot is overwritten; past the end the array
    is extended, the skipped slots reading as [hole]. *)
Definition array_set {A} (hole : A) (arr : list A) (i : nat) (v : A) : list A :=
  if (i <? length arr)%nat then <[i := v]> arr
  else arr ++ replicate (i - length arr) hole ++ [v].

(** [arr.push(v)] and [arr.pop()] (the popped value is never used). *)
Definition array_push {A} (arr : list A) (v : A) : list A := arr ++ [v].
Definition array_pop {A} (arr : list A) : list A := removelast arr.

(** [stacks[s] = l] on the instance. *)
Definition update_stack (s : stack) (l : list value)
    (f : stack -> list value) : stack -> list value :=
  fun s' => if decide (s' = s) then l else f s'.

(** ** The state and exception monad *)

Definition M (A : Type) : Type := context -> outcome A * context.

Definition ret {A} (a : A) : M A := fun st => (Normal a, st).
Definition throw {A} (e : exn) : M A := fun st => (Throw e, st).
Definition bind {A B} (m : M A) (k : A -> M B) : M B :=
  fun st =>
    match m st with
    | (Normal a, st') => k a st'
    | (Throw e, st') => (Throw e, st')
    end.
(** [try { m } catch (e) { h e }]. *)
Definition catch {A} (m : M A) (h : exn -> M A) : M A :=
  fun st =>
    match m st with
    | (Normal a, st') => (Normal a, st')
    | (Throw e, st') => h e st'
    end.
Definition gets {A} (f : context -> A) : M A := fun st => (Normal (f st), st).
Definition modify (f : context -> context) : M unit :=
  fun st => (Normal tt, f st).

Declare Scope js_scope.
Delimit Scope js_scope with js.
Notation "'let*' x := m 'in' k" := (bind m (fun x => k))
  (at level 10, x name, m at level 100, k at level 200,
   format "'[v' 'let*'  x  :=  m  'in' '/' k ']'") : js_scope.
Notation "m ;; k" := (bind m (fun _ => k))
  (at level 100, k at level 200, right associativity) : js_scope.
Open Scope js_scope.

(** ** Reading and writing the instance *)

Definition events_push (e : event) : M unit :=
  modify (fun st => with_events (array_push (_events st) e) st).
Definition drawCalls_push (e : event) : M unit :=
  modify (fun st => with_drawCalls (array_push (_drawCalls st) e) st).
Definition path_push (e : event) : M unit :=
  modify (fun st => with_path (array_push (_path st) e) st).

(** [this._xStack[this._stackIndex]] and [this._xStack[this._stackIndex] = v]
    for a scalar stack. *)
Definition stack_read (s : stack) : M value :=
  gets (fun st => array_get VUndefined (stacks st s) (_stackIndex st)).
Definition stack_write (s : stack) (v : value) : M unit :=
  modify (fun st =>
    with_stacks
      (update_stack s (array_set VUndefined (stacks st s) (_stackIndex st) v)
         (stacks st)) st).

(** What the engine raises when a property of [undefined] is read or
    written; the class never raises it itself. *)
Definition undefined_access : exn :=
  TypeError "Cannot read properties of undefined".

(** The array [this._transformStack[this._stackIndex]]: its address and
    contents. *)
Definition current_transform (st : context) : option (nat * list float) :=
  match array_get None (_transformStack st) (_stackIndex st) with
  | Some a => match store st !! a with
              | Some arr => Some (a, arr)
              | None => None
              end
  | None => None
  end.

(** [this._transformStack[this._stackIndex][i]], read where a number is
    expected: a missing slot is [undefined], which arithmetic turns into
    NaN. *)
Definition transform_read (i : nat) : M float :=
  fun st =>
    match current_transform st with
    | Some (_, arr) => (Normal (array_get nan arr i), st)
    | None => (Throw undefined_access, st)
    end.

(** [this._transformStack[this._stackIndex][i] = v]: the array is updated
    in place, so every stack entry that refers to it sees the change. *)
Definition transform_write (i : nat) (v : float) : M unit :=
  fun st =>
    match current_transform st with
    | Some (a, arr) =>
        (Normal tt, with_store (<[a := array_set nan arr i v]> (store st)) st)
    | None => (Throw undefined_access, st)
    end.

(** [getTransformSlice(ctx)]: a copy of the current transform array. *)
Definition getTransformSlice : M (list float) :=
  fun st =>
    match current_transform st with
    | Some (_, arr) => (Normal arr, st)
    | None => (Throw undefined_access, st)
    end.

(** ** Arguments and messages *)

(** The [i]-th parameter of a call: [undefined] when the caller passed
    fewer arguments. *)
Definition arg (i : nat) (args : list value) : value :=
  default VUndefined (args !! i).

(** A parameter declared with a default ([p = d]). *)
Definition or_default (v d : value) : value :=
  match v with VUndefined => d | _ => v end.

(** [arguments.length] printed inside a message. *)
Definition nat_to_string (n : nat) : string :=
  NilEmpty.string_of_uint (Nat.to_uint n).

(** [this.constructor.name] of an instance of the class. *)
Definition constructor_name : string := "CanvasRenderingContext2D".

(** The common head of every message:
    ['Failed to execute \'op\' on \'' + this.constructor.name + '\': ']. *)
Definition Failed (op : string) : string :=
  "Failed to execute '" +:+ op +:+ "' on '" +:+ constructor_name +:+ "': ".

(** [v === 'literal']. *)
Definition str_is (v : value) (s : string) : bool :=
  match v with VStr t => String.eqb t s | _ => false end.

(** [o.k] on the object kinds whose fields the class reads. *)
Definition get_field (o : value) (k : string) : value :=
  match o with
  | VObject fs =>
      default VUndefined (snd <$> find (fun kv => String.eqb (fst kv) k) fs)
  | VImageData w h | VImageBitmap _ w h | VHTMLImageElement w h
  | VHTMLVideoElement w h | VHTMLCanvasElement w h =>
      if String.eqb k "width" then w
      else if String.eqb k "height" then h else VUndefined
  | _ => VUndefined
  end.

Definition is_Path2D (v : value) : bool :=
  match v with VPath2D _ => true | _ => false end.
Definition is_ImageData (v : value) : bool :=
  match v with VImageData _ _ => true | _ => false end.
Definition is_Element (v : value) : bool :=
  match v with
  | VHTMLImageElement _ _ | VHTMLVideoElement _ _ | VHTMLCanvasElement _ _
  | VElement => true
  | _ => false
  end.

(** Modelled from the spec: the classes [ImageData], [DOMMatrix],
    [CanvasGradient], [CanvasPattern] and [TextMetrics] are imported by the
    context but are not among the sources.  The spec has them as opaque
    value records returned fresh to the caller; a matrix handle exposes the
    six numeric fields [a..f], here read off the array it is built from. *)
Definition new_ImageData (width height : value) : value :=
  VImageData width height.
Definition new_CanvasGradient : value := VCanvasGradient.
Definition new_CanvasPattern : value := VCanvasPattern.
Definition new_TextMetrics (text : string) : value := VTextMetrics text.
Definition new_DOMMatrix (arr : option (list float)) : value :=
  match arr with
  | Some l =>
      VDOMMatrix (array_get nan l 0) (array_get nan l 1) (array_get nan l 2)
        (array_get nan l 3) (array_get nan l 4) (array_get nan l 5)
  | None => VDOMMatrix 1 0 0 1 0 0
  end.

(** [Number.isFinite(v)]: no coercion, so only a number can pass. *)
Definition Number_isFinite (v : value) : bool :=
  match v with VNum x => is_finite x | _ => false end.

(** [Boolean(v)]. *)
Definition Boolean (v : value) : bool :=
  match v with
  | VUndefined | VNull => false
  | VBool b => b
  | VNum x => negb (PrimFloat.is_zero x || is_nan x)
  | VStr s => negb (String.eqb s "")
  | _ => true
  end.

Section WithHost.
Variable host : Host.

(** ** Coercions of the language *)

Definition is_primitive (v : value) : bool :=
  match v with
  | VUndefined | VNull | VBool _ | VNum _ | VStr _ => true
  | _ => false
  end.

(** [ToPrimitive]: arrays and objects of the universe above convert through
    their [toString]. *)
Definition ToPrimitive (v : value) : value :=
  if is_primitive v then v else VStr (ObjectToString host v).

(** [Number(v)]. *)
Definition Number (v : value) : float :=
  match ToPrimitive v with
  | VUndefined => nan
  | VNull => 0
  | VBool true => 1
  | VBool false => 0
  | VNum x => x
  | VStr s => StringToNumber host s
  | _ => nan
  end.

(** [String(v)], also the conversion behind ['...' + v]. *)
Definition ToString (v : value) : string :=
  match ToPrimitive v with
  | VUndefined => "undefined"
  | VNull => "null"
  | VBool true => "true"
  | VBool false => "false"
  | VNum x => NumberToString host x
  | VStr s => s
  | _ => ""
  end.

(** The binary [+] on uncoerced operands: concatenation as soon as one
    side is a string, numeric addition otherwise. *)
Definition js_add (a b : value) : value :=
  let pa := ToPrimitive a in
  let pb := ToPrimitive b in
  match pa, pb with
  | VStr _, _ | _, VStr _ => VStr (ToString pa +:+ ToString pb)
  | _, _ => VNum (Number pa + Number pb)
  end.

(** ** [parseCSSColor] *)

Definition char_to_string (c : option ascii) : string :=
  match c with Some a => String a "" | None => "undefined" end.

Definition parseCSSColor (value : string) : option string :=
  let result := parseColor host value in
  let alpha_not_one :=
    match rgba result with
    | Some l => match l !! 3 with
                | Some x => negb (x =? 1)%float
                | None => true
                end
    | None => false
    end in
  if alpha_not_one then
    Some ("rgba(" +:+
          String.concat ", " (map (NumberToString host) (default [] (rgba result)))
          +:+ ")")
  else
    match hex result with
    | Some h =>
        if String.eqb h "" then None
        else if bool_decide (String.get 1 h = String.get 2 h)
                && bool_decide (String.get 3 h = String.get 4 h)
                && bool_decide (String.get 5 h = String.get 6 h)
        then Some ("#" +:+ char_to_string (String.get 1 h)
                       +:+ char_to_string (String.get 3 h)
                       +:+ char_to_string (String.get 5 h))
        else Some h
    | None => None
    end.

(** ** The methods, in the order of the class *)

Definition __getDrawCalls : M retval :=
  let* l := gets _drawCalls in ret (Value (VEvents l)).
Definition __getEvents : M retval :=
  let* l := gets _events in ret (Value (VEvents l)).
Definition __getPath : M retval :=
  let* l := gets _path in ret (Value (VEvents l)).

Definition addHitRegion (args : list value) : M retval :=
  let options := or_default (arg 0 args) (VObject []) in
  match options with
  | VNull => throw undefined_access
  | _ =>
    let path := get_field options "path" in
    let fillRule := get_field options "fillRule" in
    let id := get_field options "id" in
    let parentID := get_field options "parentID" in
    let cursor := get_field options "cursor" in
    let control := get_field options "control" in
    let label := get_field options "label" in
    let role := get_field options "role" in
    if negb (Boolean path) && negb (Boolean id) then
      throw (DOMException "ConstraintError"
               (Failed "addHitRegion" +:+ "Both id and control are null."))
    else if Boolean fillRule && negb (str_is fillRule "evenodd")
            && negb (str_is fillRule "nonzero") then
      throw (TypeError (Failed "addHitRegion" +:+ "The provided value '"
               +:+ ToString fillRule
               +:+ "' is not a valid enum value of type CanvasFillRule."))
    else
      let* tr := getTransformSlice in
      events_push
        (createCanvasEvent "addHitRegion" tr
           [("path", path); ("fillRule", fillRule); ("id", id);
            ("parentID", parentID); ("cursor", cursor); ("control", control);
            ("label", label); ("role", role)]) ;;
      ret undefined
  end.

Definition arc (args : list value) : M retval :=
  let x := arg 0 args in
  let y := arg 1 args in
  let radius := arg 2 args in
  let startAngle := arg 3 args in
  let endAngle := arg 4 args in
  let anticlockwise := or_default (arg 5 args) (VBool false) in
  if (length args <? 5)%nat then
    throw (TypeError (Failed "arc" +:+ "5 arguments required, but only "
             +:+ nat_to_string (length args) +:+ " present."))
  else
    let xResult := Number x in
    let yResult := Number y in
    let radiusResult := Number radius in
    let startAngleResult := Number startAngle in
    let endAngleResult := Number endAngle in
    let anticlockwiseResult := Boolean anticlockwise in
    if negb (is_finite (xResult + yResult + radiusResult + startAngleResult
                        + endAngleResult)) then ret undefined
    else if (Number radius <? 0)%float then
      throw (DOMException "IndexSizeError"
               (Failed "arc" +:+ "The radius provided (" +:+ ToString radius
                +:+ ") is negative."))
    else
      let* tr := getTransformSlice in
      let event :=
        createCanvasEvent "arc" tr
          [("x", VNum xResult); ("y", VNum yResult);
           ("radius", VNum radiusResult);
           ("startAngle", VNum startAngleResult);
           ("endAngle", VNum endAngleResult);
           ("anticlockwise", VBool anticlockwiseResult)] in
      path_push event ;;
      events_push event ;;
      ret undefined.

Definition arcTo (args : list value) : M retval :=
  let cpx1 := arg 0 args in
  let cpy1 := arg 1 args in
  let cpx2 := arg 2 args in
  let cpy2 := arg 3 args in
  let radius := arg 4 args in
  if (length args <? 5)%nat then
    throw (DOMException "IndexSizeError"
             (Failed "arcTo" +:+ "5 arguments required, but only "
              +:+ nat_to_string (length args) +:+ " present."))
  else
    let cpx1Result := Number cpx1 in
    let cpy1Result := Number cpy1 in
    let cpx2Result := Number cpx2 in
    let cpy2Result := Number cpy2 in
    let radiusResult := Number radius in
    if negb (is_finite (cpx1Result + cpx2Result + cpy1Result + cpy2Result
                        + radiusResult)) then ret undefined
    else if (radiusResult <? 0)%float then
      throw (TypeError (Failed "arcTo" +:+ "The radius provided ("
               +:+ ToString radius +:+ ") is negative."))
    else
      let* tr := getTransformSlice in
      let event :=
        createCanvasEvent "arcTo" tr
          [("cpx1", VNum cpx1Result); ("cpy1", VNum cpy1Result);
           ("cpx2", VNum cpx2Result); ("cpy2", VNum cpy2Result);
           ("radius", VNum radiusResult)] in
      path_push event ;;
      events_push event ;;
      ret undefined.

Definition beginPath : M retval :=
  let* tr := getTransformSlice in
  let event := createCanvasEvent "beginPath" tr [] in
  modify (with_path [event]) ;;
  events_push event ;;
  ret undefined.

Definition bezierCurveTo (args : list value) : M retval :=
  let cpx1 := arg 0 args in
  let cpy1 := arg 1 args in
  let cpx2 := arg 2 args in
  let cpy2 := arg 3 args in
  let x := arg 4 args in
  let y := arg 5 args in
  if (length args <? 6)%nat then
    throw (TypeError (Failed "bezierCurveTo"
             +:+ "6 arguments required, but only "
             +:+ nat_to_string (length args) +:+ " present."))
  else
    let cpx1Result := Number cpx1 in
    let cpy1Result := Number cpy1 in
    let cpx2Result := Number cpx2 in
    let cpy2Result := Number cpy2 in
    let xResult := Number x in
    let yResult := Number y in
    if negb (is_finite (cpx1Result + cpy1Result + cpx2Result + cpy2Result
                        + xResult + yResult)) then ret undefined
    else
      let* tr := getTransformSlice in
      let event :=
        createCanvasEvent "bezierCurveTo" tr
          [("cpx1", cpx1); ("cpy1", cpy1); ("cpx2", cpx2); ("cpy2", cpy2);
           ("x", x); ("y", y)] in
      path_push event ;;
      events_push event ;;
      ret undefined.

Definition get_canvas : M retval :=
  let* c := gets _canvas in ret (Value c).

Definition clearHitRegions : M retval :=
  let* tr := getTransformSlice in
  let event := createCanvasEvent "clearHitRegions" tr [] in
  events_push event ;;
  ret undefined.

Definition clearRect (args : list value) : M retval :=
  let x := arg 0 args in
  let y := arg 1 args in
  let width := arg 2 args in
  let height := arg 3 args in
  if (length args <? 4)%nat then
    throw (TypeError (Failed "clearRect" +:+ "4 arguments required, but only "
             +:+ nat_to_string (length args) +:+ " present."))
  else
    let xResult := Number x in
    let yResult := Number y in
    let widthResult := Number width in
    let heightResult := Number height in
    if negb (Number_isFinite (js_add (js_add (js_add x y) width) height))
    then ret undefined
    else
      let* tr := getTransformSlice in
      let event :=
        createCanvasEvent "clearRect" tr
          [("x", VNum xResult); ("y", VNum yResult);
           ("width", VNum widthResult); ("height", VNum heightResult)] in
      events_push event ;;
      drawCalls_push event ;;
      ret undefined.

(** The argument handling shared, line for line, by [clip] and [fill]:
    the path to use and the fill rule, or the [TypeError] (whose message
    names [clip] in both methods). *)
Definition path_and_fillRule (args : list value)
    : M (list event * string) :=
  match args with
  | [] =>
      let* p := gets _path in ret (p, "nonzero")
  | _ =>
      let path := arg 0 args in
      let fillRule :=
        if (length args =? 1)%nat then VStr "nonzero" else arg 1 args in
      match path with
      | VPath2D segments =>
          let fillRule := ToString fillRule in
          if negb (String.eqb fillRule "nonzero")
             && negb (String.eqb fillRule "evenodd") then
            throw (TypeError (Failed "clip" +:+ "The provided value '"
                     +:+ fillRule
                     +:+ "' is not a valid enum value of type CanvasFillRule."))
          else ret (segments, fillRule)
      | _ =>
          let fillRule := ToString path in
          if negb (String.eqb fillRule "nonzero")
             && negb (String.eqb fillRule "evenodd") then
            throw (TypeError (Failed "clip" +:+ "The provided value '"
                     +:+ fillRule
                     +:+ "' is not a valid enum value of type CanvasFillRule."))
          else
            let* p := gets _path in ret (p, fillRule)
      end
  end.

Definition clip (args : list value) : M retval :=
  let* pf := path_and_fillRule args in
  let* tr := getTransformSlice in
  let event :=
    createCanvasEvent "clip" tr
      [("path", VEvents (fst pf)); ("fillRule", VStr (snd pf))] in
  path_push event ;;
  events_push event ;;
  ret undefined.

Definition closePath : M retval :=
  let* tr := getTransformSlice in
  let event := createCanvasEvent "closePath" tr [] in
  events_push event ;;
  path_push event ;;
  ret undefined.

Definition createImageData (args : list value) : M retval :=
  let width := arg 0 args in
  let height := arg 1 args in
  if (length args <? 1)%nat then
    throw (TypeError (Failed "createImageData"
             +:+ "1 argument required, but only 0 present."))
  else if (length args =? 1)%nat then
    if negb (is_ImageData width) then
      throw (TypeError (Failed "createImageData"
               +:+ "parameter 1 is not of type 'ImageData'."))
    else
      let result :=
        new_ImageData (get_field width "width") (get_field width "height") in
      let* tr := getTransformSlice in
      let event :=
        createCanvasEvent "createImageData" tr
          [("width", get_field width "width");
           ("height", get_field width "height")] in
      events_push event ;;
      ret (Value result)
  else
    let width := abs (Number width) in
    let height := abs (Number height) in
    if negb (is_finite width) || (width =? 0)%float then
      throw (TypeError (Failed "createImageData"
               +:+ "The source width is 0."))
    else if negb (is_finite height) || (height =? 0)%float then
      throw (TypeError (Failed "createImageData"
               +:+ "The source height is 0."))
    else
      let* tr := getTransformSlice in
      let event :=
        createCanvasEvent "createImageData" tr
          [("width", VNum width); ("height", VNum height)] in
      events_push event ;;
      ret (Value (new_ImageData (VNum width) (VNum height))).

Definition createLinearGradient (args : list value) : M retval :=
  let x0 := arg 0 args in
  let y0 := arg 1 args in
  let x1 := arg 2 args in
  let y1 := arg 3 args in
  if (length args <? 4)%nat then
    throw (TypeError (Failed "createLinearGradient"
             +:+ "4 arguments required, but only "
             +:+ nat_to_string (length args) +:+ " present."))
  else
    let x0Result := Number x0 in
    let y0Result := Number y0 in
    let x1Result := Number x1 in
    let y1Result := Number y1 in
    if negb (is_finite (x0Result + y0Result + x1Result + y1Result)) then
      throw (TypeError (Failed "createLinearGradient"
               +:+ "The provided double value is non-finite."))
    else
      let* tr := getTransformSlice in
      let event :=
        createCanvasEvent "createLinearGradient" tr
          [("x0", VNum x0Result); ("y0", VNum y0Result);
           ("x1", VNum x1Result); ("y1", VNum y1Result)] in
      events_push event ;;
      ret (Value new_CanvasGradient).

Definition createPattern (args : list value) : M retval :=
  let image := arg 0 args in
  let type := arg 1 args in
  if (length args =? 1)%nat then
    throw (TypeError (Failed "createPattern"
             +:+ "2 arguments required, but only 1 present."))
  else
    let type := match type with VNull => VStr "repeat" | _ => type end in
    let type := if str_is type "" then VStr "repeat" else type in
    if str_is type "repeat" || str_is type "repeat-x"
       || str_is type "repeat-y" || str_is type "no-repeat" then
      let* tr := getTransformSlice in
      let event :=
        createCanvasEvent "createPattern" tr
          [("image", image); ("type", type)] in
      match image with
      | VImageBitmap closed _ _ =>
          if closed then
            throw (DOMException "InvalidStateError"
                     "Failed to execute 'createPattern' on 'CanvasRenderingContext2D': The image source is detached.")
          else events_push event ;; ret (Value new_CanvasPattern)
      | VHTMLImageElement _ _ | VHTMLVideoElement _ _
      | VHTMLCanvasElement _ _ =>
          events_push event ;; ret (Value new_CanvasPattern)
      | _ =>
          throw (TypeError (Failed "createPattern"
                   +:+ "The provided value is not of type '(CSSImageValue or HTMLImageElement or SVGImageElement or HTMLVideoElement or HTMLCanvasElement or ImageBitmap or OffscreenCanvas)'"))
      end
    else
      throw (TypeError (Failed "createPattern" +:+ "The provided type ('"
               +:+ ToString type
               +:+ "') is not one of 'repeat', 'no-repeat', 'repeat-x', or 'repeat-y'.")).

Definition createRadialGradient (args : list value) : M retval :=
  let x0 := arg 0 args in
  let y0 := arg 1 args in
  let r0 := arg 2 args in
  let x1 := arg 3 args in
  let y1 := arg 4 args in
  let r1 := arg 5 args in
  if (length args <? 6)%nat then
    throw (TypeError (Failed "createRadialGradient"
             +:+ "6 arguments required, but only "
             +:+ nat_to_string (length args) +:+ " present."))
  else
    let x0Result := Number x0 in
    let y0Result := Number y0 in
    let r0Result := Number r0 in
    let x1Result := Number x1 in
    let y1Result := Number y1 in
    let r1Result := Number r1 in
    if negb (is_finite (x0Result + y0Result + r0Result + x1Result
                        + y1Result + r1Result)) then
      throw (TypeError (Failed "createRadialGradient"
               +:+ "The provided double value is non-finite."))
    else if (r0Result <? 0)%float then
      throw (DOMException "IndexSizeError"
               (Failed "createRadialGradient"
                +:+ "The r0 provided is less than 0."))
    else if (r1Result <? 0)%float then
      throw (DOMException "IndexSizeError"
               (Failed "createRadialGradient"
                +:+ "The r1 provided is less than 0."))
    else
      let* tr := getTransformSlice in
      let event :=
        createCanvasEvent "createRadialGradient" tr
          [("x0", VNum x0Result); ("y0", VNum y0Result);
           ("r0", VNum r0Result); ("x1", VNum x1Result);
           ("y1", VNum y1Result); ("r1", VNum r1Result)] in
      events_push event ;;
      ret (Value new_CanvasGradient).

Definition set_currentTransform (value : value) : M retval :=
  match value with
  | VDOMMatrix a b c d e f =>
      transform_write 0 a ;;
      transform_write 1 b ;;
      transform_write 2 c ;;
      transform_write 3 d ;;
      transform_write 4 e ;;
      transform_write 5 f ;;
      let* tr := getTransformSlice in
      let event :=
        createCanvasEvent "currentTransform" tr
          [("a", VNum a); ("b", VNum b); ("c", VNum c); ("d", VNum d);
           ("e", VNum e); ("f", VNum f)] in
      events_push event ;;
      ret undefined
  | _ => ret undefined
  end.

Definition get_currentTransform : M retval :=
  let* cur := gets current_transform in
  ret (Value (new_DOMMatrix (snd <$> cur))).

Definition set_direction (value : value) : M retval :=
  if str_is value "rtl" || str_is value "ltr" || str_is value "inherit" then
    stack_write _directionStack value ;;
    let* tr := getTransformSlice in
    let event := createCanvasEvent "direction" tr [("value", value)] in
    events_push event ;;
    ret undefined
  else ret undefined.

Definition get_direction : M retval :=
  let* v := stack_read _directionStack in ret (Value v).

(** [path._path] where [path] may be any value. *)
Definition _path_of (path : value) : value :=
  match path with
  | VPath2D segments => VEvents segments
  | _ => get_field path "_path"
  end.

Definition drawFocusIfNeeded (args : list value) : M retval :=
  let path := arg 0 args in
  let element := arg 1 args in
  if (length args =? 0)%nat then
    throw (TypeError (Failed "drawFocusIfNeeded"
             +:+ "1 argument required, but only 0 present."))
  else if (length args =? 2)%nat && negb (is_Path2D path) then
    throw (TypeError (Failed "drawFocusIfNeeded"
             +:+ "parameter 1 is not of type 'Path2D'."))
  else
    let element := if (length args =? 1)%nat then path else element in
    let path := if (length args =? 1)%nat then VNull else path in
    if negb (is_Element element) then
      throw (TypeError (Failed "drawFocusIfNeeded" +:+ "parameter "
               +:+ nat_to_string (length args)
               +:+ " is not of type 'Element'."))
    else
      let* tr := getTransformSlice in
      let event :=
        createCanvasEvent "drawFocusIfNeeded" tr
          [("path", if Boolean path then _path_of path else VNull);
           ("element", element)] in
      events_push event ;;
      ret undefined.

Definition drawImage (args : list value) : M retval :=
  let img := arg 0 args in
  let sx := arg 1 args in
  let sy := arg 2 args in
  let sWidth := arg 3 args in
  let sHeight := arg 4 args in
  let dx := arg 5 args in
  let dy := arg 6 args in
  let dWidth := arg 7 args in
  let dHeight := arg 8 args in
  let n := length args in
  if (n <? 3)%nat then
    throw (TypeError (Failed "drawImage" +:+ "3 arguments required, but only "
             +:+ nat_to_string n +:+ " present."))
  else if (n =? 4)%nat || (5 <? n)%nat && (n <? 9)%nat then
    throw (TypeError (Failed "drawImage"
             +:+ "Valid arities are: [3, 5, 9], but 4 arguments provided."))
  else
    let detached :=
      match img with VImageBitmap closed _ _ => closed | _ => false end in
    let valid :=
      match img with
      | VHTMLImageElement _ _ | VImageBitmap _ _ _ | VHTMLVideoElement _ _
      | VHTMLCanvasElement _ _ => true
      | _ => false
      end in
    if detached then
      throw (DOMException "InvalidStateError"
               "DOMException: Failed to execute 'drawImage' on 'CanvasRenderingContext2D': The image source is detached.")
    else if negb valid then
      throw (TypeError (Failed "drawImage"
               +:+ "The provided value is not of type '(CSSImageValue or HTMLImageElement or SVGImageElement or HTMLVideoElement or HTMLCanvasElement or ImageBitmap or OffscreenCanvas)'"))
    else
      let sxResult := Number sx in
      let syResult := Number sy in
      let sWidthResult := Number sWidth in
      let sHeightResult := Number sHeight in
      let dxResult := Number dx in
      let dyResult := Number dy in
      let dWidthResult := Number dWidth in
      let dHeightResult := Number dHeight in
      let record (sx sy sWidth sHeight dx dy dWidth dHeight : value) :=
        let* tr := getTransformSlice in
        let event :=
          createCanvasEvent "drawImage" tr
            [("img", img); ("sx", sx); ("sy", sy); ("sWidth", sWidth);
             ("sHeight", sHeight); ("dx", dx); ("dy", dy);
             ("dWidth", dWidth); ("dHeight", dHeight)] in
        events_push event ;;
        drawCalls_push event ;;
        ret undefined in
      if (n =? 3)%nat then
        if negb (is_finite (sxResult + syResult)) then ret undefined
        else
          record (VNum 0) (VNum 0) (get_field img "width")
            (get_field img "height") (VNum sxResult) (VNum syResult)
            (get_field img "width") (get_field img "height")
      else if (n =? 5)%nat then
        if negb (is_finite (sxResult + syResult + sWidthResult
                            + sHeightResult)) then ret undefined
        else
          record (VNum 0) (VNum 0) (get_field img "width")
            (get_field img "height") (VNum sxResult) (VNum syResult)
            (get_field img "width") (get_field img "height")
      else
        if negb (Number_isFinite
                   (js_add (js_add (js_add (js_add (js_add (js_add
                      (js_add sx sy) sWidth) sHeight) dx) dy) dWidth)
                      dHeight))
        then ret undefined
        else
          record (VNum sxResult) (VNum syResult) (VNum sWidthResult)
            (VNum sHeightResult) (VNum dxResult) (VNum dyResult)
            (VNum dWidthResult) (VNum dHeightResult).

Definition ellipse (args : list value) : M retval :=
  let x := arg 0 args in
  let y := arg 1 args in
  let radiusX := arg 2 args in
  let radiusY := arg 3 args in
  let rotation := arg 4 args in
  let startAngle := arg 5 args in
  let endAngle := arg 6 args in
  let anticlockwise := or_default (arg 7 args) (VBool false) in
  if (length args <? 7)%nat then
    throw (TypeError (Failed "ellipse" +:+ "6 arguments required, but only "
             +:+ nat_to_string (length args) +:+ " present."))
  else
    let xResult := Number x in
    let yResult := Number y in
    let radiusXResult := Number radiusX in
    let radiusYResult := Number radiusY in
    let rotationResult := Number rotation in
    let startAngleResult := Number startAngle in
    let endAngleResult := Number endAngle in
    let anticlockwiseResult := Boolean anticlockwise in
    if negb (is_finite (xResult + yResult + radiusXResult + radiusYResult
                        + rotationResult + startAngleResult
                        + endAngleResult)) then ret undefined
    else if (Number radiusX <? 0)%float then
      throw (DOMException "IndexSizeError"
               (Failed "ellipse" +:+ "The major-axis radius provided ("
                +:+ ToString radiusX +:+ ") is negative."))
    else if (Number radiusY <? 0)%float then
      throw (DOMException "IndexSizeError"
               (Failed "ellipse" +:+ "The minor-axis radius provided ("
                +:+ ToString radiusY +:+ ") is negative."))
    else
      let* tr := getTransformSlice in
      let event :=
        createCanvasEvent "ellipse" tr
          [("x", VNum xResult); ("y", VNum yResult);
           ("radiusX", VNum radiusXResult); ("radiusY", VNum radiusYResult);
           ("rotation", VNum rotationResult);
           ("startAngle", VNum startAngleResult);
           ("endAngle", VNum endAngleResult);
           ("anticlockwise", VBool anticlockwiseResult)] in
      path_push event ;;
      events_push event ;;
      ret undefined.

Definition fill (args : list value) : M retval :=
  let* pf := path_and_fillRule args in
  let* tr := getTransformSlice in
  let event :=
    createCanvasEvent "fill" tr
      [("path", VEvents (fst pf)); ("fillRule", VStr (snd pf))] in
  events_push event ;;
  drawCalls_push event ;;
  ret undefined.

Definition fillRect (args : list value) : M retval :=
  let x := arg 0 args in
  let y := arg 1 args in
  let width := arg 2 args in
  let height := arg 3 args in
  if (length args <? 4)%nat then
    throw (TypeError (Failed "fillRect" +:+ "4 arguments required, but only "
             +:+ nat_to_string (length args) +:+ " present."))
  else
    let xResult := Number x in
    let yResult := Number y in
    let widthResult := Number width in
    let heightResult := Number height in
    if negb (Number_isFinite (js_add (js_add (js_add x y) width) height))
    then ret undefined
    else
      let* tr := getTransformSlice in
      let event :=
        createCanvasEvent "fillRect" tr
          [("x", VNum xResult); ("y", VNum yResult);
           ("width", VNum widthResult); ("height", VNum heightResult)] in
      events_push event ;;
      drawCalls_push event ;;
      ret undefined.

(** The body shared by the [fillStyle] and [strokeStyle] setters, which
    differ only in the stack they write and the event type. *)
Definition set_style (s : stack) (type : string) (value : value) : M retval :=
  let record value :=
    let* tr := getTransformSlice in
    let event := createCanvasEvent type tr [("value", value)] in
    events_push event ;;
    ret undefined in
  match value with
  | VStr str =>
      match parseCSSColor str with
      | Some result =>
          if Boolean (VStr result) then
            stack_write s (VStr result) ;;
            record (VStr result)
          else ret undefined
      | None => ret undefined
      end
  | VCanvasGradient | VCanvasPattern =>
      stack_write s value ;;
      record value
  | _ => ret undefined
  end.

Definition set_fillStyle (value : value) : M retval :=
  set_style _fillStyleStack "fillStyle" value.

Definition get_fillStyle : M retval :=
  let* v := stack_read _fillStyleStack in ret (Value v).

(** The body shared by [fillText] and [strokeText]. *)
Definition draw_text (type : string) (args : list value) : M retval :=
  let text := arg 0 args in
  let x := arg 1 args in
  let y := arg 2 args in
  let maxWidth := arg 3 args in
  let n := length args in
  if (n <? 3)%nat then
    throw (TypeError (Failed type +:+ "3 arguments required, but only "
             +:+ nat_to_string n +:+ " present."))
  else
    let textResult := ToString text in
    let xResult := Number x in
    let yResult := Number y in
    let maxWidthResult := Number maxWidth in
    if (n =? 3)%nat && negb (is_finite (xResult + yResult)) then
      ret undefined
    else if (3 <? n)%nat
            && negb (is_finite (xResult + yResult + maxWidthResult)) then
      ret undefined
    else
      let* tr := getTransformSlice in
      let event :=
        createCanvasEvent type tr
          [("text", VStr textResult); ("x", VNum xResult);
           ("y", VNum yResult);
           ("maxWidth", if (n =? 3)%nat then VNull else VNum maxWidthResult)]
      in
      events_push event ;;
      drawCalls_push event ;;
      ret undefined.

Definition fillText (args : list value) : M retval :=
  draw_text "fillText" args.

Definition set_filter (value : value) : M retval :=
  let value := if str_is value "" then VStr "none" else value in
  let value := match value with VStr _ => value | _ => VStr "none" end in
  stack_write _filterStack value ;;
  let* tr := getTransformSlice in
  let event := createCanvasEvent "filter" tr [("value", value)] in
  events_push event ;;
  ret undefined.

Definition get_filter : M retval :=
  let* v := stack_read _filterStack in ret (Value v).

(** The whole body of the setter is inside [try { ... } catch (ex) {}]:
    a failure of the parser (the [None] of the host's [cssfontparser]) or
    of anything after it is swallowed. *)
Definition set_font (value : value) : M retval :=
  catch
    (match cssfontparser host value with
     | Some result =>
         stack_write _fontStack (VStr result) ;;
         let* tr := getTransformSlice in
         let event := createCanvasEvent "font" tr [("value", VStr result)] in
         events_push event ;;
         ret undefined
     | None => ret undefined
     end)
    (fun _ => ret undefined).

Definition get_font : M retval :=
  let* v := stack_read _fontStack in ret (Value v).

Definition getImageData : M retval :=
  let* canvas := gets _canvas in
  match canvas with
  | VUndefined | VNull => throw undefined_access
  | _ =>
      ret (Value (new_ImageData (get_field canvas "width")
                    (get_field canvas "height")))
  end.

Definition getLineDash : M retval :=
  let* r := gets (fun st => array_get None (_lineDashStack st) (_stackIndex st)) in
  match r with
  | Some a => ret (ArrayRef a)
  | None => ret undefined
  end.

Definition getTransform : M retval :=
  let* cur := gets current_transform in
  ret (Value (new_DOMMatrix (snd <$> cur))).

Definition set_globalAlpha (value : value) : M retval :=
  let value := Number value in
  if negb (is_finite value) then ret undefined
  else if (value <? 0)%float then ret undefined
  else if (1 <? value)%float then ret undefined
  else
    stack_write _globalAlphaStack (VNum value) ;;
    let* tr := getTransformSlice in
    let event := createCanvasEvent "globalAlpha" tr [("value", VNum value)] in
    events_push event ;;
    ret undefined.

Definition get_globalAlpha : M retval :=
  let* v := stack_read _globalAlphaStack in ret (Value v).

Definition compositeOperations : list string :=
  ["source-over"; "source-in"; "source-out"; "source-atop";
   "destination-over"; "destination-in"; "destination-out";
   "destination-atop"; "lighter"; "copy"; "xor"; "multiply"; "screen";
   "overlay"; "darken"; "lighten"; "color-dodge"; "color-burn";
   "hard-light"; "soft-light"; "difference"; "exclusion"; "hue";
   "saturation"; "color"; "luminosity"].

(** [list.indexOf(v) !== -1]. *)
Definition includes (l : list string) (v : value) : bool :=
  existsb (str_is v) l.

(** The shape shared by every setter that accepts a fixed set of strings:
    on a match the value is stored and an event recorded, otherwise
    nothing happens. *)
Definition set_enum (s : stack) (type : string) (allowed : list string)
    (value : value) : M retval :=
  if includes allowed value then
    stack_write s value ;;
    let* tr := getTransformSlice in
    let event := createCanvasEvent type tr [("value", value)] in
    events_push event ;;
    ret undefined
  else ret undefined.

Definition set_globalCompositeOperation (value : value) : M retval :=
  set_enum _globalCompositeOperationStack "globalCompositeOperation"
    compositeOperations value.

Definition get_globalCompositeOperation : M retval :=
  let* v := stack_read _globalCompositeOperationStack in ret (Value v).

Definition set_imageSmoothingEnabled (value : value) : M retval :=
  let value := VBool (Boolean value) in
  stack_write _imageSmoothingEnabledStack value ;;
  let* tr := getTransformSlice in
  let event :=
    createCanvasEvent "imageSmoothingEnabled" tr [("value", value)] in
  events_push event ;;
  ret undefined.

Definition get_imageSmoothingEnabled : M retval :=
  let* v := stack_read _imageSmoothingEnabledStack in ret (Value v).

Definition set_imageSmoothingQuality (value : value) : M retval :=
  set_enum _imageSmoothingQualityStack "imageSmoothingQuality"
    ["high"; "medium"; "low"] value.

Definition get_imageSmoothingQuality : M retval :=
  let* v := stack_read _imageSmoothingQualityStack in ret (Value v).

Definition isPointInPath (args : list value) : M retval :=
  let path := arg 0 args in
  let x := arg 1 args in
  let y := arg 2 args in
  let fillRule := or_default (arg 3 args) (VStr "nonzero") in
  if (length args <? 2)%nat then
    throw (TypeError (Failed "isPointInPath"
             +:+ "2 arguments required, but only "
             +:+ nat_to_string (length args) +:+ " present."))
  else
    let fillRule :=
      if negb (is_Path2D path) && (2 <? length args)%nat then y
      else fillRule in
    let y' := if negb (is_Path2D path) then x else y in
    let x' := if negb (is_Path2D path) then path else x in
    if negb (str_is fillRule "nonzero") && negb (str_is fillRule "evenodd")
    then
      throw (TypeError (Failed "isPointInPath" +:+ "The provided value '"
               +:+ ToString fillRule
               +:+ "' is not a valid enum value of type CanvasFillRule."))
    else
      let* tr := getTransformSlice in
      let* own := gets _path in
      let event :=
        createCanvasEvent "isPointInPath" tr
          [("x", VNum (Number x')); ("y", VNum (Number y'));
           ("fillRule", fillRule);
           ("path", match path with
                    | VPath2D segments => VEvents segments
                    | _ => VEvents own
                    end)] in
      events_push event ;;
      ret (Value (VBool false)).

Definition isPointInStroke (args : list value) : M retval :=
  let path := arg 0 args in
  let x := arg 1 args in
  let y := arg 2 args in
  if (length args <? 2)%nat then
    throw (TypeError (Failed "isPointInStroke"
             +:+ "2 arguments required, but only "
             +:+ nat_to_string (length args) +:+ " present."))
  else
    let y' := if negb (is_Path2D path) then x else y in
    let x' := if negb (is_Path2D path) then path else x in
    let* tr := getTransformSlice in
    let* own := gets _path in
    let event :=
      createCanvasEvent "isPointInPath" tr
        [("x", VNum (Number x')); ("y", VNum (Number y'));
         ("path", match path with
                  | VPath2D segments => VEvents segments
                  | _ => VEvents own
                  end)] in
    events_push event ;;
    ret (Value (VBool false)).

Definition set_lineCap (value : value) : M retval :=
  set_enum _lineCapStack "lineCap" ["butt"; "round"; "square"] value.

Definition get_lineCap : M retval :=
  let* v := stack_read _lineCapStack in ret (Value v).

Definition set_lineDashOffset (value : value) : M retval :=
  let result := Number value in
  if is_finite result then
    stack_write _lineDashOffsetStack (VNum result) ;;
    let* tr := getTransformSlice in
    let event := createCanvasEvent "lineDashOffset" tr [("value", value)] in
    events_push event ;;
    ret undefined
  else ret undefined.

Definition get_lineDashOffset : M retval :=
  let* v := stack_read _lineDashOffsetStack in ret (Value v).

Definition set_lineJoin (value : value) : M retval :=
  set_enum _lineJoinStack "lineJoin" ["round"; "bevel"; "miter"] value.

Definition get_lineJoin : M retval :=
  let* v := stack_read _lineJoinStack in ret (Value v).

Definition lineTo (args : list value) : M retval :=
  let x := arg 0 args in
  let y := arg 1 args in
  if (length args <? 2)%nat then
    throw (TypeError (Failed "lineTo" +:+ "2 arguments required, but only "
             +:+ nat_to_string (length args) +:+ " present."))
  else
    let xResult := Number x in
    let yResult := Number y in
    if negb (is_finite (xResult + yResult)) then ret undefined
    else
      let* tr := getTransformSlice in
      let event :=
        createCanvasEvent "lineTo" tr
          [("x", VNum xResult); ("y", VNum yResult)] in
      events_push event ;;
      path_push event ;;
      ret undefined.

Definition set_lineWidth (value : value) : M retval :=
  let result := Number value in
  if is_finite result && (0 <? result)%float then
    stack_write _lineWidthStack (VNum result) ;;
    let* tr := getTransformSlice in
    let event := createCanvasEvent "lineWidth" tr [("value", VNum result)] in
    events_push event ;;
    ret undefined
  else ret undefined.

Definition get_lineWidth : M retval :=
  let* v := stack_read _lineWidthStack in ret (Value v).

Definition measureText (args : list value) : M retval :=
  let text := arg 0 args in
  if (length args <? 1)%nat then
    throw (TypeError (Failed "measureText"
             +:+ "1 argument required, but only 0 present."))
  else
    let text :=
      match text with VUndefined | VNull => VStr "" | _ => text end in
    let text := ToString text in
    let* tr := getTransformSlice in
    let event := createCanvasEvent "measureText" tr [("text", VStr text)] in
    events_push event ;;
    ret (Value (new_TextMetrics text)).

Definition set_miterLimit (value : value) : M retval :=
  let result := Number value in
  if is_finite result && (0 <? result)%float then
    stack_write _miterLimitStack (VNum result) ;;
    let* tr := getTransformSlice in
    let event := createCanvasEvent "lineWidth" tr [("value", VNum result)] in
    events_push event ;;
    ret undefined
  else ret undefined.

Definition get_miterLimit : M retval :=
  let* v := stack_read _miterLimitStack in ret (Value v).

Definition moveTo (args : list value) : M retval :=
  let x := arg 0 args in
  let y := arg 1 args in
  if (length args <? 2)%nat then
    throw (TypeError (Failed "moveTo" +:+ "2 arguments required, but only "
             +:+ nat_to_string (length args) +:+ " present."))
  else
    let xResult := Number x in
    let yResult := Number y in
    if negb (Number_isFinite (js_add x y)) then ret undefined
    else
      let* tr := getTransformSlice in
      let event :=
        createCanvasEvent "moveTo" tr
          [("x", VNum xResult); ("y", VNum yResult)] in
      events_push event ;;
      path_push event ;;
      ret undefined.

Definition putImageData (args : list value) : M retval :=
  let data := arg 0 args in
  let x := arg 1 args in
  let y := arg 2 args in
  let dirtyX := arg 3 args in
  let dirtyY := arg 4 args in
  let dirtyWidth := arg 5 args in
  let dirtyHeight := arg 6 args in
  let n := length args in
  if (n <? 3)%nat then
    throw (TypeError (Failed "putImageData"
             +:+ "3 arguments required, but only "
             +:+ nat_to_string n +:+ " present."))
  else if (3 <? n)%nat && (n <? 7)%nat then
    throw (TypeError (Failed "putImageData"
             +:+ "Valid arities are: [3, 7], but "
             +:+ nat_to_string n +:+ " arguments provided."))
  else if negb (is_ImageData data) then
    throw (TypeError (Failed "putImageData"
             +:+ "parameter 1 is not of type 'ImageData'."))
  else
    let xResult := Number x in
    let yResult := Number y in
    let dirtyXResult := Number dirtyX in
    let dirtyYResult := Number dirtyY in
    let dirtyWidthResult := Number dirtyWidth in
    let dirtyHeightResult := Number dirtyHeight in
    if (if (n =? 3)%nat then negb (is_finite (xResult + yResult))
        else negb (is_finite (xResult + yResult + dirtyXResult + dirtyYResult
                              + dirtyWidthResult + dirtyHeightResult)))
    then ret undefined
    else
      let* tr := getTransformSlice in
      let event :=
        createCanvasEvent "putImageData" tr
          [("x", VNum xResult); ("y", VNum yResult);
           ("dirtyX", VNum dirtyXResult); ("dirtyY", VNum dirtyYResult);
           ("dirtyWidth", VNum dirtyWidthResult);
           ("dirtyHeight", VNum dirtyHeightResult)] in
      events_push event ;;
      ret undefined.

Definition quadraticCurveTo (args : list value) : M retval :=
  let cpx := arg 0 args in
  let cpy := arg 1 args in
  let x := arg 2 args in
  let y := arg 3 args in
  if (length args <? 4)%nat then
    throw (TypeError (Failed "quadraticCurveTo"
             +:+ "4 arguments required, but only "
             +:+ nat_to_string (length args) +:+ " present."))
  else
    let cpxResult := Number cpx in
    let cpyResult := Number cpy in
    let xResult := Number x in
    let yResult := Number y in
    if negb (is_finite (cpxResult + cpyResult + xResult + yResult)) then
      ret undefined
    else
      let* tr := getTransformSlice in
      let event :=
        createCanvasEvent "quadraticCurveTo" tr
          [("cpx", VNum cpxResult); ("cpy", VNum cpyResult);
           ("x", VNum xResult); ("y", VNum yResult)] in
      events_push event ;;
      ret undefined.

Definition rect (args : list value) : M retval :=
  let x := arg 0 args in
  let y := arg 1 args in
  let width := arg 2 args in
  let height := arg 3 args in
  if (length args <? 4)%nat then
    throw (TypeError (Failed "rect" +:+ "4 arguments required, but only "
             +:+ nat_to_string (length args) +:+ " present."))
  else if negb (Number_isFinite (js_add (js_add (js_add x y) width) height))
  then ret undefined
  else
    let xResult := Number x in
    let yResult := Number y in
    let widthResult := Number width in
    let heightResult := Number height in
    let* tr := getTransformSlice in
    let event :=
      createCanvasEvent "rect" tr
        [("x", VNum xResult); ("y", VNum yResult);
         ("width", VNum widthResult); ("height", VNum heightResult)] in
    events_push event ;;
    path_push event ;;
    ret undefined.

Definition removeHitRegion (args : list value) : M retval :=
  let id := arg 0 args in
  if (length args <? 1)%nat then
    throw (TypeError (Failed "removeHitRegion"
             +:+ "1 argument required, but only "
             +:+ nat_to_string (length args) +:+ " present."))
  else
    let* tr := getTransformSlice in
    let event := createCanvasEvent "removeHitRegion" tr [("id", id)] in
    events_push event ;;
    ret undefined.

Definition resetTransform : M retval :=
  transform_write 0 1 ;;
  transform_write 1 0 ;;
  transform_write 2 0 ;;
  transform_write 3 1 ;;
  transform_write 4 0 ;;
  transform_write 5 0 ;;
  let* tr := getTransformSlice in
  let event :=
    createCanvasEvent "resetTransform" tr
      [("a", VNum 1); ("b", VNum 0); ("c", VNum 0); ("d", VNum 1);
       ("e", VNum 0); ("f", VNum 0)] in
  events_push event ;;
  ret undefined.

Definition restore : M retval :=
  let* idx := gets _stackIndex in
  if (idx <=? 0)%nat then ret undefined
  else
    modify (fun st => with_transformStack (array_pop (_transformStack st)) st) ;;
    modify (fun st => with_stacks (fun s => array_pop (stacks st s)) st) ;;
    modify (fun st => with_lineDashStack (array_pop (_lineDashStack st)) st) ;;
    modify (fun st => with_stackIndex (_stackIndex st - 1) st) ;;
    let* tr := getTransformSlice in
    let event := createCanvasEvent "restore" tr [] in
    events_push event ;;
    ret undefined.

Definition rotate (args : list value) : M retval :=
  let angle := arg 0 args in
  if (length args <? 1)%nat then
    throw (TypeError (Failed "rotate"
             +:+ "1 argument required, but only 0 present."))
  else
    let angle := Number angle in
    if negb (is_finite angle) then ret undefined
    else
      let* a := transform_read 0 in
      let* b := transform_read 1 in
      let* c := transform_read 2 in
      let* d := transform_read 3 in
      let cos := Math_cos host angle in
      let sin := Math_sin host angle in
      transform_write 0 (a * cos + c * sin) ;;
      transform_write 1 (b * cos + d * sin) ;;
      transform_write 2 (c * cos - a * sin) ;;
      transform_write 3 (d * cos - b * sin) ;;
      let* tr := getTransformSlice in
      let event := createCanvasEvent "rotate" tr [("angle", VNum angle)] in
      events_push event ;;
      ret undefined.

(** [save] pushes, on every stack, the entry at [_stackIndex]: for the
    transform and the dash list that entry is the array itself.  The one
    exception is the line width, where the source indexes with
    [this.stackIndex], a property the instance does not have, so the value
    pushed is [undefined]. *)
Definition save : M retval :=
  modify (fun st =>
    with_transformStack
      (array_push (_transformStack st)
         (array_get None (_transformStack st) (_stackIndex st))) st) ;;
  modify (fun st =>
    with_stacks
      (fun s =>
         array_push (stacks st s)
           (match s with
            | _lineWidthStack => VUndefined
            | _ => array_get VUndefined (stacks st s) (_stackIndex st)
            end)) st) ;;
  modify (fun st =>
    with_lineDashStack
      (array_push (_lineDashStack st)
         (array_get None (_lineDashStack st) (_stackIndex st))) st) ;;
  modify (fun st => with_stackIndex (_stackIndex st + 1) st) ;;
  let* tr := getTransformSlice in
  let event := createCanvasEvent "save" tr [] in
  events_push event ;;
  ret undefined.

Definition scale (args : list value) : M retval :=
  let x := arg 0 args in
  let y := arg 1 args in
  if (length args <? 2)%nat then
    throw (TypeError (Failed "scale" +:+ "2 arguments required, but only "
             +:+ nat_to_string (length args) +:+ " present."))
  else
    let xResult := Number x in
    let yResult := Number y in
    if is_finite xResult && is_finite yResult then
      (let* t0 := transform_read 0 in transform_write 0 (t0 * xResult)) ;;
      (let* t1 := transform_read 1 in transform_write 1 (t1 * xResult)) ;;
      (let* t2 := transform_read 2 in transform_write 2 (t2 * yResult)) ;;
      (let* t3 := transform_read 3 in transform_write 3 (t3 * yResult)) ;;
      let* tr := getTransformSlice in
      let event :=
        createCanvasEvent "scale" tr
          [("x", VNum xResult); ("y", VNum yResult)] in
      events_push event ;;
      ret undefined
    else ret undefined.

Definition scrollPathIntoView (args : list value) : M retval :=
  let* own := gets _path in
  let path :=
    match args, arg 0 args with
    | _ :: _, VPath2D segments => segments
    | _, _ => own
    end in
  let* tr := getTransformSlice in
  let event :=
    createCanvasEvent "scrollPathIntoView" tr [("path", VEvents path)] in
  events_push event ;;
  ret undefined.

(** The loop of [setLineDash]: the coerced elements, or [None] as soon as
    one of them is not a finite number that is at least zero (the method
    then returns without doing anything). *)
Fixpoint dash_values (lineDash : list value) : option (list float) :=
  match lineDash with
  | [] => Some []
  | v :: rest =>
      let value := Number v in
      if is_finite value && (0 <=? value)%float then
        match dash_values rest with
        | Some result => Some (value :: result)
        | None => None
        end
      else None
  end.

(** A new array placed in the store; its address is returned. *)
Definition allocate (arr : list float) : M nat :=
  fun st => (Normal (length (store st)), with_store (store st ++ [arr]) st).

Definition setLineDash (args : list value) : M retval :=
  let lineDash := arg 0 args in
  match lineDash with
  | VArray elems =>
      match dash_values elems with
      | Some result =>
          let result :=
            if (length result mod 2 =? 1)%nat then (result ++ result)%list
            else result in
          let* a := allocate result in
          modify (fun st =>
            with_lineDashStack
              (array_set None (_lineDashStack st) (_stackIndex st) (Some a))
              st) ;;
          let* tr := getTransformSlice in
          let event :=
            createCanvasEvent "setLineDash" tr
              [("value", VArray (map VNum result))] in
          events_push event ;;
          ret undefined
      | None => ret undefined
      end
  | _ =>
      throw (TypeError (Failed "setLineDash"
               +:+ "The provided value cannot be converted to a sequence."))
  end.

Definition setTransform (args : list value) : M retval :=
  let a := arg 0 args in
  let b := arg 1 args in
  let c := arg 2 args in
  let d := arg 3 args in
  let e := arg 4 args in
  let f := arg 5 args in
  let n := length args in
  let continue (a b c d e f : value) : M retval :=
    let a := Number a in
    let b := Number b in
    let c := Number c in
    let d := Number d in
    let e := Number e in
    let f := Number f in
    if negb (is_finite (a + b + c + d + e + f)) then ret undefined
    else
      transform_write 0 a ;;
      transform_write 1 b ;;
      transform_write 2 c ;;
      transform_write 3 d ;;
      transform_write 4 e ;;
      transform_write 5 f ;;
      let* tr := getTransformSlice in
      let event :=
        createCanvasEvent "setTransform" tr
          [("a", VNum a); ("b", VNum b); ("c", VNum c); ("d", VNum d);
           ("e", VNum e); ("f", VNum f)] in
      events_push event ;;
      ret undefined in
  if (n =? 0)%nat then
    continue (VNum 1) (VNum 0) (VNum 0) (VNum 1) (VNum 0) (VNum 0)
  else if (n =? 1)%nat then
    match a with
    | VDOMMatrix ta tb tc td te tf =>
        continue (VNum ta) (VNum tb) (VNum tc) (VNum td) (VNum te) (VNum tf)
    | _ =>
        throw (TypeError (Failed "setTransform" +:+ "parameter "
                 +:+ ToString a +:+ " ('transform') is not an object."))
    end
  else if (n <? 6)%nat then
    throw (TypeError (Failed "setTransform"
             +:+ "Valid arities are: [0, 1, 6], but "
             +:+ nat_to_string n +:+ " arguments provided."))
  else continue a b c d e f.

Definition set_shadowBlur (value : value) : M retval :=
  let result := Number value in
  if is_finite result && (0 <? result)%float then
    stack_write _shadowBlurStack (VNum result) ;;
    let* tr := getTransformSlice in
    let event := createCanvasEvent "shadowBlur" tr [("value", VNum result)] in
    events_push event ;;
    ret undefined
  else ret undefined.

Definition get_shadowBlur : M retval :=
  let* v := stack_read _shadowBlurStack in ret (Value v).

Definition set_shadowColor (value : value) : M retval :=
  match value with
  | VStr str =>
      match parseCSSColor str with
      | Some result =>
          if Boolean (VStr result) then
            stack_write _shadowColorStack (VStr result) ;;
            let* tr := getTransformSlice in
            let event :=
              createCanvasEvent "shadowColor" tr [("value", VStr result)] in
            events_push event ;;
            ret undefined
          else ret undefined
      | None => ret undefined
      end
  | _ => ret undefined
  end.

Definition get_shadowColor : M retval :=
  let* v := stack_read _shadowColorStack in ret (Value v).

Definition set_shadowOffsetX (value : value) : M retval :=
  let result := Number value in
  if is_finite result then
    stack_write _shadowOffsetXStack (VNum result) ;;
    let* tr := getTransformSlice in
    let event :=
      createCanvasEvent "shadowOffsetX" tr [("value", VNum result)] in
    events_push event ;;
    ret undefined
  else ret undefined.

Definition get_shadowOffsetX : M retval :=
  let* v := stack_read _shadowOffsetXStack in ret (Value v).

Definition set_shadowOffsetY (value : value) : M retval :=
  let result := Number value in
  if is_finite result then
    stack_write _shadowOffsetXStack (VNum result) ;;
    let* tr := getTransformSlice in
    let event :=
      createCanvasEvent "shadowOffsetY" tr [("value", VNum result)] in
    events_push event ;;
    ret undefined
  else ret undefined.

Definition get_shadowOffsetY : M retval :=
  let* v := stack_read _shadowOffsetXStack in ret (Value v).

Definition stroke (args : list value) : M retval :=
  let record (path : list event) : M retval :=
    let* tr := getTransformSlice in
    let event := createCanvasEvent "stroke" tr [("path", VEvents path)] in
    events_push event ;;
    drawCalls_push event ;;
    ret undefined in
  match args with
  | [] =>
      let* own := gets _path in record own
  | path :: _ =>
      match path with
      | VPath2D segments => record segments
      | _ =>
          throw (TypeError (Failed "stroke"
                   +:+ "parameter 1 is not of type 'Path2D'."))
      end
  end.

Definition strokeRect (args : list value) : M retval :=
  let x := arg 0 args in
  let y := arg 1 args in
  let width := arg 2 args in
  let height := arg 3 args in
  if (length args <? 4)%nat then
    throw (TypeError (Failed "strokeRect"
             +:+ "4 arguments required, but only "
             +:+ nat_to_string (length args) +:+ " present."))
  else
    let x := Number x in
    let y := Number y in
    let width := Number width in
    let height := Number height in
    if negb (is_finite (x + y + width + height)) then ret undefined
    else
      let* tr := getTransformSlice in
      let event :=
        createCanvasEvent "strokeRect" tr
          [("x", VNum x); ("y", VNum y); ("width", VNum width);
           ("height", VNum height)] in
      events_push event ;;
      drawCalls_push event ;;
      ret undefined.

Definition set_strokeStyle (value : value) : M retval :=
  set_style _strokeStyleStack "strokeStyle" value.

Definition get_strokeStyle : M retval :=
  let* v := stack_read _strokeStyleStack in ret (Value v).

Definition strokeText (args : list value) : M retval :=
  draw_text "strokeText" args.

Definition set_textAlign (value : value) : M retval :=
  set_enum _textAlignStack "textAlign"
    ["left"; "right"; "center"; "start"; "end"] value.

Definition get_textAlign : M retval :=
  let* v := stack_read _textAlignStack in ret (Value v).

Definition set_textBaseline (value : value) : M retval :=
  set_enum _textBaselineStack "textBaseline"
    ["top"; "hanging"; "middle"; "alphabetic"; "ideographic"; "bottom"] value.

Definition get_textBaseline : M retval :=
  let* v := stack_read _textBaselineStack in ret (Value v).

Definition transform (args : list value) : M retval :=
  let a := arg 0 args in
  let b := arg 1 args in
  let c := arg 2 args in
  let d := arg 3 args in
  let e := arg 4 args in
  let f := arg 5 args in
  if (length args <? 6)%nat then
    throw (TypeError (Failed "transform"
             +:+ "6 arguments required, but only "
             +:+ nat_to_string (length args) +:+ " present."))
  else
    let a := Number a in
    let b := Number b in
    let c := Number c in
    let d := Number d in
    let e := Number e in
    let f := Number f in
    if negb (is_finite (a + b + c + d + e + f)) then ret undefined
    else
      let* sa := transform_read 0 in
      let* sb := transform_read 1 in
      let* sc := transform_read 2 in
      let* sd := transform_read 3 in
      let* se := transform_read 4 in
      let* sf := transform_read 5 in
      transform_write 0 (sa * a + sc * b) ;;
      transform_write 1 (sb * a + sd * b) ;;
      transform_write 2 (sa * c + sc * d) ;;
      transform_write 3 (sb * c + sd * d) ;;
      transform_write 4 (sa * e + sc * f + se) ;;
      transform_write 5 (sb * e + sd * f + sf) ;;
      let* tr := getTransformSlice in
      let event :=
        createCanvasEvent "transform" tr
          [("a", VNum a); ("b", VNum b); ("c", VNum c); ("d", VNum d);
           ("e", VNum e); ("f", VNum f)] in
      events_push event ;;
      ret undefined.

Definition translate (args : list value) : M retval :=
  let x := arg 0 args in
  let y := arg 1 args in
  if (length args <? 2)%nat then
    throw (TypeError (Failed "translate"
             +:+ "2 arguments required, but only "
             +:+ nat_to_string (length args) +:+ " present."))
  else
    let xResult := Number x in
    let yResult := Number y in
    let* a := transform_read 0 in
    let* b := transform_read 1 in
    let* c := transform_read 2 in
    let* d := transform_read 3 in
    if is_finite (xResult + yResult) then
      (let* t4 := transform_read 4 in
       transform_write 4 (t4 + (a * xResult + c * yResult))) ;;
      (let* t5 := transform_read 5 in
       transform_write 5 (t5 + (b * xResult + d * yResult))) ;;
      let* tr := getTransformSlice in
      let event :=
        createCanvasEvent "translate" tr
          [("x", VNum xResult); ("y", VNum yResult)] in
      events_push event ;;
      ret undefined
    else ret undefined.

(** ** The public surface

    One constructor per method, property setter and property getter of the
    class; a method carries the argument list of the call. *)
Inductive call : Type :=
| Call__getDrawCalls | Call__getEvents | Call__getPath
| CallAddHitRegion (args : list value)
| CallArc (args : list value)
| CallArcTo (args : list value)
| CallBeginPath
| CallBezierCurveTo (args : list value)
| GetCanvas
| CallClearHitRegions
| CallClearRect (args : list value)
| CallClip (args : list value)
| CallClosePath
| CallCreateImageData (args : list value)
| CallCreateLinearGradient (args : list value)
| CallCreatePattern (args : list value)
| CallCreateRadialGradient (args : list value)
| SetCurrentTransform (v : value) | GetCurrentTransform
| SetDirection (v : value) | GetDirection
| CallDrawFocusIfNeeded (args : list value)
| CallDrawImage (args : list value)
| CallEllipse (args : list value)
| CallFill (args : list value)
| CallFillRect (args : list value)
| SetFillStyle (v : value) | GetFillStyle
| CallFillText (args : list value)
| SetFilter (v : value) | GetFilter
| SetFont (v : value) | GetFont
| CallGetImageData
| CallGetLineDash
| CallGetTransform
| SetGlobalAlpha (v : value) | GetGlobalAlpha
| SetGlobalCompositeOperation (v : value) | GetGlobalCompositeOperation
| SetImageSmoothingEnabled (v : value) | GetImageSmoothingEnabled
| SetImageSmoothingQuality (v : value) | GetImageSmoothingQuality
| CallIsPointInPath (args : list value)
| CallIsPointInStroke (args : list value)
| SetLineCap (v : value) | GetLineCap
| SetLineDashOffset (v : value) | GetLineDashOffset
| SetLineJoin (v : value) | GetLineJoin
| CallLineTo (args : list value)
| SetLineWidth (v : value) | GetLineWidth
| CallMeasureText (args : list value)
| SetMiterLimit (v : value) | GetMiterLimit
| CallMoveTo (args : list value)
| CallPutImageData (args : list value)
| CallQuadraticCurveTo (args : list value)
| CallRect (args : list value)
| CallRemoveHitRegion (args : list value)
| CallResetTransform
| CallRestore
| CallRotate (args : list value)
| CallSave
| CallScale (args : list value)
| CallScrollPathIntoView (args : list value)
| CallSetLineDash (args : list value)
| CallSetTransform (args : list value)
| SetShadowBlur (v : value) | GetShadowBlur
| SetShadowColor (v : value) | GetShadowColor
| SetShadowOffsetX (v : value) | GetShadowOffsetX
| SetShadowOffsetY (v : value) | GetShadowOffsetY
| CallStroke (args : list value)
| CallStrokeRect (args : list value)
| SetStrokeStyle (v : value) | GetStrokeStyle
| CallStrokeText (args : list value)
| SetTextAlign (v : value) | GetTextAlign
| SetTextBaseline (v : value) | GetTextBaseline
| CallTransform (args : list value)
| CallTranslate (args : list value).

Definition exec (c : call) : M retval :=
  match c with
  | Call__getDrawCalls => __getDrawCalls
  | Call__getEvents => __getEvents
  | Call__getPath => __getPath
  | CallAddHitRegion args => addHitRegion args
  | CallArc args => arc args
  | CallArcTo args => arcTo args
  | CallBeginPath => beginPath
  | CallBezierCurveTo args => bezierCurveTo args
  | GetCanvas => get_canvas
  | CallClearHitRegions => clearHitRegions
  | CallClearRect args => clearRect args
  | CallClip args => clip args
  | CallClosePath => closePath
  | CallCreateImageData args => createImageData args
  | CallCreateLinearGradient args => createLinearGradient args
  | CallCreatePattern args => createPattern args
  | CallCreateRadialGradient args => createRadialGradient args
  | SetCurrentTransform v => set_currentTransform v
  | GetCurrentTransform => get_currentTransform
  | SetDirection v => set_direction v
  | GetDirection => get_direction
  | CallDrawFocusIfNeeded args => drawFocusIfNeeded args
  | CallDrawImage args => drawImage args
  | CallEllipse args => ellipse args
  | CallFill args => fill args
  | CallFillRect args => fillRect args
  | SetFillStyle v => set_fillStyle v
  | GetFillStyle => get_fillStyle
  | CallFillText args => fillText args
  | SetFilter v => set_filter v
  | GetFilter => get_filter
  | SetFont v => set_font v
  | GetFont => get_font
  | CallGetImageData => getImageData
  | CallGetLineDash => getLineDash
  | CallGetTransform => getTransform
  | SetGlobalAlpha v => set_globalAlpha v
  | GetGlobalAlpha => get_globalAlpha
  | SetGlobalCompositeOperation v => set_globalCompositeOperation v
  | GetGlobalCompositeOperation => get_globalCompositeOperation
  | SetImageSmoothingEnabled v => set_imageSmoothingEnabled v
  | GetImageSmoothingEnabled => get_imageSmoothingEnabled
  | SetImageSmoothingQuality v => set_imageSmoothingQuality v
  | GetImageSmoothingQuality => get_imageSmoothingQuality
  | CallIsPointInPath args => isPointInPath args
  | CallIsPointInStroke args => isPointInStroke args
  | SetLineCap v => set_lineCap v
  | GetLineCap => get_lineCap
  | SetLineDashOffset v => set_lineDashOffset v
  | GetLineDashOffset => get_lineDashOffset
  | SetLineJoin v => set_lineJoin v
  | GetLineJoin => get_lineJoin
  | CallLineTo args => lineTo args
  | SetLineWidth v => set_lineWidth v
  | GetLineWidth => get_lineWidth
  | CallMeasureText args => measureText args
  | SetMiterLimit v => set_miterLimit v
  | GetMiterLimit => get_miterLimit
  | CallMoveTo args => moveTo args
  | CallPutImageData args => putImageData args
  | CallQuadraticCurveTo args => quadraticCurveTo args
  | CallRect args => rect args
  | CallRemoveHitRegion args => removeHitRegion args
  | CallResetTransform => resetTransform
  | CallRestore => restore
  | CallRotate args => rotate args
  | CallSave => save
  | CallScale args => scale args
  | CallScrollPathIntoView args => scrollPathIntoView args
  | CallSetLineDash args => setLineDash args
  | CallSetTransform args => setTransform args
  | SetShadowBlur v => set_shadowBlur v
  | GetShadowBlur => get_shadowBlur
  | SetShadowColor v => set_shadowColor v
  | GetShadowColor => get_shadowColor
  | SetShadowOffsetX v => set_shadowOffsetX v
  | GetShadowOffsetX => get_shadowOffsetX
  | SetShadowOffsetY v => set_shadowOffsetY v
  | GetShadowOffsetY => get_shadowOffsetY
  | CallStroke args => stroke args
  | CallStrokeRect args => strokeRect args
  | SetStrokeStyle v => set_strokeStyle v
  | GetStrokeStyle => get_strokeStyle
  | CallStrokeText args => strokeText args
  | SetTextAlign v => set_textAlign v
  | GetTextAlign => get_textAlign
  | SetTextBaseline v => set_textBaseline v
  | GetTextBaseline => get_textBaseline
  | CallTransform args => transform args
  | CallTranslate args => translate args
  end.

(** The calls that paint: the eight methods that push onto [_drawCalls]. *)
Definition paints (c : call) : bool :=
  match c with
  | CallFillRect _ | CallStrokeRect _ | CallClearRect _ | CallFillText _
  | CallStrokeText _ | CallDrawImage _ | CallFill _ | CallStroke _ => true
  | _ => false
  end.

(** The context after a call, whether it returned or threw (a caller may
    catch the failure and go on using the context). *)
Definition after (c : call) (st : context) : context := snd (exec c st).

(** The states a context can be in: freshly constructed, or one public
    call later than a state it can be in. *)
Inductive reachable : context -> Prop :=
| reachable_new (canvas : value) : reachable (new_context canvas)
| reachable_call (c : call) (st : context) :
    reachable st -> reachable (after c st).

(** ** What a caller can do with an array reference

    [getLineDash] hands out one of the context's own arrays; this is what
    [arr.push(v)] on such a reference does to the store, and how the
    array is read back. *)
Definition caller_push (a : nat) (v : float) (st : context) : context :=
  match store st !! a with
  | Some arr => with_store (<[a := array_push arr v]> (store st)) st
  | None => st
  end.

(** The dash list the context currently holds, by value. *)
Definition current_lineDash (st : context) : option (list float) :=
  match array_get None (_lineDashStack st) (_stackIndex st) with
  | Some a => store st !! a
  | None => None
  end.

(** The current matrix, by value. *)
Definition current_matrix (st : context) : option (list float) :=
  snd <$> current_transform st.

(** * Properties *)

(** ** Reasoning about computations

    [wp m st Q]: running [m] from [st] ends in an outcome and a state that
    satisfy [Q], whether [m] returns or throws. *)
Definition wp {A} (m : M A) (st : context)
    (Q : outcome A -> context -> Prop) : Prop :=
  Q (fst (m st)) (snd (m st)).

Lemma wp_ret {A} (a : A) st Q : Q (Normal a) st -> wp (ret a) st Q.
Proof. exact id. Qed.

Lemma wp_throw {A} (e : exn) st (Q : outcome A -> context -> Prop) :
  Q (Throw e) st -> wp (throw e) st Q.
Proof. exact id. Qed.

Lemma wp_bind {A B} (m : M A) (k : A -> M B) st Q :
  wp m st (fun o st' =>
    match o with
    | Normal a => wp (k a) st' Q
    | Throw e => Q (Throw e) st'
    end) ->
  wp (bind m k) st Q.
Proof.
  unfold wp, bind. destruct (m st) as [[a|e] st']; simpl; auto.
Qed.

Lemma wp_catch {A} (m : M A) (h : exn -> M A) st Q :
  wp m st (fun o st' =>
    match o with
    | Normal a => Q (Normal a) st'
    | Throw e => wp (h e) st' Q
    end) ->
  wp (catch m h) st Q.
Proof.
  unfold wp, catch. destruct (m st) as [[a|e] st']; simpl; auto.
Qed.

Lemma wp_gets {A} (f : context -> A) st Q :
  Q (Normal (f st)) st -> wp (gets f) st Q.
Proof. exact id. Qed.

Lemma wp_modify (f : context -> context) st Q :
  Q (Normal tt) (f st) -> wp (modify f) st Q.
Proof. exact id. Qed.

Lemma wp_allocate (arr : list float) st Q :
  Q (Normal (length (store st))) (with_store (store st ++ [arr]) st) ->
  wp (allocate arr) st Q.
Proof. exact id. Qed.

(** ** Well-formed states

    The transform stack has one entry per frame, and every entry refers
    to an array of six numbers in the store. *)
Definition valid_ref (sto : list (list float)) (r : option nat) : Prop :=
  exists a arr, r = Some a /\ sto !! a = Some arr /\ length arr = 6.

Definition wf_fields (ts : list (option nat)) (idx : nat)
    (sto : list (list float)) : Prop :=
  length ts = S idx /\ Forall (valid_ref sto) ts.

Definition wf (st : context) : Prop :=
  wf_fields (_transformStack st) (_stackIndex st) (store st).

Lemma wf_current_transform st :
  wf st ->
  exists a arr, current_transform st = Some (a, arr) /\ length arr = 6.
Proof.
  intros [Hlen Hall]. unfold current_transform, array_get.
  destruct (_transformStack st !! _stackIndex st) as [r|] eqn:Hr.
  - rewrite Forall_lookup in Hall.
    destruct (Hall _ _ Hr) as (a & arr & -> & Harr & Hlen6).
    simpl. rewrite Harr. eauto.
  - apply lookup_ge_None in Hr. lia.
Qed.

Lemma current_transform_lookup st a arr :
  current_transform st = Some (a, arr) -> store st !! a = Some arr.
Proof.
  unfold current_transform.
  destruct (array_get None (_transformStack st) (_stackIndex st)) as [a'|];
    [|discriminate].
  destruct (store st !! a') as [arr'|] eqn:H; [|discriminate].
  intros [= <- <-]. exact H.
Qed.

Lemma valid_ref_insert sto a arr new r :
  sto !! a = Some arr -> length new = 6 ->
  valid_ref sto r -> valid_ref (<[a := new]> sto) r.
Proof.
  intros Ha Hnew (a' & arr' & -> & Harr' & Hlen).
  destruct (decide (a' = a)) as [->|Hne].
  - exists a, new. rewrite list_lookup_insert_eq by (eapply lookup_lt_Some; eauto).
    auto.
  - exists a', arr'. rewrite list_lookup_insert_ne by congruence. auto.
Qed.

Lemma valid_ref_app sto arr r :
  valid_ref sto r -> valid_ref (sto ++ [arr]) r.
Proof.
  intros (a & arr' & -> & Harr' & Hlen). exists a, arr'.
  rewrite lookup_app_l by (eapply lookup_lt_Some; eauto). auto.
Qed.

Lemma length_array_set_in_range {A} (hole : A) arr i v :
  i < length arr -> length (array_set hole arr i v) = length arr.
Proof.
  intros Hi. unfold array_set.
  destruct (i <? length arr)%nat eqn:E.
  - apply length_insert.
  - apply Nat.ltb_ge in E. lia.
Qed.

Lemma wf_fields_app ts idx sto arr :
  wf_fields ts idx sto -> wf_fields ts idx (sto ++ [arr]).
Proof.
  intros [Hlen Hall]. split; [exact Hlen|].
  eapply Forall_impl; [exact Hall|]. intros r. apply valid_ref_app.
Qed.

Lemma wf_fields_push ts idx sto :
  wf_fields ts idx sto ->
  wf_fields (array_push ts (array_get None ts idx)) (idx + 1) sto.
Proof.
  intros [Hlen Hall]. unfold array_push, array_get. split.
  - rewrite length_app. simpl. lia.
  - apply Forall_app. split; [exact Hall|].
    apply Forall_singleton.
    destruct (ts !! idx) as [r|] eqn:Hr.
    + rewrite Forall_lookup in Hall. exact (Hall _ _ Hr).
    + apply lookup_ge_None in Hr. lia.
Qed.

Lemma wf_fields_pop ts idx sto :
  wf_fields ts idx sto ->
  (idx <=? 0)%nat = false ->
  wf_fields (array_pop ts) (idx - 1) sto.
Proof.
  intros [Hlen Hall] Hidx. apply Nat.leb_gt in Hidx.
  unfold array_pop. rewrite removelast_firstn_len. split.
  - rewrite length_take. lia.
  - apply Forall_take. exact Hall.
Qed.

Lemma wp_getTransformSlice st Q :
  wf st -> (forall tr, Q (Normal tr) st) -> wp getTransformSlice st Q.
Proof.
  intros Hwf HQ. destruct (wf_current_transform st Hwf) as (a & arr & H & _).
  unfold wp, getTransformSlice. rewrite H. apply HQ.
Qed.

Lemma wp_transform_read i st Q :
  wf st -> (forall x, Q (Normal x) st) -> wp (transform_read i) st Q.
Proof.
  intros Hwf HQ. destruct (wf_current_transform st Hwf) as (a & arr & H & _).
  unfold wp, transform_read. rewrite H. apply HQ.
Qed.

Lemma wp_transform_write i v st Q :
  wf st -> i < 6 ->
  (forall s', wf (with_store s' st) -> Q (Normal tt) (with_store s' st)) ->
  wp (transform_write i v) st Q.
Proof.
  intros Hwf Hi HQ.
  destruct (wf_current_transform st Hwf) as (a & arr & H & Hlen6).
  unfold wp, transform_write. rewrite H. simpl. apply HQ.
  destruct Hwf as [Hlen Hall]. split; [exact Hlen|]. simpl.
  eapply Forall_impl; [exact Hall|]. intros r.
  apply valid_ref_insert with (arr := arr).
  - exact (current_transform_lookup _ _ _ H).
  - rewrite length_array_set_in_range; lia.
Qed.

(** ** One call at a time

    What one call may do to a well-formed context: a failure leaves the
    state as it was; a return leaves a well-formed state whose event log
    has grown by at most one record and whose draw-call log has grown by
    that same record when the call paints and not at all when it does
    not. *)
Definition step_ok (painting : bool) (st0 : context)
    (o : outcome retval) (st : context) : Prop :=
  match o with
  | Throw _ => st = st0
  | Normal _ =>
      wf st /\
      exists evs,
        length evs <= 1 /\
        _events st = _events st0 ++ evs /\
        _drawCalls st = _drawCalls st0 ++ (if painting then evs else [])
  end.

Ltac proj_norm :=
  cbn [_drawCalls _events _path stacks _lineDashStack _transformStack
       _stackIndex _canvas store with_drawCalls with_events with_path
       with_stacks with_lineDashStack with_transformStack with_stackIndex
       with_store] in *.

Ltac wf_solve :=
  unfold wf in *; proj_norm;
  first [ assumption
        | apply wf_fields_app; assumption
        | apply wf_fields_push; assumption
        | apply wf_fields_pop; assumption ].

Ltac head_of t :=
  lazymatch t with
  | ?f _ => head_of f
  | _ => t
  end.

Ltac wp_step :=
  lazymatch goal with
  | |- wp (ret _) _ _ => apply wp_ret
  | |- wp (throw _) _ _ => apply wp_throw
  | |- wp (bind _ _) _ _ => apply wp_bind
  | |- wp (catch _ _) _ _ => apply wp_catch
  | |- wp (gets _) _ _ => apply wp_gets
  | |- wp (modify _) _ _ => apply wp_modify
  | |- wp (allocate _) _ _ => apply wp_allocate
  | |- wp getTransformSlice _ _ =>
      apply wp_getTransformSlice; [wf_solve | intros ?]
  | |- wp (transform_read _) _ _ =>
      apply wp_transform_read; [wf_solve | intros ?]
  | |- wp (transform_write _ _) _ _ =>
      apply wp_transform_write; [wf_solve | lia | intros ? ?]
  | |- wp (if ?b then _ else _) _ _ => destruct b eqn:?
  | |- wp (match ?x with _ => _ end) _ _ => destruct x eqn:?
  | |- wp ?m _ _ =>
      first [ progress cbv beta zeta
            | let h := head_of m in unfold h ]
  end.

Ltac step_finish :=
  lazymatch goal with
  | |- step_ok _ _ (Throw _) _ => reflexivity
  | |- step_ok _ _ (Normal _) _ =>
      split;
      [ wf_solve
      | proj_norm; unfold array_push;
        first [ exists []; rewrite ?app_nil_r;
                split; [simpl; lia | split; reflexivity]
              | eexists; split; [|split];
                [ | reflexivity | rewrite ?app_nil_r; reflexivity ];
                simpl; lia ] ]
  end.

Ltac wp_run := repeat (cbv beta iota; wp_step); cbv beta iota; step_finish.

(** Every public call, from a well-formed state, is well behaved in the
    sense of [step_ok]. *)
Lemma exec_ok c st : wf st -> wp (exec c) st (step_ok (paints c) st).
Proof.
  intros Hwf. destruct c; cbn [exec paints]; wp_run.
Qed.

Lemma exec_cases c st :
  wf st -> step_ok (paints c) st (fst (exec c st)) (after c st).
Proof. intros Hwf. exact (exec_ok c st Hwf). Qed.

Lemma wf_new canvas : wf (new_context canvas).
Proof.
  split; [reflexivity|]. apply Forall_singleton.
  exists 0, identity_matrix. auto.
Qed.

Lemma wf_after c st : wf st -> wf (after c st).
Proof.
  intros Hwf. pose proof (exec_cases c st Hwf) as H.
  destruct (fst (exec c st)); simpl in H.
  - apply H.
  - rewrite H. exact Hwf.
Qed.

Lemma reachable_wf st : reachable st -> wf st.
Proof.
  induction 1 as [canvas|c st _ IH].
  - apply wf_new.
  - apply wf_after, IH.
Qed.

(** In a reachable state the current matrix is an array of six numbers. *)
Lemma reachable_matrix st :
  reachable st ->
  exists a b c d e f, current_matrix st = Some [a; b; c; d; e; f].
Proof.
  intros Hr. apply reachable_wf in Hr.
  destruct (wf_current_transform st Hr) as (ad & arr & H & Hlen).
  unfold current_matrix. rewrite H. simpl.
  do 7 (destruct arr as [|? arr]; try discriminate). eauto 10.
Qed.

(** ** The two logs *)

Lemma logs_after c st :
  wf st ->
  exists evs,
    length evs <= 1 /\
    _events (after c st) = _events st ++ evs /\
    _drawCalls (after c st) = _drawCalls st ++ (if paints c then evs else []).
Proof.
  intros Hwf. pose proof (exec_cases c st Hwf) as H.
  destruct (fst (exec c st)); simpl in H.
  - apply H.
  - rewrite H. exists []. rewrite !app_nil_r.
    destruct (paints c); rewrite ?app_nil_r; auto.
Qed.

Lemma drawCalls_sublist_events st :
  reachable st -> _drawCalls st `sublist_of` _events st.
Proof.
  induction 1 as [canvas|c st Hr IH].
  - simpl. constructor.
  - destruct (logs_after c st (reachable_wf st Hr)) as (evs & _ & -> & ->).
    apply sublist_app; [exact IH|].
    destruct (paints c); [reflexivity|apply sublist_nil_l].
Qed.

(** One call with suitable arguments for each of the eight methods that
    paint. *)
Definition painting_examples : list call :=
  [CallFillRect [VNum 0; VNum 0; VNum 1; VNum 1];
   CallStrokeRect [VNum 0; VNum 0; VNum 1; VNum 1];
   CallClearRect [VNum 0; VNum 0; VNum 1; VNum 1];
   CallFillText [VStr "a"; VNum 0; VNum 0];
   CallStrokeText [VStr "a"; VNum 0; VNum 0];
   CallDrawImage [VHTMLImageElement (VNum 1) (VNum 1); VNum 0; VNum 0];
   CallFill [];
   CallStroke []].

(** C3 (event/draw-call subset law).  In every state a context can reach,
    the draw-call log is a subsequence of the event log: each of its
    records is in the event log, the very same record, and in the same
    relative order.  A call that does not paint leaves the draw-call log
    as it was; a call that changes the draw-call log is one of the eight
    painting methods and has appended one and the same record to both
    logs; and each of the eight does so on suitable arguments. *)
Theorem event_drawcall_subset_law st :
  reachable st ->
  _drawCalls st `sublist_of` _events st /\
  (forall c, paints c = false -> _drawCalls (after c st) = _drawCalls st) /\
  (forall c, _drawCalls (after c st) <> _drawCalls st ->
     paints c = true /\
     exists e, _drawCalls (after c st) = _drawCalls st ++ [e] /\
               _events (after c st) = _events st ++ [e]) /\
  (forall canvas,
     Forall (fun c => paints c = true /\
                      length (_drawCalls (after c (new_context canvas))) = 1)
       painting_examples).
Proof.
  intros Hr. split; [exact (drawCalls_sublist_events st Hr)|].
  pose proof (reachable_wf st Hr) as Hwf.
  split; [|split].
  - intros c Hc. destruct (logs_after c st Hwf) as (evs & _ & _ & H).
    rewrite H, Hc. apply app_nil_r.
  - intros c Hc. destruct (logs_after c st Hwf) as (evs & Hlen & He & Hd).
    destruct (paints c).
    + split; [reflexivity|].
      destruct evs as [|e [|? ?]]; simpl in Hlen; try lia.
      * rewrite app_nil_r in Hd. contradiction.
      * eauto.
    + rewrite app_nil_r in Hd. contradiction.
  - intros canvas. repeat constructor.
Qed.

(** ** Failures *)

(** C7 (raised failures are atomic).  Whenever a public call on a state
    the context can reach throws, the context is exactly as it was before
    the call: every attribute stack, the stack index, the path, the
    transform, the event log and the draw-call log. *)
Theorem raised_failure_is_atomic c st e :
  reachable st ->
  fst (exec c st) = Throw e ->
  after c st = st.
Proof.
  intros Hr He. pose proof (exec_cases c st (reachable_wf st Hr)) as H.
  rewrite He in H. exact H.
Qed.

(** ** Save and restore *)

Lemma array_pop_push {A} (l : list A) (x : A) :
  array_pop (array_push l x) = l.
Proof. apply removelast_last. Qed.

Lemma array_get_set_same {A} (d hole : A) (l : list A) (i : nat) (v : A) :
  array_get d (array_set hole l i v) i = v.
Proof.
  unfold array_get, array_set. destruct (i <? length l)%nat eqn:E.
  - apply Nat.ltb_lt in E. rewrite list_lookup_insert_eq by exact E.
    reflexivity.
  - apply Nat.ltb_ge in E. rewrite lookup_app_r by exact E.
    rewrite lookup_app_r by (rewrite length_replicate; lia).
    rewrite length_replicate, Nat.sub_diag. reflexivity.
Qed.

(** The property getters, and the two methods that read the transform and
    the dash list. *)
Definition is_getter (c : call) : bool :=
  match c with
  | GetCurrentTransform | GetDirection | GetFillStyle | GetFilter | GetFont
  | CallGetLineDash | CallGetTransform | GetGlobalAlpha
  | GetGlobalCompositeOperation | GetImageSmoothingEnabled
  | GetImageSmoothingQuality | GetLineCap | GetLineDashOffset | GetLineJoin
  | GetLineWidth | GetMiterLimit | GetShadowBlur | GetShadowColor
  | GetShadowOffsetX | GetShadowOffsetY | GetStrokeStyle | GetTextAlign
  | GetTextBaseline => true
  | _ => false
  end.

(** Two states hold the same frames: the same stacks, the same stack
    index and the same arrays. *)
Definition same_frames (st st' : context) : Prop :=
  (forall s, stacks st' s = stacks st s) /\
  _lineDashStack st' = _lineDashStack st /\
  _transformStack st' = _transformStack st /\
  _stackIndex st' = _stackIndex st /\
  store st' = store st.

Lemma getters_agree st st' g :
  same_frames st st' -> is_getter g = true ->
  fst (exec g st') = fst (exec g st).
Proof.
  intros (Hs & Hl & Ht & Hi & Hsto) Hg.
  destruct g; try discriminate Hg; cbn [exec];
    unfold get_currentTransform, get_direction, get_fillStyle, get_filter,
      get_font, getLineDash, getTransform, get_globalAlpha,
      get_globalCompositeOperation, get_imageSmoothingEnabled,
      get_imageSmoothingQuality, get_lineCap, get_lineDashOffset,
      get_lineJoin, get_lineWidth, get_miterLimit, get_shadowBlur,
      get_shadowColor, get_shadowOffsetX, get_shadowOffsetY,
      get_strokeStyle, get_textAlign, get_textBaseline, stack_read,
      current_transform, bind, gets, ret;
    cbn beta iota; rewrite ?Hs, ?Hl, ?Ht, ?Hi, ?Hsto; try reflexivity.
  destruct (array_get None (_lineDashStack st) (_stackIndex st));
    reflexivity.
Qed.

Lemma save_effect st :
  wf st ->
  wp save st (fun o st1 =>
    o = Normal undefined /\ wf st1 /\
    _stackIndex st1 = _stackIndex st + 1 /\
    (forall s, exists v, stacks st1 s = array_push (stacks st s) v) /\
    (exists r, _lineDashStack st1 = array_push (_lineDashStack st) r) /\
    (exists r, _transformStack st1 = array_push (_transformStack st) r) /\
    store st1 = store st /\ _path st1 = _path st /\
    _drawCalls st1 = _drawCalls st /\
    exists tr, _events st1 = _events st ++ [createCanvasEvent "save" tr []]).
Proof.
  intros Hwf. repeat (cbv beta iota; wp_step). cbv beta iota.
  split; [reflexivity|]. split; [wf_solve|]. proj_norm.
  repeat split; eauto.
Qed.

Lemma restore_effect st :
  wf st ->
  wp restore st (fun o st2 =>
    o = Normal undefined /\
    (((_stackIndex st <=? 0)%nat = true /\ st2 = st) \/
     ((_stackIndex st <=? 0)%nat = false /\
      _stackIndex st2 = _stackIndex st - 1 /\
      (forall s, stacks st2 s = array_pop (stacks st s)) /\
      _lineDashStack st2 = array_pop (_lineDashStack st) /\
      _transformStack st2 = array_pop (_transformStack st) /\
      store st2 = store st /\ _path st2 = _path st /\
      _drawCalls st2 = _drawCalls st /\
      exists tr,
        _events st2 = _events st ++ [createCanvasEvent "restore" tr []]))).
Proof.
  intros Hwf. repeat (cbv beta iota; wp_step); cbv beta iota.
  - split; [reflexivity|]. left. auto.
  - split; [reflexivity|]. right. proj_norm. repeat split; eauto.
Qed.

(** C1 (stack symmetry).  From every state the context can reach, [save()]
    followed at once by [restore()] returns normally and leaves every
    stack, the stack index and the arrays they refer to exactly as they
    were before the [save], so every getter returns what it returned
    before; the path and the draw-call log are untouched and the event
    log has gained the two records [save] and [restore].  And [restore()]
    at depth zero returns normally with the state unchanged. *)
Theorem save_restore_symmetry st :
  reachable st ->
  let st1 := after CallSave st in
  let st2 := after CallRestore st1 in
  fst (exec CallSave st) = Normal undefined /\
  fst (exec CallRestore st1) = Normal undefined /\
  same_frames st st2 /\
  (forall g, is_getter g = true -> fst (exec g st2) = fst (exec g st)) /\
  _path st2 = _path st /\
  _drawCalls st2 = _drawCalls st /\
  (exists tr1 tr2,
     _events st2 = _events st ++ [createCanvasEvent "save" tr1 [];
                                  createCanvasEvent "restore" tr2 []]) /\
  (_stackIndex st = 0 ->
   exec CallRestore st = (Normal undefined, st)).
Proof.
  intros Hr st1 st2. pose proof (reachable_wf st Hr) as Hwf.
  pose proof (save_effect st Hwf) as Hs. unfold wp in Hs.
  change (snd (save st)) with st1 in Hs.
  destruct Hs as (Ho1 & Hwf1 & Hi1 & Hst1 & (rd & Hld1) & (rt & Hts1)
                  & Hsto1 & Hp1 & Hd1 & tr1 & He1).
  pose proof (restore_effect st1 Hwf1) as Hrs. unfold wp in Hrs.
  change (snd (restore st1)) with st2 in Hrs.
  destruct Hrs as (Ho2 & [[Hz _]|(_ & Hi2 & Hst2 & Hld2 & Hts2 & Hsto2
                                  & Hp2 & Hd2 & tr2 & He2)]).
  { rewrite Hi1 in Hz. apply Nat.leb_le in Hz. lia. }
  assert (Hsame : same_frames st st2).
  { repeat split.
    - intros s. rewrite Hst2. destruct (Hst1 s) as [v ->].
      apply array_pop_push.
    - rewrite Hld2, Hld1. apply array_pop_push.
    - rewrite Hts2, Hts1. apply array_pop_push.
    - rewrite Hi2, Hi1. lia.
    - congruence. }
  split; [exact Ho1|]. split; [exact Ho2|]. split; [exact Hsame|].
  split; [intros g Hg; apply getters_agree; assumption|].
  split; [congruence|]. split; [congruence|]. split.
  - exists tr1, tr2. rewrite He2, He1, <- app_assoc. reflexivity.
  - intros Hz. pose proof (restore_effect st Hwf) as Hrs0. unfold wp in Hrs0.
    destruct Hrs0 as (Ho & [[_ Heq]|(Hnz & _)]).
    + change (exec CallRestore st) with (restore st).
      destruct (restore st) as [o s']. simpl in *. congruence.
    + rewrite Hz in Hnz. discriminate.
Qed.

(** ** Attribute setters *)

Lemma Number_VNum x : Number (VNum x) = x.
Proof. reflexivity. Qed.

Lemma current_transform_with_stacks f st :
  current_transform (with_stacks f st) = current_transform st.
Proof. reflexivity. Qed.

(** The tail shared by the numeric setters: write the stack, then record
    an event carrying the current matrix. *)
Lemma write_then_record st s v type props a arr :
  current_transform st = Some (a, arr) ->
  (stack_write s v ;;
   let* tr := getTransformSlice in
   events_push (createCanvasEvent type tr props) ;;
   ret undefined) st
  = (Normal undefined,
     with_events (_events st ++ [createCanvasEvent type arr props])
       (with_stacks
          (update_stack s
             (array_set VUndefined (stacks st s) (_stackIndex st) v)
             (stacks st)) st)).
Proof.
  intros H. unfold bind, stack_write, modify, getTransformSlice. simpl.
  rewrite current_transform_with_stacks, H. reflexivity.
Qed.

Lemma update_stack_same s l f : update_stack s l f s = l.
Proof. unfold update_stack. rewrite decide_True; reflexivity. Qed.

Lemma update_stack_other s s' l f :
  s' <> s -> update_stack s l f s' = f s'.
Proof. intros H. unfold update_stack. rewrite decide_False; auto. Qed.

(** C6 (shadow-offset-Y aliasing).  After [shadowOffsetY = v] with [v] a
    finite number, the [shadowOffsetY] getter and the [shadowOffsetX]
    getter both return [v], and the stack [_shadowOffsetYStack] is as it
    was before the assignment. *)
Theorem shadowOffsetY_aliases_shadowOffsetX st v :
  is_finite v = true ->
  let st' := after (SetShadowOffsetY (VNum v)) st in
  fst (exec GetShadowOffsetY st') = Normal (Value (VNum v)) /\
  fst (exec GetShadowOffsetX st') = Normal (Value (VNum v)) /\
  stacks st' _shadowOffsetYStack = stacks st _shadowOffsetYStack.
Proof.
  intros Hv st'.
  assert (Hst : stacks st' =
                update_stack _shadowOffsetXStack
                  (array_set VUndefined (stacks st _shadowOffsetXStack)
                     (_stackIndex st) (VNum v)) (stacks st)
                /\ _stackIndex st' = _stackIndex st).
  { subst st'. unfold after. cbn [exec]. unfold set_shadowOffsetY.
    rewrite Number_VNum, Hv.
    unfold bind, stack_write, modify, getTransformSlice. simpl.
    rewrite current_transform_with_stacks.
    destruct (current_transform st) as [[a arr]|]; simpl; auto. }
  destruct Hst as [Hst Hidx].
  cbn [exec]. unfold get_shadowOffsetY, get_shadowOffsetX, stack_read, bind,
    gets, ret. simpl.
  rewrite Hst, Hidx, update_stack_same, array_get_set_same.
  rewrite update_stack_other by discriminate. auto.
Qed.

(** C10 (the event of [miterLimit]).  From a state the context can reach,
    [miterLimit = v] with [v] finite and positive makes the [miterLimit]
    getter return [v] and appends one event, whose type is ["lineWidth"]:
    the event log is then the very log that [lineWidth = v] would have
    produced from the same state. *)
Theorem miterLimit_recorded_as_lineWidth st v :
  reachable st ->
  is_finite v = true ->
  (0 <? v)%float = true ->
  let st' := after (SetMiterLimit (VNum v)) st in
  fst (exec GetMiterLimit st') = Normal (Value (VNum v)) /\
  (exists e, _events st' = _events st ++ [e] /\
             ev_type e = "lineWidth" /\
             ev_props e = [("value", VNum v)]) /\
  _events st' = _events (after (SetLineWidth (VNum v)) st).
Proof.
  intros Hr Hv Hpos st'.
  destruct (wf_current_transform st (reachable_wf st Hr))
    as (a & arr & Hct & _).
  assert (E : exec (SetMiterLimit (VNum v)) st =
              (Normal undefined,
               with_events
                 (_events st ++
                    [createCanvasEvent "lineWidth" arr [("value", VNum v)]])
                 (with_stacks
                    (update_stack _miterLimitStack
                       (array_set VUndefined (stacks st _miterLimitStack)
                          (_stackIndex st) (VNum v)) (stacks st)) st))).
  { cbn [exec]. unfold set_miterLimit. rewrite Number_VNum, Hv, Hpos.
    eapply write_then_record. exact Hct. }
  assert (E' : exec (SetLineWidth (VNum v)) st =
               (Normal undefined,
                with_events
                  (_events st ++
                     [createCanvasEvent "lineWidth" arr [("value", VNum v)]])
                  (with_stacks
                     (update_stack _lineWidthStack
                        (array_set VUndefined (stacks st _lineWidthStack)
                           (_stackIndex st) (VNum v)) (stacks st)) st))).
  { cbn [exec]. unfold set_lineWidth. rewrite Number_VNum, Hv, Hpos.
    eapply write_then_record. exact Hct. }
  subst st'. unfold after. rewrite E, E'. cbn [snd].
  split; [|split].
  - cbn [exec]. unfold get_miterLimit, stack_read, bind, gets, ret. simpl.
    rewrite update_stack_same, array_get_set_same. reflexivity.
  - eexists. split; [reflexivity|]. split; reflexivity.
  - reflexivity.
Qed.

(** ** The path *)

(** C9 (path round trip).  On a fresh context, [beginPath();
    rect(0,0,10,10); stroke()] leaves a path of exactly two segments, the
    [beginPath] sentinel and the [rect] segment, and a draw-call log with
    exactly one record, the [stroke] carrying a copy of that path; the
    event log holds the three records in call order. *)
Theorem path_round_trip canvas :
  let st :=
    after (CallStroke [])
      (after (CallRect [VNum 0; VNum 0; VNum 10; VNum 10])
         (after CallBeginPath (new_context canvas))) in
  let sentinel := createCanvasEvent "beginPath" identity_matrix [] in
  let segment :=
    createCanvasEvent "rect" identity_matrix
      [("x", VNum 0); ("y", VNum 0); ("width", VNum 10);
       ("height", VNum 10)] in
  let painted :=
    createCanvasEvent "stroke" identity_matrix
      [("path", VEvents [sentinel; segment])] in
  _path st = [sentinel; segment] /\
  _drawCalls st = [painted] /\
  _events st = [sentinel; segment; painted].
Proof. repeat split. Qed.

(** ** The transform *)

Lemma current_matrix_transform st m :
  current_matrix st = Some m <-> exists a, current_transform st = Some (a, m).
Proof.
  unfold current_matrix. destruct (current_transform st) as [[a arr]|]; simpl.
  - split; [intros [= ->]; eauto | intros [a' [= _ ->]]; reflexivity].
  - split; [discriminate | intros [? ?]; discriminate].
Qed.

Lemma wp_getTransformSlice_at st Q a arr :
  current_transform st = Some (a, arr) ->
  Q (Normal arr) st -> wp getTransformSlice st Q.
Proof. intros H HQ. unfold wp, getTransformSlice. rewrite H. exact HQ. Qed.

Lemma wp_transform_read_at i st Q a arr :
  current_transform st = Some (a, arr) ->
  Q (Normal (array_get nan arr i)) st -> wp (transform_read i) st Q.
Proof. intros H HQ. unfold wp, transform_read. rewrite H. exact HQ. Qed.

Lemma wp_transform_write_at i v st Q a arr :
  current_transform st = Some (a, arr) ->
  (forall s',
     current_transform (with_store s' st) = Some (a, array_set nan arr i v) ->
     Q (Normal tt) (with_store s' st)) ->
  wp (transform_write i v) st Q.
Proof.
  intros H HQ. unfold wp, transform_write. rewrite H. simpl. apply HQ.
  pose proof (current_transform_lookup _ _ _ H) as Hl.
  unfold current_transform in *. simpl.
  destruct (array_get None (_transformStack st) (_stackIndex st)) as [a'|];
    [|discriminate].
  destruct (store st !! a') as [arr'|]; [|discriminate].
  injection H as -> ->.
  rewrite list_lookup_insert_eq by (eapply lookup_lt_Some; eauto).
  reflexivity.
Qed.

Ltac current_exact :=
  match goal with
  | H : current_transform _ = Some _ |- _ => exact H
  end.

Ltac mat_step :=
  lazymatch goal with
  | |- wp (ret _) _ _ => apply wp_ret
  | |- wp (bind _ _) _ _ => apply wp_bind
  | |- wp (modify _) _ _ => apply wp_modify
  | |- wp getTransformSlice _ _ =>
      eapply wp_getTransformSlice_at; [current_exact|]
  | |- wp (transform_read _) _ _ =>
      eapply wp_transform_read_at; [current_exact|]
  | |- wp (transform_write _ _) _ _ =>
      eapply wp_transform_write_at; [current_exact | intros ? ?]
  | |- wp ?m _ _ =>
      first [ progress cbv beta zeta
            | let h := head_of m in unfold h ]
  end.

Ltac mat_run :=
  repeat (cbv beta iota; mat_step); cbv beta iota;
  split; [reflexivity | current_exact].

(** What the four composition methods do to a current matrix
    [(sa, sb, sc, sd, se, sf)] once their guard has passed. *)
Lemma transform_effect st ad args sa sb sc sd se sf :
  current_transform st = Some (ad, [sa; sb; sc; sd; se; sf]) ->
  (length args <? 6)%nat = false ->
  let a := Number (arg 0 args) in
  let b := Number (arg 1 args) in
  let c := Number (arg 2 args) in
  let d := Number (arg 3 args) in
  let e := Number (arg 4 args) in
  let f := Number (arg 5 args) in
  is_finite (a + b + c + d + e + f) = true ->
  wp (transform args) st (fun o st' =>
    o = Normal undefined /\
    current_transform st' =
      Some (ad, [sa * a + sc * b; sb * a + sd * b; sa * c + sc * d;
                 sb * c + sd * d; sa * e + sc * f + se;
                 sb * e + sd * f + sf]%float)).
Proof.
  intros Hct Hlen a b c d e f Hfin. unfold transform. cbv zeta.
  rewrite Hlen. fold a b c d e f. rewrite Hfin. cbn [negb]. mat_run.
Qed.

Lemma scale_effect st ad args sa sb sc sd se sf :
  current_transform st = Some (ad, [sa; sb; sc; sd; se; sf]) ->
  (length args <? 2)%nat = false ->
  let x := Number (arg 0 args) in
  let y := Number (arg 1 args) in
  is_finite x = true -> is_finite y = true ->
  wp (scale args) st (fun o st' =>
    o = Normal undefined /\
    current_transform st' =
      Some (ad, [sa * x; sb * x; sc * y; sd * y; se; sf]%float)).
Proof.
  intros Hct Hlen x y Hx Hy. unfold scale. cbv zeta.
  rewrite Hlen. fold x y. rewrite Hx, Hy. cbn [andb]. mat_run.
Qed.

Lemma translate_effect st ad args sa sb sc sd se sf :
  current_transform st = Some (ad, [sa; sb; sc; sd; se; sf]) ->
  (length args <? 2)%nat = false ->
  let x := Number (arg 0 args) in
  let y := Number (arg 1 args) in
  is_finite (x + y) = true ->
  wp (translate args) st (fun o st' =>
    o = Normal undefined /\
    current_transform st' =
      Some (ad, [sa; sb; sc; sd; se + (sa * x + sc * y);
                 sf + (sb * x + sd * y)]%float)).
Proof.
  intros Hct Hlen x y Hfin. unfold translate. cbv zeta.
  rewrite Hlen. fold x y.
  repeat (cbv beta iota; mat_step). cbv beta iota. rewrite Hfin.
  mat_run.
Qed.

Lemma rotate_effect st ad args sa sb sc sd se sf :
  current_transform st = Some (ad, [sa; sb; sc; sd; se; sf]) ->
  (length args <? 1)%nat = false ->
  let angle := Number (arg 0 args) in
  is_finite angle = true ->
  let cos := Math_cos host angle in
  let sin := Math_sin host angle in
  wp (rotate args) st (fun o st' =>
    o = Normal undefined /\
    current_transform st' =
      Some (ad, [sa * cos + sc * sin; sb * cos + sd * sin;
                 sc * cos - sa * sin; sd * cos - sb * sin; se; sf]%float)).
Proof.
  intros Hct Hlen angle Hfin cos sin. unfold rotate. cbv zeta.
  rewrite Hlen. fold angle. rewrite Hfin. cbn [negb]. mat_run.
Qed.

Lemma current_matrix_of_transform st ad m :
  current_transform st = Some (ad, m) -> current_matrix st = Some m.
Proof. intros H. apply current_matrix_transform. eauto. Qed.

(** C2 (transform composition): what the code does.  [transform] replaces
    the current matrix [(sa, sb, sc, sd, se, sf)] by the product
    current * given when the sum of its six coerced arguments is a finite
    number, which is the test the method makes.  It makes no test of the
    arguments one by one: when that sum is not finite the call returns
    with the context as it was, and [transform(2^1023, 2^1023, 0, 0, 0,
    0)], whose six arguments are all finite, is such a call in every
    state.  [scale(2, 3)] on the identity gives [(2, 0, 0, 3, 0, 0)].  The
    cosine and sine of 0 being 1 and 0 as the language requires,
    [translate(10, 0)] followed by [rotate(0)] on the identity gives the
    matrix of [translate(10, 0)] alone, [(1, 0, 0, 1, 10, 0)]; on any
    other matrix [rotate(0)] stores [sa * 1 + sc * 0], [sb * 1 + sd * 0],
    [sc * 1 - sa * 0] and [sd * 1 - sb * 0] over the four linear
    entries. *)
Theorem transform_composition st :
  (forall args sa sb sc sd se sf,
     current_matrix st = Some [sa; sb; sc; sd; se; sf] ->
     6 <= length args ->
     let a := Number (arg 0 args) in
     let b := Number (arg 1 args) in
     let c := Number (arg 2 args) in
     let d := Number (arg 3 args) in
     let e := Number (arg 4 args) in
     let f := Number (arg 5 args) in
     is_finite (a + b + c + d + e + f) = true ->
     fst (exec (CallTransform args) st) = Normal undefined /\
     current_matrix (after (CallTransform args) st) =
       Some [sa * a + sc * b; sb * a + sd * b; sa * c + sc * d;
             sb * c + sd * d; sa * e + sc * f + se;
             sb * e + sd * f + sf]%float) /\
  (forall args,
     6 <= length args ->
     is_finite (Number (arg 0 args) + Number (arg 1 args)
                + Number (arg 2 args) + Number (arg 3 args)
                + Number (arg 4 args) + Number (arg 5 args)) = false ->
     exec (CallTransform args) st = (Normal undefined, st)) /\
  (let args :=
     [VNum 0x1p1023; VNum 0x1p1023; VNum 0; VNum 0; VNum 0; VNum 0] in
   Forall (fun v => Number_isFinite v = true) args /\
   exec (CallTransform args) st = (Normal undefined, st)) /\
  (current_matrix st = Some identity_matrix ->
   current_matrix (after (CallScale [VNum 2; VNum 3]) st) =
     Some [2; 0; 0; 3; 0; 0]%float) /\
  (Math_cos host 0 = 1%float -> Math_sin host 0 = 0%float ->
   current_matrix st = Some identity_matrix ->
   let translated := after (CallTranslate [VNum 10; VNum 0]) st in
   current_matrix translated = Some [1; 0; 0; 1; 10; 0]%float /\
   current_matrix (after (CallRotate [VNum 0]) translated) =
     current_matrix translated) /\
  (forall sa sb sc sd se sf,
     Math_cos host 0 = 1%float -> Math_sin host 0 = 0%float ->
     current_matrix st = Some [sa; sb; sc; sd; se; sf] ->
     let translated := after (CallTranslate [VNum 10; VNum 0]) st in
     let te := (se + (sa * 10 + sc * 0))%float in
     let tf := (sf + (sb * 10 + sd * 0))%float in
     current_matrix translated = Some [sa; sb; sc; sd; te; tf] /\
     current_matrix (after (CallRotate [VNum 0]) translated) =
       Some [sa * 1 + sc * 0; sb * 1 + sd * 0; sc * 1 - sa * 0;
             sd * 1 - sb * 0; te; tf]%float).
Proof.
  assert (forall sa sb sc sd se sf,
            Math_cos host 0 = 1%float -> Math_sin host 0 = 0%float ->
            current_matrix st = Some [sa; sb; sc; sd; se; sf] ->
            let translated := after (CallTranslate [VNum 10; VNum 0]) st in
            let te := (se + (sa * 10 + sc * 0))%float in
            let tf := (sf + (sb * 10 + sd * 0))%float in
            current_matrix translated = Some [sa; sb; sc; sd; te; tf] /\
            current_matrix (after (CallRotate [VNum 0]) translated) =
              Some [sa * 1 + sc * 0; sb * 1 + sd * 0; sc * 1 - sa * 0;
                    sd * 1 - sb * 0; te; tf]%float) as Hgeneral.
  { intros sa sb sc sd se sf Hcos Hsin Hm translated te tf.
    apply current_matrix_transform in Hm. destruct Hm as [ad Hct].
    pose proof (translate_effect st ad [VNum 10; VNum 0] _ _ _ _ _ _
                  Hct eq_refl eq_refl) as H.
    unfold wp in H. destruct H as [_ Hct1].
    assert (H1 : current_transform translated =
                 Some (ad, [sa; sb; sc; sd; te; tf])) by exact Hct1.
    pose proof (rotate_effect translated ad [VNum 0] _ _ _ _ _ _
                  H1 eq_refl eq_refl) as H2.
    unfold wp in H2. cbv beta zeta in H2.
    change (Number (arg 0 [VNum 0])) with 0%float in H2.
    rewrite Hcos, Hsin in H2. destruct H2 as [_ H2].
    split; [exact (current_matrix_of_transform _ _ _ H1)|].
    exact (current_matrix_of_transform _ _ _ H2). }
  split; [|split; [|split; [|split; [|split]]]].
  - intros args sa sb sc sd se sf Hm Hlen a b c d e f Hfin.
    apply current_matrix_transform in Hm. destruct Hm as [ad Hct].
    apply Nat.ltb_ge in Hlen.
    pose proof (transform_effect st ad args _ _ _ _ _ _ Hct Hlen Hfin) as H.
    unfold wp in H. destruct H as [Ho Hct'].
    split; [exact Ho|]. exact (current_matrix_of_transform _ _ _ Hct').
  - intros args Hlen Hfin. apply Nat.ltb_ge in Hlen.
    cbn [exec]. unfold transform. cbv zeta. rewrite Hlen, Hfin. reflexivity.
  - split; [repeat constructor|reflexivity].
  - intros Hm. apply current_matrix_transform in Hm. destruct Hm as [ad Hct].
    pose proof (scale_effect st ad [VNum 2; VNum 3] _ _ _ _ _ _
                  Hct eq_refl eq_refl eq_refl) as H.
    unfold wp in H. destruct H as [_ Hct'].
    exact (current_matrix_of_transform _ _ _ Hct').
  - intros Hcos Hsin Hm translated.
    destruct (Hgeneral _ _ _ _ _ _ Hcos Hsin Hm) as [Ht Hrot].
    fold translated in Ht, Hrot. rewrite Hrot, Ht. split; reflexivity.
  - exact Hgeneral.
Qed.

(** ** Arity *)

Lemma wp_exec_eq {A} (m : M A) st o st' :
  wp m st (fun o' s' => o' = o /\ s' = st') -> m st = (o, st').
Proof. unfold wp. destruct (m st) as [o0 s0]. simpl. intros [-> ->]. reflexivity. Qed.

(** C8 (arity enforcement for [arc]): what the code does.  With fewer than
    five arguments [arc] throws a [TypeError] whose message names the
    method, the five arguments required and the number passed, and the
    context is untouched.  With five or more it never throws for arity:
    when the sum of the five coerced arguments is a finite number and the
    radius is not negative it returns and appends one record, of type
    ["arc"], to the path and to the event log; when that sum is finite
    and the radius is negative it throws the range failure.  The finite
    test is made on the sum and not on the arguments: when the sum is not
    finite the call returns having appended nothing, and [arc(2^1023,
    2^1023, 1, 0, 1)], with five finite arguments and a radius that is
    not negative, is such a call in every state. *)
Theorem arc_arity st args :
  (length args < 5 ->
   exec (CallArc args) st =
     (Throw (TypeError
        ("Failed to execute 'arc' on 'CanvasRenderingContext2D': 5 arguments required, but only "
         +:+ nat_to_string (length args) +:+ " present.")), st)) /\
  (5 <= length args ->
   let sum := (Number (arg 0 args) + Number (arg 1 args)
               + Number (arg 2 args) + Number (arg 3 args)
               + Number (arg 4 args))%float in
   (is_finite sum = true -> (Number (arg 2 args) <? 0)%float = false ->
    reachable st ->
    exists e,
      ev_type e = "arc" /\
      exec (CallArc args) st =
        (Normal undefined,
         with_events (_events st ++ [e]) (with_path (_path st ++ [e]) st))) /\
   (is_finite sum = true -> (Number (arg 2 args) <? 0)%float = true ->
    exec (CallArc args) st =
      (Throw (DOMException "IndexSizeError"
         ("Failed to execute 'arc' on 'CanvasRenderingContext2D': The radius provided ("
          +:+ ToString (arg 2 args) +:+ ") is negative.")), st)) /\
   (is_finite sum = false ->
    exec (CallArc args) st = (Normal undefined, st))) /\
  (let overflowing :=
     [VNum 0x1p1023; VNum 0x1p1023; VNum 1; VNum 0; VNum 1] in
   5 <= length overflowing /\
   Forall (fun v => Number_isFinite v = true) overflowing /\
   (Number (arg 2 overflowing) <? 0)%float = false /\
   exec (CallArc overflowing) st = (Normal undefined, st)).
Proof.
  split; [|split].
  3:{ split; [simpl; lia|]. split; [repeat constructor|].
      split; reflexivity. }
  - intros Hlen. apply Nat.ltb_lt in Hlen. cbn [exec]. unfold arc.
    cbv zeta. rewrite Hlen. reflexivity.
  - intros Hlen sum. apply Nat.ltb_ge in Hlen. split; [|split].
    + intros Hfin Hrad Hr.
      destruct (wf_current_transform st (reachable_wf st Hr))
        as (ad & arr & Hct & _).
      eexists. split; [|cbn [exec]; unfold arc; cbv zeta].
      2:{ rewrite Hlen. fold sum. rewrite Hfin, Hrad. cbn [negb].
          apply wp_exec_eq. repeat (cbv beta iota; mat_step).
          cbv beta iota. split; reflexivity. }
      reflexivity.
    + intros Hfin Hrad. cbn [exec]. unfold arc. cbv zeta.
      rewrite Hlen. fold sum. rewrite Hfin, Hrad. reflexivity.
    + intros Hfin. cbn [exec]. unfold arc. cbv zeta.
      rewrite Hlen. fold sum. rewrite Hfin. reflexivity.
Qed.

(** ** Numeric coercion *)

(** C4 (uniform numeric coercion): what the code does on numeric strings.
    [rect], [fillRect], [clearRect] and [moveTo] apply [Number.isFinite]
    to the sum of their uncoerced arguments.  When the arguments are
    strings that sum is a concatenation, not a number, so the call returns
    without recording anything, whatever numbers the strings spell. *)
Theorem numeric_strings_are_dropped st s1 s2 s3 s4 :
  let args := [VStr s1; VStr s2; VStr s3; VStr s4] in
  exec (CallRect args) st = (Normal undefined, st) /\
  exec (CallFillRect args) st = (Normal undefined, st) /\
  exec (CallClearRect args) st = (Normal undefined, st) /\
  exec (CallMoveTo [VStr s1; VStr s2]) st = (Normal undefined, st).
Proof. repeat split. Qed.

(** The sibling [strokeRect] tests the coerced values instead, and records
    the call on the same arguments as soon as they spell finite numbers. *)
Lemma strokeRect_accepts_numeric_strings st s1 s2 s3 s4 :
  reachable st ->
  is_finite (StringToNumber host s1 + StringToNumber host s2
             + StringToNumber host s3 + StringToNumber host s4) = true ->
  exists e,
    ev_type e = "strokeRect" /\
    after (CallStrokeRect [VStr s1; VStr s2; VStr s3; VStr s4]) st =
      with_drawCalls (_drawCalls st ++ [e]) (with_events (_events st ++ [e]) st).
Proof.
  intros Hr Hfin.
  destruct (wf_current_transform st (reachable_wf st Hr))
    as (ad & arr & Hct & _).
  eexists. split; [|unfold after; cbn [exec]; unfold strokeRect; cbv zeta].
  2:{ change (Number (arg 0 [VStr s1; VStr s2; VStr s3; VStr s4]))
        with (StringToNumber host s1).
      change (Number (arg 1 [VStr s1; VStr s2; VStr s3; VStr s4]))
        with (StringToNumber host s2).
      change (Number (arg 2 [VStr s1; VStr s2; VStr s3; VStr s4]))
        with (StringToNumber host s3).
      change (Number (arg 3 [VStr s1; VStr s2; VStr s3; VStr s4]))
        with (StringToNumber host s4).
      rewrite Hfin. cbn [negb length Nat.ltb Nat.leb].
      match goal with |- snd (?m st) = ?s =>
        enough (m st = (Normal undefined, s)) as -> by reflexivity
      end.
      apply wp_exec_eq. repeat (cbv beta iota; mat_step).
      cbv beta iota. split; reflexivity. }
  reflexivity.
Qed.

(** ** The dash list *)

Lemma setLineDash_effect st elems l :
  wf st ->
  dash_values elems = Some l ->
  wp (setLineDash [VArray elems]) st (fun o st' =>
    o = Normal undefined /\
    current_lineDash st' =
      Some (if (length l mod 2 =? 1)%nat then l ++ l else l)).
Proof.
  intros Hwf Hl. unfold setLineDash.
  change (arg 0 [VArray elems]) with (VArray elems). cbv beta iota zeta.
  rewrite Hl. repeat (cbv beta iota; wp_step). cbv beta iota.
  split; [reflexivity|]. unfold current_lineDash. proj_norm.
  rewrite array_get_set_same.
  rewrite lookup_app_r by reflexivity. rewrite Nat.sub_diag. reflexivity.
Qed.

(** C5 (dash normalisation and copy-out): what the code does.  From any
    state the context can reach, [setLineDash] of a list whose elements
    all coerce to finite numbers that are at least zero stores the coerced
    list, doubled when its length is odd; so [setLineDash([1, 2, 3])] on a
    fresh context stores [[1, 2, 3, 1, 2, 3]].  But [getLineDash()] then
    returns a reference to the stored array itself, and a [push(9)] by the
    caller on what it was handed changes the dash list of the context. *)
Theorem getLineDash_returns_the_live_array :
  (forall st elems l,
     reachable st -> dash_values elems = Some l ->
     current_lineDash (after (CallSetLineDash [VArray elems]) st) =
       Some (if (length l mod 2 =? 1)%nat then l ++ l else l)) /\
  (forall canvas,
     let st :=
       after (CallSetLineDash [VArray [VNum 1; VNum 2; VNum 3]])
         (new_context canvas) in
     current_lineDash st = Some [1; 2; 3; 1; 2; 3]%float /\
     fst (exec CallGetLineDash st) = Normal (ArrayRef 2) /\
     current_lineDash (caller_push 2 9 st)
       = Some [1; 2; 3; 1; 2; 3; 9]%float).
Proof.
  split.
  - intros st elems l Hr Hl.
    pose proof (setLineDash_effect st elems l (reachable_wf st Hr) Hl) as H.
    unfold wp in H. apply H.
  - intros canvas. repeat split.
Qed.

(** * Further properties of the class *)

(** ** Finite sums

    The finite test most methods make is on the sum of their coerced
    arguments.  In binary64 arithmetic a sum is finite only if both
    summands are: NaN and the infinities absorb. *)
Definition sf_finite (s : spec_float) : bool :=
  match s with
  | S754_zero _ | S754_finite _ _ _ => true
  | _ => false
  end.

Lemma is_finite_spec x : is_finite x = sf_finite (Prim2SF x).
Proof.
  unfold is_finite, is_nan, is_infinity.
  rewrite !FloatAxioms.eqb_spec, FloatAxioms.abs_spec.
  change (Prim2SF infinity) with (S754_infinity false).
  destruct (Prim2SF x) as [s|s| |s m e]; try destruct s; try reflexivity;
    unfold SFeqb, SFabs, SFcompare;
    rewrite ?Z.compare_refl, ?Pos.compare_cont_refl; reflexivity.
Qed.

Lemma sf_finite_add a b :
  sf_finite (SF64add a b) = true -> sf_finite a = true /\ sf_finite b = true.
Proof.
  destruct a as [sa|sa| |sa ma ea], b as [sb|sb| |sb mb eb];
    try destruct sa; try destruct sb; simpl; auto; discriminate.
Qed.

Lemma finite_sum x y :
  is_finite (x + y) = true -> is_finite x = true /\ is_finite y = true.
Proof.
  rewrite !is_finite_spec, FloatAxioms.add_spec. apply sf_finite_add.
Qed.

Lemma sum_not_finite_l x y : is_finite x = false -> is_finite (x + y) = false.
Proof.
  intros Hx. destruct (is_finite (x + y)) eqn:E; [|reflexivity].
  apply finite_sum in E. destruct E. congruence.
Qed.

Lemma sum_not_finite_r x y : is_finite y = false -> is_finite (x + y) = false.
Proof.
  intros Hy. destruct (is_finite (x + y)) eqn:E; [|reflexivity].
  apply finite_sum in E. destruct E. congruence.
Qed.

(** One of the first [k] arguments coerces to NaN or to an infinity. *)
Definition some_not_finite (k : nat) (args : list value) : Prop :=
  exists i, i < k /\ is_finite (Number (arg i args)) = false.

Ltac all_summands_finite E :=
  repeat (let E' := fresh "E" in
          apply finite_sum in E; destruct E as [E E']).

Ltac pick_summand Hbad :=
  let i := fresh "i" in
  destruct Hbad as (i & ? & ?);
  repeat (destruct i as [|i]; [congruence|]); lia.

Ltac sum_is_not_finite Hbad :=
  match goal with
  | |- is_finite ?s = false =>
      let E := fresh "E" in
      destruct (is_finite s) eqn:E; [exfalso|reflexivity];
      all_summands_finite E; pick_summand Hbad
  end.

(** X1.  The path methods that test the sum of their coerced arguments
    ignore a call in which any coordinate coerces to NaN or to an
    infinity: they return normally and the context (path, event log and
    everything else) is exactly as before.  In particular
    [lineTo(NaN, 0)] does nothing. *)
Theorem path_methods_ignore_non_finite st args :
  (2 <= length args -> some_not_finite 2 args ->
   exec (CallLineTo args) st = (Normal undefined, st)) /\
  (4 <= length args -> some_not_finite 4 args ->
   exec (CallQuadraticCurveTo args) st = (Normal undefined, st)) /\
  (6 <= length args -> some_not_finite 6 args ->
   exec (CallBezierCurveTo args) st = (Normal undefined, st)) /\
  (5 <= length args -> some_not_finite 5 args ->
   exec (CallArc args) st = (Normal undefined, st)) /\
  (5 <= length args -> some_not_finite 5 args ->
   exec (CallArcTo args) st = (Normal undefined, st)) /\
  (7 <= length args -> some_not_finite 7 args ->
   exec (CallEllipse args) st = (Normal undefined, st)).
Proof.
  repeat split; intros Hlen Hbad; apply Nat.ltb_ge in Hlen; cbn [exec].
  - unfold lineTo. cbv zeta. rewrite Hlen.
    replace (is_finite _) with false; [reflexivity|].
    symmetry. sum_is_not_finite Hbad.
  - unfold quadraticCurveTo. cbv zeta. rewrite Hlen.
    replace (is_finite _) with false; [reflexivity|].
    symmetry. sum_is_not_finite Hbad.
  - unfold bezierCurveTo. cbv zeta. rewrite Hlen.
    replace (is_finite _) with false; [reflexivity|].
    symmetry. sum_is_not_finite Hbad.
  - unfold arc. cbv zeta. rewrite Hlen.
    replace (is_finite _) with false; [reflexivity|].
    symmetry. sum_is_not_finite Hbad.
  - unfold arcTo. cbv zeta. rewrite Hlen.
    replace (is_finite _) with false; [reflexivity|].
    symmetry. sum_is_not_finite Hbad.
  - unfold ellipse. cbv zeta. rewrite Hlen.
    replace (is_finite _) with false; [reflexivity|].
    symmetry. sum_is_not_finite Hbad.
Qed.

(** X2.  The transform methods ignore a call in which any argument
    coerces to NaN or to an infinity: [rotate], [scale], [translate],
    [transform] and the six-argument [setTransform] return normally and
    leave the context, the matrix included, exactly as before. *)
Theorem transform_methods_ignore_non_finite st args :
  (1 <= length args -> some_not_finite 1 args ->
   exec (CallRotate args) st = (Normal undefined, st)) /\
  (2 <= length args -> some_not_finite 2 args ->
   exec (CallScale args) st = (Normal undefined, st)) /\
  (2 <= length args -> some_not_finite 2 args -> reachable st ->
   exec (CallTranslate args) st = (Normal undefined, st)) /\
  (6 <= length args -> some_not_finite 6 args ->
   exec (CallTransform args) st = (Normal undefined, st)) /\
  (6 <= length args -> some_not_finite 6 args ->
   exec (CallSetTransform args) st = (Normal undefined, st)).
Proof.
  repeat split.
  - intros Hlen Hbad. apply Nat.ltb_ge in Hlen. cbn [exec].
    unfold rotate. cbv zeta. rewrite Hlen.
    replace (is_finite _) with false; [reflexivity|].
    symmetry. destruct Hbad as (i & Hi & Hnf).
    destruct i as [|i]; [exact Hnf|lia].
  - intros Hlen Hbad. apply Nat.ltb_ge in Hlen. cbn [exec].
    unfold scale. cbv zeta. rewrite Hlen.
    destruct Hbad as (i & Hi & Hnf).
    destruct i as [|[|i]]; [| |lia]; rewrite Hnf;
      rewrite ?andb_false_r; reflexivity.
  - intros Hlen Hbad Hr. apply Nat.ltb_ge in Hlen. cbn [exec].
    destruct (wf_current_transform st (reachable_wf st Hr))
      as (ad & arr & Hct & _).
    unfold translate. cbv zeta. rewrite Hlen.
    apply wp_exec_eq. repeat (cbv beta iota; mat_step). cbv beta iota.
    replace (is_finite _) with false; [split; reflexivity|].
    symmetry. sum_is_not_finite Hbad.
  - intros Hlen Hbad. apply Nat.ltb_ge in Hlen. cbn [exec].
    unfold transform. cbv zeta. rewrite Hlen.
    replace (is_finite _) with false; [reflexivity|].
    symmetry. sum_is_not_finite Hbad.
  - intros Hlen Hbad. cbn [exec]. unfold setTransform. cbv zeta.
    destruct (length args =? 0)%nat eqn:E0;
      [apply Nat.eqb_eq in E0; lia|].
    destruct (length args =? 1)%nat eqn:E1;
      [apply Nat.eqb_eq in E1; lia|].
    apply Nat.ltb_ge in Hlen. rewrite Hlen. cbv beta.
    replace (is_finite _) with false; [reflexivity|].
    symmetry. sum_is_not_finite Hbad.
Qed.

(** X3.  The two gradient factories do not ignore such a call, they
    raise: with enough arguments of which one coerces to NaN or to an
    infinity, [createLinearGradient] and [createRadialGradient] throw the
    [TypeError] "The provided double value is non-finite." and leave the
    context as it was. *)
Theorem gradients_reject_non_finite st args :
  (4 <= length args -> some_not_finite 4 args ->
   exec (CallCreateLinearGradient args) st =
     (Throw (TypeError
        "Failed to execute 'createLinearGradient' on 'CanvasRenderingContext2D': The provided double value is non-finite."),
      st)) /\
  (6 <= length args -> some_not_finite 6 args ->
   exec (CallCreateRadialGradient args) st =
     (Throw (TypeError
        "Failed to execute 'createRadialGradient' on 'CanvasRenderingContext2D': The provided double value is non-finite."),
      st)).
Proof.
  split; intros Hlen Hbad; apply Nat.ltb_ge in Hlen; cbn [exec].
  - unfold createLinearGradient. cbv zeta. rewrite Hlen.
    replace (is_finite _) with false; [reflexivity|].
    symmetry. sum_is_not_finite Hbad.
  - unfold createRadialGradient. cbv zeta. rewrite Hlen.
    replace (is_finite _) with false; [reflexivity|].
    symmetry. sum_is_not_finite Hbad.
Qed.

(** ** What a call can touch

    A second pass over every method, this time recording which parts of
    the instance a call may change.  [save] and [restore] are described
    apart. *)
Definition is_save_restore (c : call) : bool :=
  match c with CallSave | CallRestore => true | _ => false end.

(** The calls that write the current transform array. *)
Definition writes_transform (c : call) : bool :=
  match c with
  | CallRotate _ | CallScale _ | CallTranslate _ | CallTransform _
  | CallSetTransform _ | CallResetTransform | SetCurrentTransform _ => true
  | _ => false
  end.

(** The scalar stack a property setter writes.  The [shadowOffsetY]
    setter writes the stack of [shadowOffsetX]. *)
Definition writes_stack (c : call) : option stack :=
  match c with
  | SetDirection _ => Some _directionStack
  | SetFillStyle _ => Some _fillStyleStack
  | SetFilter _ => Some _filterStack
  | SetFont _ => Some _fontStack
  | SetGlobalAlpha _ => Some _globalAlphaStack
  | SetGlobalCompositeOperation _ => Some _globalCompositeOperationStack
  | SetImageSmoothingEnabled _ => Some _imageSmoothingEnabledStack
  | SetImageSmoothingQuality _ => Some _imageSmoothingQualityStack
  | SetLineCap _ => Some _lineCapStack
  | SetLineDashOffset _ => Some _lineDashOffsetStack
  | SetLineJoin _ => Some _lineJoinStack
  | SetLineWidth _ => Some _lineWidthStack
  | SetMiterLimit _ => Some _miterLimitStack
  | SetShadowBlur _ => Some _shadowBlurStack
  | SetShadowColor _ => Some _shadowColorStack
  | SetShadowOffsetX _ => Some _shadowOffsetXStack
  | SetShadowOffsetY _ => Some _shadowOffsetXStack
  | SetStrokeStyle _ => Some _strokeStyleStack
  | SetTextAlign _ => Some _textAlignStack
  | SetTextBaseline _ => Some _textBaselineStack
  | _ => None
  end.

Record frame_ok (c : call) (st0 st : context) : Prop := {
  fr_index : _stackIndex st = _stackIndex st0;
  fr_tstack : _transformStack st = _transformStack st0;
  fr_canvas : _canvas st = _canvas st0;
  fr_stacks : forall s, writes_stack c <> Some s -> stacks st s = stacks st0 s;
  fr_stack_shape :
    forall s,
      stacks st s = stacks st0 s \/
      exists v,
        stacks st s = array_set VUndefined (stacks st0 s) (_stackIndex st0) v;
  fr_store_len : length (store st0) <= length (store st);
  fr_store :
    forall a, a <> 0 -> a < length (store st0) ->
              store st !! a = store st0 !! a;
  fr_matrix : writes_transform c = false -> store st !! 0 = store st0 !! 0;
  fr_dash :
    _lineDashStack st = _lineDashStack st0 \/
    exists args l,
      c = CallSetLineDash args /\
      _lineDashStack st =
        array_set None (_lineDashStack st0) (_stackIndex st0)
          (Some (length (store st0))) /\
      store st !! length (store st0) = Some l /\
      Nat.even (length l) = true;
}.

Lemma wp_transform_write_shared i v st Q :
  wf st ->
  array_get None (_transformStack st) (_stackIndex st) = Some 0 ->
  i < 6 ->
  (forall s',
     wf (with_store s' st) ->
     length s' = length (store st) ->
     (forall a, a <> 0 -> s' !! a = store st !! a) ->
     Q (Normal tt) (with_store s' st)) ->
  wp (transform_write i v) st Q.
Proof.
  intros Hwf H0 Hi HQ.
  destruct (wf_current_transform st Hwf) as (a & arr & H & Hlen6).
  assert (a = 0) as ->.
  { unfold current_transform in H. rewrite H0 in H.
    destruct (store st !! 0); congruence. }
  unfold wp, transform_write. rewrite H. simpl. apply HQ.
  - destruct Hwf as [Hlen Hall]. split; [exact Hlen|]. simpl.
    eapply Forall_impl; [exact Hall|]. intros r.
    apply valid_ref_insert with (arr := arr).
    + exact (current_transform_lookup _ _ _ H).
    + rewrite length_array_set_in_range; lia.
  - apply length_insert.
  - intros a Ha. apply list_lookup_insert_ne. congruence.
Qed.

Lemma even_length_normalised (l : list float) :
  Nat.even (length (if (length l mod 2 =? 1)%nat then l ++ l else l)) = true.
Proof.
  destruct (length l mod 2 =? 1)%nat eqn:E.
  - rewrite length_app. replace (length l + length l) with (2 * length l) by lia.
    apply Nat.even_spec. exists (length l). reflexivity.
  - apply Nat.eqb_neq in E. apply Nat.even_spec.
    exists (length l / 2).
    pose proof (Nat.div_mod_eq (length l) 2).
    pose proof (Nat.mod_upper_bound (length l) 2). lia.
Qed.

Ltac frame_step :=
  lazymatch goal with
  | |- wp (ret _) _ _ => apply wp_ret
  | |- wp (throw _) _ _ => apply wp_throw
  | |- wp (bind _ _) _ _ => apply wp_bind
  | |- wp (catch _ _) _ _ => apply wp_catch
  | |- wp (gets _) _ _ => apply wp_gets
  | |- wp (modify _) _ _ => apply wp_modify
  | |- wp (allocate _) _ _ => apply wp_allocate
  | |- wp getTransformSlice _ _ =>
      apply wp_getTransformSlice; [wf_solve | intros ?]
  | |- wp (transform_read _) _ _ =>
      apply wp_transform_read; [wf_solve | intros ?]
  | |- wp (transform_write _ _) _ _ =>
      apply wp_transform_write_shared;
      [wf_solve | proj_norm; assumption | lia | intros ? ? ? ?]
  | |- wp (if ?b then _ else _) _ _ => destruct b eqn:?
  | |- wp (match ?x with _ => _ end) _ _ => destruct x eqn:?
  | |- wp ?m _ _ =>
      first [ progress cbv beta zeta
            | let h := head_of m in unfold h ]
  end.

Ltac store_chain a Hne :=
  repeat match goal with
         | H : forall a', a' <> 0 -> ?s !! a' = _ |- _ =>
             rewrite (H a Hne); clear H
         end.

Ltac frame_finish :=
  proj_norm; constructor; proj_norm;
  [ reflexivity
  | reflexivity
  | reflexivity
  | let s := fresh "s" in let Hs := fresh "Hs" in
    intros s Hs; unfold update_stack;
    try (destruct (decide _) as [->|]; [exfalso; apply Hs|]); reflexivity
  | let s := fresh "s" in
    intros s; unfold update_stack;
    try (destruct (decide _) as [->|]); eauto
  | rewrite ?length_app; simpl; lia
  | let a := fresh "a" in let Hne := fresh "Hne" in
    intros a Hne ?; rewrite ?lookup_app_l by lia;
    store_chain a Hne; reflexivity
  | first [ discriminate | reflexivity
          | intros _; rewrite ?lookup_app_l by (simpl; lia); reflexivity ]
  | first [ left; reflexivity
          | right; do 2 eexists; split; [reflexivity|];
            split; [reflexivity|]; split;
            [ rewrite lookup_app_r by reflexivity;
              rewrite Nat.sub_diag; reflexivity
            | apply even_length_normalised ] ] ].

Ltac frame_run :=
  repeat (cbv beta iota; frame_step); cbv beta iota; frame_finish.

Lemma wf_store_nonempty st : wf st -> 0 < length (store st).
Proof.
  intros Hwf. destruct (wf_current_transform st Hwf) as (a & arr & H & _).
  apply current_transform_lookup in H. apply lookup_lt_Some in H. lia.
Qed.

Lemma exec_frame c st :
  wf st ->
  array_get None (_transformStack st) (_stackIndex st) = Some 0 ->
  is_save_restore c = false ->
  wp (exec c) st (fun _ st' => frame_ok c st st').
Proof.
  intros Hwf H0 Hc. pose proof (wf_store_nonempty st Hwf) as Hpos.
  destruct c; try discriminate Hc; clear Hc;
    cbn [exec writes_stack writes_transform]; frame_run.
Qed.

(** ** The invariant of the parallel stacks *)

Lemma save_effect_full st :
  wf st ->
  wp save st (fun o st1 =>
    o = Normal undefined /\
    _stackIndex st1 = _stackIndex st + 1 /\
    _transformStack st1 =
      array_push (_transformStack st)
        (array_get None (_transformStack st) (_stackIndex st)) /\
    (forall s,
       stacks st1 s =
         array_push (stacks st s)
           (match s with
            | _lineWidthStack => VUndefined
            | _ => array_get VUndefined (stacks st s) (_stackIndex st)
            end)) /\
    _lineDashStack st1 =
      array_push (_lineDashStack st)
        (array_get None (_lineDashStack st) (_stackIndex st)) /\
    store st1 = store st /\ _canvas st1 = _canvas st).
Proof.
  intros Hwf. repeat (cbv beta iota; wp_step). cbv beta iota.
  proj_norm. repeat split.
Qed.

(** A dash reference: an array of the store other than the transform
    array, of even length. *)
Definition dash_ref (sto : list (list float)) (r : option nat) : Prop :=
  exists a l, r = Some a /\ a <> 0 /\ sto !! a = Some l /\
              Nat.even (length l) = true.

Record inv (st : context) : Prop := {
  inv_wf : wf st;
  inv_shared : Forall (fun r => r = Some 0) (_transformStack st);
  inv_stacks : forall s, length (stacks st s) = S (_stackIndex st);
  inv_dash_len : length (_lineDashStack st) = S (_stackIndex st);
  inv_dash : Forall (dash_ref (store st)) (_lineDashStack st);
}.

Lemma inv_current_address st :
  inv st -> array_get None (_transformStack st) (_stackIndex st) = Some 0.
Proof.
  intros [[Hlen _] Hsh _ _ _]. unfold array_get.
  destruct (_transformStack st !! _stackIndex st) as [r|] eqn:Hr.
  - rewrite Forall_lookup in Hsh. rewrite (Hsh _ _ Hr). reflexivity.
  - apply lookup_ge_None in Hr. lia.
Qed.

Lemma inv_new canvas : inv (new_context canvas).
Proof.
  constructor.
  - apply wf_new.
  - repeat constructor.
  - intros s. destruct s; reflexivity.
  - reflexivity.
  - apply Forall_singleton. exists 1, []. repeat split. discriminate.
Qed.

Lemma dash_ref_array_get sto lds idx :
  Forall (dash_ref sto) lds -> length lds = S idx ->
  dash_ref sto (array_get None lds idx).
Proof.
  intros Hall Hlen. unfold array_get.
  destruct (lds !! idx) as [r|] eqn:Hr.
  - rewrite Forall_lookup in Hall. exact (Hall _ _ Hr).
  - apply lookup_ge_None in Hr. lia.
Qed.

Lemma inv_save st : inv st -> inv (after CallSave st).
Proof.
  intros Hinv. pose proof (inv_wf _ Hinv) as Hwf.
  pose proof (save_effect_full st Hwf) as H. unfold wp in H.
  change (snd (save st)) with (after CallSave st) in H.
  destruct H as (_ & Hi & Hts & Hst & Hld & Hsto & _).
  destruct Hinv as [_ Hsh Hlen Hdl Hd]. constructor.
  - apply wf_after, Hwf.
  - rewrite Hts. apply Forall_app. split; [exact Hsh|].
    apply Forall_singleton. apply inv_current_address.
    constructor; assumption.
  - intros s. rewrite Hst, Hi. unfold array_push. rewrite length_app, Hlen.
    simpl. lia.
  - rewrite Hld, Hi. unfold array_push. rewrite length_app, Hdl. simpl. lia.
  - rewrite Hld, Hsto. apply Forall_app. split; [exact Hd|].
    apply Forall_singleton. apply dash_ref_array_get; assumption.
Qed.

Lemma inv_restore st : inv st -> inv (after CallRestore st).
Proof.
  intros Hinv. pose proof (inv_wf _ Hinv) as Hwf.
  pose proof (restore_effect st Hwf) as H. unfold wp in H.
  change (snd (restore st)) with (after CallRestore st) in H.
  destruct H as (_ & [[_ ->]|(Hnz & Hi & Hst & Hld & Hts & Hsto & _)]);
    [exact Hinv|].
  apply Nat.leb_gt in Hnz.
  destruct Hinv as [_ Hsh Hlen Hdl Hd]. constructor.
  - apply wf_after, Hwf.
  - rewrite Hts. unfold array_pop. rewrite removelast_firstn_len.
    apply Forall_take, Hsh.
  - intros s. rewrite Hst, Hi. unfold array_pop.
    rewrite removelast_firstn_len, length_take, Hlen. lia.
  - rewrite Hld, Hi. unfold array_pop.
    rewrite removelast_firstn_len, length_take, Hdl. lia.
  - rewrite Hld, Hsto. unfold array_pop. rewrite removelast_firstn_len.
    apply Forall_take, Hd.
Qed.

Lemma dash_ref_frame c st st' r :
  frame_ok c st st' -> dash_ref (store st) r -> dash_ref (store st') r.
Proof.
  intros F (a & l & -> & Hne & Hl & He). exists a, l.
  rewrite (fr_store _ _ _ F a Hne (lookup_lt_Some _ _ _ Hl)). auto.
Qed.

Lemma frame_of_call c st :
  inv st -> is_save_restore c = false -> frame_ok c st (after c st).
Proof.
  intros Hinv Hc.
  exact (exec_frame c st (inv_wf _ Hinv) (inv_current_address _ Hinv) Hc).
Qed.

Lemma inv_other c st :
  inv st -> is_save_restore c = false -> inv (after c st).
Proof.
  intros Hinv Hc. pose proof (frame_of_call c st Hinv Hc) as F.
  pose proof (inv_wf _ Hinv) as Hwf.
  destruct Hinv as [_ Hsh Hlen Hdl Hd]. constructor.
  - apply wf_after, Hwf.
  - rewrite (fr_tstack _ _ _ F). exact Hsh.
  - intros s. rewrite (fr_index _ _ _ F).
    destruct (fr_stack_shape _ _ _ F s) as [->|[v ->]]; [apply Hlen|].
    rewrite length_array_set_in_range; rewrite Hlen; lia.
  - rewrite (fr_index _ _ _ F).
    destruct (fr_dash _ _ _ F) as [->|(args & l & _ & -> & _)];
      [exact Hdl|].
    rewrite length_array_set_in_range; rewrite Hdl; lia.
  - destruct (fr_dash _ _ _ F) as [->|(args & l & _ & -> & Hl & He)].
    + eapply Forall_impl; [exact Hd|]. intros r. apply dash_ref_frame with c.
      exact F.
    + unfold array_set. rewrite Hdl.
      replace (_stackIndex st <? S (_stackIndex st))%nat with true
        by (symmetry; apply Nat.ltb_lt; lia).
      apply Forall_insert.
      * eapply Forall_impl; [exact Hd|]. intros r.
        apply dash_ref_frame with c. exact F.
      * exists (length (store st)), l. repeat split; auto.
        pose proof (wf_store_nonempty st Hwf). lia.
Qed.

Lemma inv_after c st : inv st -> inv (after c st).
Proof.
  intros Hinv. destruct (is_save_restore c) eqn:Hc.
  - destruct c; try discriminate Hc.
    + apply inv_restore, Hinv.
    + apply inv_save, Hinv.
  - apply inv_other; assumption.
Qed.

Lemma reachable_inv st : reachable st -> inv st.
Proof.
  induction 1 as [canvas|c st _ IH].
  - apply inv_new.
  - apply inv_after, IH.
Qed.

(** X4.  In every state the context can reach, the twenty attribute
    stacks, the dash stack and the transform stack all hold exactly
    [_stackIndex + 1] entries: one per saved frame plus the current
    one. *)
Theorem stacks_stay_parallel st :
  reachable st ->
  (forall s, length (stacks st s) = S (_stackIndex st)) /\
  length (_lineDashStack st) = S (_stackIndex st) /\
  length (_transformStack st) = S (_stackIndex st).
Proof.
  intros Hr. pose proof (reachable_inv st Hr) as Hinv.
  split; [exact (inv_stacks _ Hinv)|]. split; [exact (inv_dash_len _ Hinv)|].
  exact (proj1 (inv_wf _ Hinv)).
Qed.

(** X5.  The stack depth moves only through [save] and [restore]: from a
    reachable state [save] raises it by one, [restore] lowers it by one
    when it is positive and leaves it at zero otherwise, and every other
    method, setter and getter leaves it as it is. *)
Theorem depth_changes_only_by_save_and_restore st :
  reachable st ->
  _stackIndex (after CallSave st) = _stackIndex st + 1 /\
  _stackIndex (after CallRestore st) = _stackIndex st - 1 /\
  (forall c, is_save_restore c = false ->
             _stackIndex (after c st) = _stackIndex st).
Proof.
  intros Hr. pose proof (reachable_inv st Hr) as Hinv.
  pose proof (inv_wf _ Hinv) as Hwf. split; [|split].
  - pose proof (save_effect_full st Hwf) as H. unfold wp in H. apply H.
  - pose proof (restore_effect st Hwf) as H. unfold wp in H.
    change (snd (restore st)) with (after CallRestore st) in H.
    destruct H as (_ & [[Hz ->]|(_ & Hi & _)]); [|exact Hi].
    apply Nat.leb_le in Hz. lia.
  - intros c Hc. exact (fr_index _ _ _ (frame_of_call c st Hinv Hc)).
Qed.

Lemma inv_current_transform st :
  inv st -> current_transform st = (fun arr => (0, arr)) <$> store st !! 0.
Proof.
  intros Hinv. unfold current_transform.
  rewrite (inv_current_address st Hinv).
  destruct (store st !! 0); reflexivity.
Qed.

Lemma inv_current_matrix st : inv st -> current_matrix st = store st !! 0.
Proof.
  intros Hinv. unfold current_matrix. rewrite (inv_current_transform st Hinv).
  destruct (store st !! 0); reflexivity.
Qed.

(** X6.  All frames share one transform array, so the current matrix
    changes only through the seven calls that write it ([rotate], [scale],
    [translate], [transform], [setTransform], [resetTransform] and the
    [currentTransform] setter).  In particular [save] and [restore] leave
    it alone: [restore] does not bring back the matrix that was current
    at the matching [save]. *)
Theorem matrix_changes_only_by_transform_calls st c :
  reachable st ->
  writes_transform c = false ->
  current_matrix (after c st) = current_matrix st.
Proof.
  intros Hr Hc. pose proof (reachable_inv st Hr) as Hinv.
  rewrite (inv_current_matrix _ (inv_after c st Hinv)).
  rewrite (inv_current_matrix _ Hinv).
  pose proof (inv_wf _ Hinv) as Hwf.
  destruct (is_save_restore c) eqn:Hsr.
  - destruct c; try discriminate Hsr.
    + pose proof (restore_effect st Hwf) as H. unfold wp in H.
      change (snd (restore st)) with (after CallRestore st) in H.
      destruct H as (_ & [[_ ->]|(_ & _ & _ & _ & _ & -> & _)]); reflexivity.
    + pose proof (save_effect_full st Hwf) as H. unfold wp in H.
      change (snd (save st)) with (after CallSave st) in H.
      destruct H as (_ & _ & _ & _ & _ & -> & _). reflexivity.
  - exact (fr_matrix _ _ _ (frame_of_call c st Hinv Hsr) Hc).
Qed.

Lemma array_get_push_last {A} (d : A) (l : list A) (x : A) n :
  length l = n -> array_get d (array_push l x) n = x.
Proof.
  intros <-. unfold array_get, array_push.
  rewrite lookup_app_r by reflexivity. rewrite Nat.sub_diag. reflexivity.
Qed.

(** X7.  [save] copies every attribute into the new frame except the line
    width: from a reachable state, right after [save()] the [lineWidth]
    getter returns [undefined], while every other getter returns what it
    returned before the [save]. *)
Theorem save_loses_the_line_width st :
  reachable st ->
  let st1 := after CallSave st in
  fst (exec GetLineWidth st1) = Normal (Value VUndefined) /\
  (forall g, is_getter g = true -> g <> GetLineWidth ->
             fst (exec g st1) = fst (exec g st)).
Proof.
  intros Hr st1. pose proof (reachable_inv st Hr) as Hinv.
  pose proof (inv_after CallSave st Hinv) as Hinv1. fold st1 in Hinv1.
  pose proof (save_effect_full st (inv_wf _ Hinv)) as H. unfold wp in H.
  change (snd (save st)) with st1 in H.
  destruct H as (_ & Hi & Hts & Hst & Hld & Hsto & _).
  assert (Hn : forall s, length (stacks st s) = _stackIndex st + 1)
    by (intros s; rewrite (inv_stacks _ Hinv); lia).
  assert (Hread : forall s,
            array_get VUndefined (stacks st1 s) (_stackIndex st1) =
            match s with
            | _lineWidthStack => VUndefined
            | _ => array_get VUndefined (stacks st s) (_stackIndex st)
            end).
  { intros s. rewrite Hst, Hi. apply array_get_push_last, Hn. }
  split.
  - cbn [exec]. unfold get_lineWidth, stack_read, bind, gets, ret. simpl.
    rewrite Hread. reflexivity.
  - intros g Hg Hne.
    destruct g; try discriminate Hg; try contradiction; cbn [exec];
      unfold get_currentTransform, get_direction, get_fillStyle, get_filter,
        get_font, getLineDash, getTransform, get_globalAlpha,
        get_globalCompositeOperation, get_imageSmoothingEnabled,
        get_imageSmoothingQuality, get_lineCap, get_lineDashOffset,
        get_lineJoin, get_miterLimit, get_shadowBlur, get_shadowColor,
        get_shadowOffsetX, get_shadowOffsetY, get_strokeStyle,
        get_textAlign, get_textBaseline, stack_read, bind, gets, ret;
      cbn beta iota; cbn [fst snd];
      rewrite ?Hread,
        ?(inv_current_transform _ Hinv1), ?(inv_current_transform _ Hinv),
        ?Hsto; try reflexivity.
    rewrite Hld, Hi.
    rewrite (array_get_push_last None (_lineDashStack st) _
               (_stackIndex st + 1))
      by (rewrite (inv_dash_len _ Hinv); lia).
    destruct (array_get None (_lineDashStack st) (_stackIndex st));
      reflexivity.
Qed.

(** X8.  In every state the context can reach there is a current dash
    list, and its length is even. *)
Theorem dash_list_has_even_length st :
  reachable st ->
  exists l, current_lineDash st = Some l /\ Nat.even (length l) = true.
Proof.
  intros Hr. pose proof (reachable_inv st Hr) as Hinv.
  destruct (dash_ref_array_get _ _ _ (inv_dash _ Hinv) (inv_dash_len _ Hinv))
    as (a & l & Ha & _ & Hl & He).
  exists l. unfold current_lineDash. rewrite Ha. auto.
Qed.

(** ** Blocks between [save] and [restore] *)

(** The context after a sequence of calls. *)
Definition run (cs : list call) (st : context) : context :=
  fold_left (fun st c => after c st) cs st.

(** Along the calls [cs] from [st] the stack depth stays above [d]: the
    calls never restore past the frame opened at depth [d + 1]. *)
Fixpoint stays_above (d : nat) (cs : list call) (st : context) : Prop :=
  match cs with
  | [] => True
  | c :: cs' =>
      d < _stackIndex (after c st) /\ stays_above d cs' (after c st)
  end.

(** The frames up to depth [d] of [st'] are those of [st], and the dash
    arrays of [st] are untouched in [st']. *)
Record keeps_frames (d : nat) (st st' : context) : Prop := {
  kf_depth : d < _stackIndex st';
  kf_stacks : forall s, take (S d) (stacks st' s) = stacks st s;
  kf_dash : take (S d) (_lineDashStack st') = _lineDashStack st;
  kf_store_len : length (store st) <= length (store st');
  kf_store :
    forall a, a <> 0 -> a < length (store st) ->
              store st' !! a = store st !! a;
}.

Lemma take_array_pop {A} (l : list A) n :
  S n < length l -> take (S n) (array_pop l) = take (S n) l.
Proof.
  intros H. unfold array_pop. rewrite removelast_firstn_len.
  rewrite take_take. f_equal. lia.
Qed.

Lemma take_array_push {A} (l : list A) x n :
  n <= length l -> take n (array_push l x) = take n l.
Proof. intros H. unfold array_push. apply take_app_le, H. Qed.

Lemma take_array_set {A} (hole : A) (l : list A) i v n :
  n <= i -> i < length l -> take n (array_set hole l i v) = take n l.
Proof.
  intros Hn Hi. unfold array_set.
  replace (i <? length l)%nat with true by (symmetry; apply Nat.ltb_lt, Hi).
  apply take_insert_ge, Hn.
Qed.

Lemma keeps_frames_step d st st' c :
  inv st' -> keeps_frames d st st' ->
  d < _stackIndex (after c st') ->
  keeps_frames d st (after c st').
Proof.
  intros Hinv K Hd. pose proof (inv_wf _ Hinv) as Hwf.
  destruct K as [Kd Ks Kl Kn Ka].
  destruct (is_save_restore c) eqn:Hsr.
  - destruct c; try discriminate Hsr.
    + pose proof (restore_effect st' Hwf) as H. unfold wp in H.
      change (snd (restore st')) with (after CallRestore st') in H.
      destruct H as (_ & [[_ Heq]|(_ & Hi & Hst & Hld & _ & Hsto & _)]).
      { rewrite Heq in *. constructor; assumption. }
      rewrite Hi in Hd. constructor.
      * rewrite Hi. exact Hd.
      * intros s. rewrite Hst, take_array_pop; [apply Ks|].
        rewrite (inv_stacks _ Hinv). lia.
      * rewrite Hld, take_array_pop; [apply Kl|].
        rewrite (inv_dash_len _ Hinv). lia.
      * rewrite Hsto. exact Kn.
      * rewrite Hsto. exact Ka.
    + pose proof (save_effect_full st' Hwf) as H. unfold wp in H.
      change (snd (save st')) with (after CallSave st') in H.
      destruct H as (_ & Hi & _ & Hst & Hld & Hsto & _). constructor.
      * exact Hd.
      * intros s. rewrite Hst, take_array_push; [apply Ks|].
        rewrite (inv_stacks _ Hinv). lia.
      * rewrite Hld, take_array_push; [apply Kl|].
        rewrite (inv_dash_len _ Hinv). lia.
      * rewrite Hsto. exact Kn.
      * rewrite Hsto. exact Ka.
  - pose proof (frame_of_call c st' Hinv Hsr) as F. constructor.
    + exact Hd.
    + intros s.
      destruct (fr_stack_shape _ _ _ F s) as [->|[v ->]]; [apply Ks|].
      rewrite take_array_set; [apply Ks|lia|].
      rewrite (inv_stacks _ Hinv). lia.
    + destruct (fr_dash _ _ _ F) as [->|(args & l & _ & -> & _)];
        [exact Kl|].
      rewrite take_array_set; [exact Kl|lia|].
      rewrite (inv_dash_len _ Hinv). lia.
    + pose proof (fr_store_len _ _ _ F). lia.
    + intros a Hne Ha. rewrite (fr_store _ _ _ F a Hne) by lia.
      apply Ka; assumption.
Qed.

Lemma keeps_frames_run d st cs st' :
  inv st' -> keeps_frames d st st' -> stays_above d cs st' ->
  inv (run cs st') /\ keeps_frames d st (run cs st').
Proof.
  revert st'. induction cs as [|c cs IH]; intros st' Hinv K Habove.
  - simpl. auto.
  - destruct Habove as [Hd Habove]. simpl. apply IH.
    + apply inv_after, Hinv.
    + apply keeps_frames_step; assumption.
    + exact Habove.
Qed.

(** X9.  [restore] returns to the frame of the matching [save].  From a
    reachable state, take [save()], then any calls that never restore
    past the frame just opened and that end at its depth, then
    [restore()]: every attribute stack, the dash stack and the depth are
    again what they were before the [save], and so is the dash list. *)
Theorem restore_returns_to_the_saved_frame st cs :
  reachable st ->
  let opened := after CallSave st in
  stays_above (_stackIndex st) cs opened ->
  _stackIndex (run cs opened) = _stackIndex st + 1 ->
  let closed := after CallRestore (run cs opened) in
  _stackIndex closed = _stackIndex st /\
  (forall s, stacks closed s = stacks st s) /\
  _lineDashStack closed = _lineDashStack st /\
  current_lineDash closed = current_lineDash st.
Proof.
  intros Hr opened Habove Hend closed.
  pose proof (reachable_inv st Hr) as Hinv.
  pose proof (save_effect_full st (inv_wf _ Hinv)) as H. unfold wp in H.
  change (snd (save st)) with opened in H.
  destruct H as (_ & Hi & _ & Hst & Hld & Hsto & _).
  assert (K0 : keeps_frames (_stackIndex st) st opened).
  { constructor.
    - rewrite Hi. lia.
    - intros s. rewrite Hst. unfold array_push.
      rewrite <- (inv_stacks _ Hinv s). apply take_app_length.
    - rewrite Hld. unfold array_push.
      rewrite <- (inv_dash_len _ Hinv). apply take_app_length.
    - rewrite Hsto. lia.
    - intros a _ _. rewrite Hsto. reflexivity. }
  destruct (keeps_frames_run _ st cs opened
              (inv_after CallSave st Hinv) K0 Habove) as [Hinv' K].
  pose proof (restore_effect _ (inv_wf _ Hinv')) as H. unfold wp in H.
  change (snd (restore (run cs opened))) with closed in H.
  destruct H as (_ & [[Hz _]|(_ & Hi2 & Hst2 & Hld2 & _ & Hsto2 & _)]).
  { apply Nat.leb_le in Hz. lia. }
  assert (Hs : forall s, stacks closed s = stacks st s).
  { intros s. rewrite Hst2. unfold array_pop.
    rewrite removelast_firstn_len, (inv_stacks _ Hinv' s), Hend.
    replace (Nat.pred (S (_stackIndex st + 1))) with (S (_stackIndex st))
      by lia.
    apply (kf_stacks _ _ _ K). }
  assert (Hl : _lineDashStack closed = _lineDashStack st).
  { rewrite Hld2. unfold array_pop.
    rewrite removelast_firstn_len, (inv_dash_len _ Hinv'), Hend.
    replace (Nat.pred (S (_stackIndex st + 1))) with (S (_stackIndex st))
      by lia.
    apply (kf_dash _ _ _ K). }
  assert (Hidx : _stackIndex closed = _stackIndex st) by lia.
  split; [exact Hidx|]. split; [exact Hs|]. split; [exact Hl|].
  unfold current_lineDash. rewrite Hl, Hidx, Hsto2.
  destruct (dash_ref_array_get _ _ _ (inv_dash _ Hinv) (inv_dash_len _ Hinv))
    as (a & l & Ha & Hne & Hla & _).
  rewrite Ha. apply (kf_store _ _ _ K); [exact Hne|].
  eapply lookup_lt_Some, Hla.
Qed.

(** X10.  A call changes no attribute but its own.  From a reachable
    state, a call other than [save] and [restore] leaves every attribute
    stack untouched except the one its setter writes (methods write none),
    and unless it is [setLineDash] it leaves the dash list as it is. *)
Theorem calls_leave_other_attributes_alone st c :
  reachable st ->
  is_save_restore c = false ->
  (forall s, writes_stack c <> Some s -> stacks (after c st) s = stacks st s)
  /\
  ((forall args, c <> CallSetLineDash args) ->
   current_lineDash (after c st) = current_lineDash st).
Proof.
  intros Hr Hc. pose proof (reachable_inv st Hr) as Hinv.
  pose proof (frame_of_call c st Hinv Hc) as F.
  split; [exact (fr_stacks _ _ _ F)|].
  intros Hnot. unfold current_lineDash.
  rewrite (fr_index _ _ _ F).
  destruct (fr_dash _ _ _ F) as [->|(args & _ & -> & _)];
    [|exfalso; exact (Hnot args eq_refl)].
  destruct (dash_ref_array_get _ _ _ (inv_dash _ Hinv) (inv_dash_len _ Hinv))
    as (a & l & Ha & Hne & Hla & _).
  rewrite Ha. apply (fr_store _ _ _ F); [exact Hne|].
  eapply lookup_lt_Some, Hla.
Qed.

(** ** What a call records *)

(** The methods that append a segment to the current path. *)
Definition builds_path (c : call) : bool :=
  match c with
  | CallMoveTo _ | CallLineTo _ | CallArc _ | CallArcTo _
  | CallBezierCurveTo _ | CallEllipse _ | CallRect _ | CallClip _
  | CallClosePath => true
  | _ => false
  end.

Record log_ok (c : call) (st0 st : context) : Prop := {
  lg_event :
    _events st = _events st0 \/
    exists e,
      _events st = _events st0 ++ [e] /\
      current_matrix st = Some (ev_transform e);
  lg_path :
    _path st = _path st0 \/
    (exists e,
       builds_path c = true /\ _path st = _path st0 ++ [e] /\
       _events st = _events st0 ++ [e]) \/
    (exists e,
       c = CallBeginPath /\ _path st = [e] /\ ev_type e = "beginPath" /\
       _events st = _events st0 ++ [e]);
}.

Lemma wp_getTransformSlice_current st Q :
  wf st ->
  (forall tr, current_matrix st = Some tr -> Q (Normal tr) st) ->
  wp getTransformSlice st Q.
Proof.
  intros Hwf HQ. destruct (wf_current_transform st Hwf) as (a & arr & H & _).
  unfold wp, getTransformSlice. rewrite H. apply HQ.
  unfold current_matrix. rewrite H. reflexivity.
Qed.

Ltac log_step :=
  lazymatch goal with
  | |- wp getTransformSlice _ _ =>
      apply wp_getTransformSlice_current; [wf_solve | intros ? ?]
  | _ => wp_step
  end.

Ltac log_finish :=
  constructor; proj_norm; unfold array_push;
  [ first [ left; reflexivity
          | right; eexists; split; [reflexivity|];
            match goal with
            | H : current_matrix _ = Some _ |- _ => exact H
            end ]
  | first [ left; reflexivity
          | right; left; eexists; split; [reflexivity|];
            split; reflexivity
          | right; right; eexists; split; [reflexivity|];
            split; [reflexivity|]; split; reflexivity ] ].

Ltac log_run := repeat (cbv beta iota; log_step); cbv beta iota; log_finish.

Lemma exec_log c st :
  wf st -> wp (exec c) st (fun _ st' => log_ok c st st').
Proof.
  intros Hwf. destruct c; cbn [exec builds_path]; log_run.
Qed.

Lemma log_of_call c st : reachable st -> log_ok c st (after c st).
Proof. intros Hr. exact (exec_log c st (reachable_wf st Hr)). Qed.

(** X11.  Every event carries the matrix in force once the call has done
    its work: from a reachable state, whenever a call appends an event,
    the [transform] field of that event is the current matrix of the
    resulting state (for a transform method, the matrix after the
    change), and it holds six numbers. *)
Theorem events_carry_the_resulting_matrix st c e :
  reachable st ->
  _events (after c st) = _events st ++ [e] ->
  current_matrix (after c st) = Some (ev_transform e) /\
  length (ev_transform e) = 6.
Proof.
  intros Hr He.
  assert (Hm : current_matrix (after c st) = Some (ev_transform e)).
  { destruct (lg_event _ _ _ (log_of_call c st Hr)) as [Hsame|(e' & He' & Hm)].
    - rewrite Hsame in He. apply (f_equal length) in He.
      rewrite length_app in He. simpl in He. lia.
    - rewrite He' in He. apply app_inv_head in He. injection He as ->.
      exact Hm. }
  split; [exact Hm|].
  destruct (reachable_matrix _ (reachable_call c st Hr))
    as (a & b & c0 & d & e0 & f & H6).
  rewrite Hm in H6. injection H6 as ->. reflexivity.
Qed.

Lemma path_head_preserved c st :
  reachable st ->
  (exists e rest, _path st = e :: rest /\ ev_type e = "beginPath") ->
  exists e rest, _path (after c st) = e :: rest /\ ev_type e = "beginPath".
Proof.
  intros Hr (e & rest & Hp & Ht).
  destruct (lg_path _ _ _ (log_of_call c st Hr))
    as [->|[(e' & _ & -> & _)|(e' & _ & -> & Ht' & _)]].
  - eauto.
  - rewrite Hp. simpl. eauto.
  - eauto.
Qed.

(** X12.  The current path is never empty and always starts with a
    [beginPath] record.  Only [beginPath] resets it; any other call leaves
    the segments already there in place, and a call that changes the path
    at all is [beginPath] or one of the nine path-building methods
    ([moveTo], [lineTo], [arc], [arcTo], [bezierCurveTo], [ellipse],
    [rect], [clip], [closePath]), which append the very record they put
    in the event log.  [quadraticCurveTo] is not among them: it never
    changes the path, and with four or more arguments of finite coerced
    sum all it does is append to the event log one record, of type
    ["quadraticCurveTo"], holding the current matrix and the four coerced
    numbers. *)
Theorem path_grows_until_beginPath st :
  reachable st ->
  (exists e rest, _path st = e :: rest /\ ev_type e = "beginPath") /\
  (forall c, c <> CallBeginPath -> _path st `prefix_of` _path (after c st)) /\
  (forall c, _path (after c st) <> _path st ->
     c = CallBeginPath \/
     (builds_path c = true /\
      exists e, _path (after c st) = _path st ++ [e] /\
                _events (after c st) = _events st ++ [e])) /\
  (forall args, _path (after (CallQuadraticCurveTo args) st) = _path st) /\
  (forall args,
     4 <= length args ->
     let cpx := Number (arg 0 args) in
     let cpy := Number (arg 1 args) in
     let x := Number (arg 2 args) in
     let y := Number (arg 3 args) in
     is_finite (cpx + cpy + x + y) = true ->
     exists tr,
       current_matrix st = Some tr /\
       exec (CallQuadraticCurveTo args) st =
         (Normal undefined,
          with_events
            (_events st ++
             [createCanvasEvent "quadraticCurveTo" tr
                [("cpx", VNum cpx); ("cpy", VNum cpy);
                 ("x", VNum x); ("y", VNum y)]])
            st)).
Proof.
  intros Hr. split; [|split; [|split; [|split]]].
  - induction Hr as [canvas|c st Hr IH].
    + simpl. eexists _, _. split; reflexivity.
    + apply path_head_preserved; assumption.
  - intros c Hc.
    destruct (lg_path _ _ _ (log_of_call c st Hr))
      as [->|[(e' & _ & -> & _)|(e' & -> & _)]].
    + reflexivity.
    + apply prefix_app_r. reflexivity.
    + contradiction.
  - intros c Hc.
    destruct (lg_path _ _ _ (log_of_call c st Hr))
      as [Hsame|[(e' & Hb & Hp & He)|(e' & -> & _)]].
    + contradiction.
    + right. eauto.
    + left. reflexivity.
  - intros args.
    destruct (lg_path _ _ _ (log_of_call (CallQuadraticCurveTo args) st Hr))
      as [Hsame|[(e' & Hb & _)|(e' & Hc & _)]];
      [exact Hsame|discriminate Hb|discriminate Hc].
  - intros args Hlen cpx cpy x y Hfin. apply Nat.ltb_ge in Hlen.
    destruct (wf_current_transform st (reachable_wf st Hr))
      as (ad & tr & Hct & _).
    exists tr. split; [exact (current_matrix_of_transform st ad tr Hct)|].
    cbn [exec]. unfold quadraticCurveTo. cbv zeta.
    rewrite Hlen. fold cpx cpy x y. rewrite Hfin. cbn [negb].
    unfold bind, getTransformSlice, events_push, modify, ret, array_push.
    rewrite Hct. reflexivity.
Qed.

(** ** Assignments *)

Lemma includes_In allowed s : In s allowed -> includes allowed (VStr s) = true.
Proof.
  intros H. unfold includes. apply existsb_exists. exists s.
  split; [exact H|]. simpl. apply String.eqb_refl.
Qed.

Lemma includes_not allowed v :
  (forall s, In s allowed -> v <> VStr s) -> includes allowed v = false.
Proof.
  intros H. unfold includes.
  destruct (existsb (str_is v) allowed) eqn:E; [|reflexivity].
  apply existsb_exists in E. destruct E as (s & Hs & Hv).
  destruct v; try discriminate Hv. simpl in Hv. apply String.eqb_eq in Hv.
  subst. exfalso. exact (H s Hs eq_refl).
Qed.

Lemma stack_read_after_write st s v (k : unit -> M retval) :
  (forall st1,
     stacks (snd (k tt st1)) = stacks st1 /\
     _stackIndex (snd (k tt st1)) = _stackIndex st1) ->
  fst (stack_read s (snd ((stack_write s v ;; k tt) st))) = Normal v.
Proof.
  intros Hk. unfold bind, stack_write, modify. simpl.
  match goal with |- context [k tt ?x] => destruct (Hk x) as [H1 H2] end.
  unfold stack_read, gets. simpl.
  destruct (k tt _) as [[r|e] st2]; simpl in *; rewrite H1, H2; simpl;
    rewrite update_stack_same, array_get_set_same; reflexivity.
Qed.

(** The tail of every setter: take the matrix and push one event.  It
    changes neither the stacks nor the depth, even when it fails. *)
Lemma record_keeps_stacks type (props : list float -> list (string * value))
    st1 :
  let k :=
    (let* tr := getTransformSlice in
     events_push (createCanvasEvent type tr (props tr)) ;;
     ret undefined) in
  stacks (snd (k st1)) = stacks st1 /\
  _stackIndex (snd (k st1)) = _stackIndex st1.
Proof.
  unfold bind, getTransformSlice, events_push, modify, ret.
  destruct (current_transform st1) as [[a arr]|]; simpl; auto.
Qed.

Lemma set_enum_accepts st s type allowed str :
  In str allowed ->
  fst (stack_read s (snd (set_enum s type allowed (VStr str) st))) =
    Normal (VStr str).
Proof.
  intros Hin. unfold set_enum. rewrite (includes_In _ _ Hin).
  apply (stack_read_after_write st s (VStr str)
           (fun _ => let* tr := getTransformSlice in
                     events_push (createCanvasEvent type tr
                                    [("value", VStr str)]) ;;
                     ret undefined)).
  intros st1.
  exact (record_keeps_stacks type (fun _ => [("value", VStr str)]) st1).
Qed.

Lemma set_enum_rejects st s type allowed v :
  (forall str, In str allowed -> v <> VStr str) ->
  set_enum s type allowed v st = (Normal undefined, st).
Proof.
  intros H. unfold set_enum. rewrite (includes_not _ _ H). reflexivity.
Qed.

Lemma set_direction_enum v :
  set_direction v =
  set_enum _directionStack "direction" ["rtl"; "ltr"; "inherit"] v.
Proof.
  unfold set_direction, set_enum, includes. simpl existsb.
  destruct (str_is v "rtl"), (str_is v "ltr"), (str_is v "inherit");
    reflexivity.
Qed.

(** The seven setters that take one of a fixed set of strings, each with
    its getter and the strings it accepts. *)
Definition enumerated_attributes
    : list ((value -> call) * call * list string) :=
  [(SetDirection, GetDirection, ["rtl"; "ltr"; "inherit"]);
   (SetGlobalCompositeOperation, GetGlobalCompositeOperation,
    compositeOperations);
   (SetImageSmoothingQuality, GetImageSmoothingQuality,
    ["high"; "medium"; "low"]);
   (SetLineCap, GetLineCap, ["butt"; "round"; "square"]);
   (SetLineJoin, GetLineJoin, ["round"; "bevel"; "miter"]);
   (SetTextAlign, GetTextAlign, ["left"; "right"; "center"; "start"; "end"]);
   (SetTextBaseline, GetTextBaseline,
    ["top"; "hanging"; "middle"; "alphabetic"; "ideographic"; "bottom"])].

(** X13.  For each of the seven enumerated attributes ([direction],
    [globalCompositeOperation], [imageSmoothingQuality], [lineCap],
    [lineJoin], [textAlign], [textBaseline]): assigning one of the
    accepted strings makes the getter return that string; assigning
    anything else (another string, a number, an object) neither throws nor
    changes the context. *)
Theorem enumerated_setters_accept_or_ignore st :
  Forall (fun '(set, get, allowed) =>
            (forall str, In str allowed ->
               fst (exec get (after (set (VStr str)) st)) =
                 Normal (Value (VStr str))) /\
            (forall v, (forall str, In str allowed -> v <> VStr str) ->
               exec (set v) st = (Normal undefined, st)))
    enumerated_attributes.
Proof.
  unfold enumerated_attributes.
  repeat first [apply Forall_nil_2 | apply Forall_cons_2];
    (split; [intros str Hin | intros v Hv]).
  - pose proof (set_enum_accepts st _directionStack "direction" _ str Hin)
      as H.
    cbn [exec]. unfold get_direction, after, bind, ret. cbn [exec].
    rewrite set_direction_enum.
    destruct (stack_read _ _) as [[r|e] st2]; simpl in H |- *;
      congruence.
  - cbn [exec]. rewrite set_direction_enum.
    exact (set_enum_rejects st _directionStack "direction" _ v Hv).
  - pose proof (set_enum_accepts st _globalCompositeOperationStack
                  "globalCompositeOperation" _ str Hin) as H.
    cbn [exec]. unfold get_globalCompositeOperation, after, bind, ret.
    cbn [exec]. unfold set_globalCompositeOperation.
    destruct (stack_read _ _) as [[r|e] st2]; simpl in H |- *;
      congruence.
  - cbn [exec]. apply set_enum_rejects, Hv.
  - pose proof (set_enum_accepts st _imageSmoothingQualityStack
                  "imageSmoothingQuality" _ str Hin) as H.
    cbn [exec]. unfold get_imageSmoothingQuality, after, bind, ret.
    cbn [exec]. unfold set_imageSmoothingQuality.
    destruct (stack_read _ _) as [[r|e] st2]; simpl in H |- *;
      congruence.
  - cbn [exec]. apply set_enum_rejects, Hv.
  - pose proof (set_enum_accepts st _lineCapStack "lineCap" _ str Hin) as H.
    cbn [exec]. unfold get_lineCap, after, bind, ret.
    cbn [exec]. unfold set_lineCap.
    destruct (stack_read _ _) as [[r|e] st2]; simpl in H |- *;
      congruence.
  - cbn [exec]. apply set_enum_rejects, Hv.
  - pose proof (set_enum_accepts st _lineJoinStack "lineJoin" _ str Hin) as H.
    cbn [exec]. unfold get_lineJoin, after, bind, ret.
    cbn [exec]. unfold set_lineJoin.
    destruct (stack_read _ _) as [[r|e] st2]; simpl in H |- *;
      congruence.
  - cbn [exec]. apply set_enum_rejects, Hv.
  - pose proof (set_enum_accepts st _textAlignStack "textAlign" _ str Hin)
      as H.
    cbn [exec]. unfold get_textAlign, after, bind, ret.
    cbn [exec]. unfold set_textAlign.
    destruct (stack_read _ _) as [[r|e] st2]; simpl in H |- *;
      congruence.
  - cbn [exec]. apply set_enum_rejects, Hv.
  - pose proof (set_enum_accepts st _textBaselineStack "textBaseline" _ str
                  Hin) as H.
    cbn [exec]. unfold get_textBaseline, after, bind, ret.
    cbn [exec]. unfold set_textBaseline.
    destruct (stack_read _ _) as [[r|e] st2]; simpl in H |- *;
      congruence.
  - cbn [exec]. apply set_enum_rejects, Hv.
Qed.

Lemma write_record_read st s x type props :
  fst (stack_read s
         (snd ((stack_write s x ;;
                let* tr := getTransformSlice in
                events_push (createCanvasEvent type tr props) ;;
                ret undefined) st))) = Normal x.
Proof.
  apply (stack_read_after_write st s x
           (fun _ => let* tr := getTransformSlice in
                     events_push (createCanvasEvent type tr props) ;;
                     ret undefined)).
  intros st1. exact (record_keeps_stacks type (fun _ => props) st1).
Qed.

Ltac read_back H :=
  unfold after, bind, ret in H |- *; cbn [exec];
  match goal with
  | |- context [stack_read ?s ?x] =>
      destruct (stack_read s x) as [[?r|?e] ?st2]; simpl in H |- *; congruence
  end.

(** The five numeric attributes with a plain validity test, each with its
    getter and the test made on the coerced value. *)
Definition numeric_attributes
    : list ((value -> call) * call * (float -> bool)) :=
  [(SetGlobalAlpha, GetGlobalAlpha,
    fun x => is_finite x && negb (x <? 0)%float && negb (1 <? x)%float);
   (SetLineWidth, GetLineWidth, fun x => is_finite x && (0 <? x)%float);
   (SetShadowBlur, GetShadowBlur, fun x => is_finite x && (0 <? x)%float);
   (SetLineDashOffset, GetLineDashOffset, is_finite);
   (SetShadowOffsetX, GetShadowOffsetX, is_finite)].

(** X14.  The numeric attributes store the assigned value after coercion
    to a number, and only when it passes the attribute's test:
    [globalAlpha] wants a finite number in [0, 1], [lineWidth] and
    [shadowBlur] a finite number strictly above zero (so assigning 0 is
    ignored), [lineDashOffset] and [shadowOffsetX] any finite number.  An
    accepted value is what the getter returns next, as a number even when
    a string was assigned; a rejected value neither throws nor changes the
    context. *)
Theorem numeric_setters_accept_or_ignore st :
  Forall (fun '(set, get, valid) =>
            forall v,
              if valid (Number v) : bool
              then fst (exec get (after (set v) st)) =
                     Normal (Value (VNum (Number v)))
              else exec (set v) st = (Normal undefined, st))
    numeric_attributes.
Proof.
  unfold numeric_attributes.
  repeat first [apply Forall_nil_2 | apply Forall_cons_2]; intros v.
  - destruct (is_finite (Number v)) eqn:Hf; cbn [andb negb];
      [|cbn [exec]; unfold set_globalAlpha; rewrite Hf; reflexivity].
    destruct (Number v <? 0)%float eqn:H0; cbn [andb negb];
      [cbn [exec]; unfold set_globalAlpha; rewrite Hf, H0; reflexivity|].
    destruct (1 <? Number v)%float eqn:H1; cbn [andb negb];
      [cbn [exec]; unfold set_globalAlpha; rewrite Hf, H0, H1; reflexivity|].
    pose proof (write_record_read st _globalAlphaStack (VNum (Number v))
                  "globalAlpha" [("value", VNum (Number v))]) as H.
    unfold after. cbn [exec]. unfold get_globalAlpha, set_globalAlpha.
    rewrite Hf, H0, H1. cbn [negb]. read_back H.
  - destruct (is_finite (Number v) && (0 <? Number v)%float) eqn:Hf;
      [|cbn [exec]; unfold set_lineWidth; rewrite Hf; reflexivity].
    pose proof (write_record_read st _lineWidthStack (VNum (Number v))
                  "lineWidth" [("value", VNum (Number v))]) as H.
    unfold after. cbn [exec]. unfold get_lineWidth, set_lineWidth. rewrite Hf.
    read_back H.
  - destruct (is_finite (Number v) && (0 <? Number v)%float) eqn:Hf;
      [|cbn [exec]; unfold set_shadowBlur; rewrite Hf; reflexivity].
    pose proof (write_record_read st _shadowBlurStack (VNum (Number v))
                  "shadowBlur" [("value", VNum (Number v))]) as H.
    unfold after. cbn [exec]. unfold get_shadowBlur, set_shadowBlur. rewrite Hf.
    read_back H.
  - destruct (is_finite (Number v)) eqn:Hf;
      [|cbn [exec]; unfold set_lineDashOffset; rewrite Hf; reflexivity].
    pose proof (write_record_read st _lineDashOffsetStack (VNum (Number v))
                  "lineDashOffset" [("value", v)]) as H.
    unfold after. cbn [exec]. unfold get_lineDashOffset, set_lineDashOffset. rewrite Hf.
    read_back H.
  - destruct (is_finite (Number v)) eqn:Hf;
      [|cbn [exec]; unfold set_shadowOffsetX; rewrite Hf; reflexivity].
    pose proof (write_record_read st _shadowOffsetXStack (VNum (Number v))
                  "shadowOffsetX" [("value", VNum (Number v))]) as H.
    unfold after. cbn [exec]. unfold get_shadowOffsetX, set_shadowOffsetX. rewrite Hf.
    read_back H.
Qed.



(** ** Assigning the matrix *)

Lemma setTransform_effect st ad args sa sb sc sd se sf :
  current_transform st = Some (ad, [sa; sb; sc; sd; se; sf]) ->
  (length args <? 6)%nat = false ->
  let a := Number (arg 0 args) in
  let b := Number (arg 1 args) in
  let c := Number (arg 2 args) in
  let d := Number (arg 3 args) in
  let e := Number (arg 4 args) in
  let f := Number (arg 5 args) in
  is_finite (a + b + c + d + e + f) = true ->
  wp (setTransform args) st (fun o st' =>
    o = Normal undefined /\
    current_transform st' = Some (ad, [a; b; c; d; e; f])).
Proof.
  intros Hct Hlen a b c d e f Hfin. unfold setTransform. cbv zeta.
  destruct (length args) as [|[|n]] eqn:El; try discriminate Hlen.
  change (S (S n) =? 0)%nat with false.
  change (S (S n) =? 1)%nat with false. cbv iota.
  rewrite Hlen. fold a b c d e f. rewrite Hfin. cbn [negb]. mat_run.
Qed.

Lemma setTransform_matrix_effect st ad a b c d e f sa sb sc sd se sf :
  current_transform st = Some (ad, [sa; sb; sc; sd; se; sf]) ->
  is_finite (a + b + c + d + e + f) = true ->
  wp (setTransform [VDOMMatrix a b c d e f]) st (fun o st' =>
    o = Normal undefined /\
    current_transform st' = Some (ad, [a; b; c; d; e; f])).
Proof.
  intros Hct Hfin. unfold setTransform. cbv zeta.
  change (arg 0 [VDOMMatrix a b c d e f]) with (VDOMMatrix a b c d e f).
  change (length [VDOMMatrix a b c d e f]) with 1.
  change (1 =? 0)%nat with false. change (1 =? 1)%nat with true.
  cbv iota. change (Number (VNum ?x)) with x.
  rewrite Hfin. cbn [negb]. mat_run.
Qed.

Lemma set_currentTransform_effect st ad a b c d e f sa sb sc sd se sf :
  current_transform st = Some (ad, [sa; sb; sc; sd; se; sf]) ->
  wp (set_currentTransform (VDOMMatrix a b c d e f)) st (fun o st' =>
    o = Normal undefined /\
    current_transform st' = Some (ad, [a; b; c; d; e; f])).
Proof. intros Hct. unfold set_currentTransform. mat_run. Qed.

Lemma resetTransform_effect st ad sa sb sc sd se sf :
  current_transform st = Some (ad, [sa; sb; sc; sd; se; sf]) ->
  wp resetTransform st (fun o st' =>
    o = Normal undefined /\
    current_transform st' = Some (ad, [1; 0; 0; 1; 0; 0]%float)).
Proof. intros Hct. unfold resetTransform. mat_run. Qed.

Lemma setTransform_empty_effect st ad sa sb sc sd se sf :
  current_transform st = Some (ad, [sa; sb; sc; sd; se; sf]) ->
  wp (setTransform []) st (fun o st' =>
    o = Normal undefined /\
    current_transform st' = Some (ad, [1; 0; 0; 1; 0; 0]%float)).
Proof.
  intros Hct. unfold setTransform. cbv zeta.
  change (length (@nil value)) with 0. change (0 =? 0)%nat with true.
  cbv iota. change (Number (VNum ?x)) with x.
  change (is_finite (1 + 0 + 0 + 1 + 0 + 0)) with true. cbn [negb].
  mat_run.
Qed.

Lemma getTransform_reads st ad a b c d e f :
  current_transform st = Some (ad, [a; b; c; d; e; f]) ->
  fst (exec CallGetTransform st) = Normal (Value (VDOMMatrix a b c d e f)) /\
  fst (exec GetCurrentTransform st) =
    Normal (Value (VDOMMatrix a b c d e f)).
Proof.
  intros H. cbn [exec].
  unfold getTransform, get_currentTransform, bind, gets, ret. simpl.
  rewrite H. split; reflexivity.
Qed.

(** X16.  The matrix can be assigned as a whole and read back.  From any
    state the context can reach: [setTransform] with six or more
    arguments whose coerced sum is finite makes [getTransform()] (and
    [currentTransform]) return exactly the six coerced arguments, whatever
    the matrix was before; [setTransform(m)] with a matrix object of
    finite sum, and the assignment [currentTransform = m] with any matrix
    object (no finite test is made there), make it return [m];
    [resetTransform()] and [setTransform()] make it return the
    identity. *)
Theorem assigned_matrix_is_read_back st :
  reachable st ->
  (forall args,
     6 <= length args ->
     let a := Number (arg 0 args) in
     let b := Number (arg 1 args) in
     let c := Number (arg 2 args) in
     let d := Number (arg 3 args) in
     let e := Number (arg 4 args) in
     let f := Number (arg 5 args) in
     is_finite (a + b + c + d + e + f) = true ->
     fst (exec CallGetTransform (after (CallSetTransform args) st)) =
       Normal (Value (VDOMMatrix a b c d e f))) /\
  (forall a b c d e f,
     is_finite (a + b + c + d + e + f) = true ->
     fst (exec CallGetTransform
            (after (CallSetTransform [VDOMMatrix a b c d e f]) st)) =
       Normal (Value (VDOMMatrix a b c d e f))) /\
  (forall a b c d e f,
     fst (exec GetCurrentTransform
            (after (SetCurrentTransform (VDOMMatrix a b c d e f)) st)) =
       Normal (Value (VDOMMatrix a b c d e f))) /\
  fst (exec CallGetTransform (after CallResetTransform st)) =
    Normal (Value (VDOMMatrix 1 0 0 1 0 0)) /\
  fst (exec CallGetTransform (after (CallSetTransform []) st)) =
    Normal (Value (VDOMMatrix 1 0 0 1 0 0)).
Proof.
  intros Hr.
  destruct (reachable_matrix st Hr) as (sa & sb & sc & sd & se & sf & Hm).
  apply current_matrix_transform in Hm. destruct Hm as [ad Hct].
  repeat split.
  - intros args Hlen a b c d e f Hfin.
    assert ((length args <? 6)%nat = false) as Hl
      by (apply Nat.ltb_ge; exact Hlen).
    pose proof (setTransform_effect st ad args _ _ _ _ _ _ Hct Hl Hfin) as H.
    unfold wp in H. destruct H as [_ H].
    exact (proj1 (getTransform_reads _ _ _ _ _ _ _ _ H)).
  - intros a b c d e f Hfin.
    pose proof (setTransform_matrix_effect st ad a b c d e f _ _ _ _ _ _
                  Hct Hfin) as H.
    unfold wp in H. destruct H as [_ H].
    exact (proj1 (getTransform_reads _ _ _ _ _ _ _ _ H)).
  - intros a b c d e f.
    pose proof (set_currentTransform_effect st ad a b c d e f _ _ _ _ _ _
                  Hct) as H.
    unfold wp in H. destruct H as [_ H].
    exact (proj2 (getTransform_reads _ _ _ _ _ _ _ _ H)).
  - pose proof (resetTransform_effect st ad _ _ _ _ _ _ Hct) as H.
    unfold wp in H. destruct H as [_ H].
    exact (proj1 (getTransform_reads _ _ _ _ _ _ _ _ H)).
  - pose proof (setTransform_empty_effect st ad _ _ _ _ _ _ Hct) as H.
    unfold wp in H. destruct H as [_ H].
    exact (proj1 (getTransform_reads _ _ _ _ _ _ _ _ H)).
Qed.

(** ** [drawImage] *)

(** The images [drawImage] draws: an instance of one of the four classes
    it tests for that is not a closed bitmap. *)
Definition drawn_image (img : value) : bool :=
  match img with
  | VHTMLImageElement _ _ | VHTMLVideoElement _ _ | VHTMLCanvasElement _ _ =>
      true
  | VImageBitmap closed _ _ => negb closed
  | _ => false
  end.

(** X17.  In the five-argument form [drawImage(img, dx, dy, dWidth,
    dHeight)] the size given is only tested for being finite: when the four
    coerced numbers sum to a finite number the call does exactly what
    [drawImage(img, dx, dy)] does, in every state and for every image
    (throwing in the same cases).  From a state the context can reach and
    for an image it draws, what both do is append to the two logs one
    record of type ["drawImage"] under the current matrix, whose source
    rectangle is [(0, 0, img.width, img.height)], whose destination is
    the coerced [(dx, dy)] and whose destination size is again
    [img.width] and [img.height], not the [dWidth] and [dHeight]
    given. *)
Theorem drawImage_ignores_the_given_size st img dx dy dWidth dHeight :
  is_finite (Number dx + Number dy + Number dWidth + Number dHeight) = true ->
  exec (CallDrawImage [img; dx; dy; dWidth; dHeight]) st =
  exec (CallDrawImage [img; dx; dy]) st /\
  (reachable st -> drawn_image img = true ->
   exists tr,
     current_matrix st = Some tr /\
     let e :=
       createCanvasEvent "drawImage" tr
         [("img", img); ("sx", VNum 0); ("sy", VNum 0);
          ("sWidth", get_field img "width");
          ("sHeight", get_field img "height");
          ("dx", VNum (Number dx)); ("dy", VNum (Number dy));
          ("dWidth", get_field img "width");
          ("dHeight", get_field img "height")] in
     exec (CallDrawImage [img; dx; dy; dWidth; dHeight]) st =
       (Normal undefined,
        with_drawCalls (_drawCalls st ++ [e])
          (with_events (_events st ++ [e]) st))).
Proof.
  intros Hfin.
  assert (is_finite (Number dx + Number dy) = true) as Hxy.
  { pose proof Hfin as H. apply finite_sum in H. destruct H as [H _].
    apply finite_sum in H. apply H. }
  split.
  - cbn [exec]. unfold drawImage. cbv zeta.
    change (length [img; dx; dy; dWidth; dHeight]) with 5.
    change (length [img; dx; dy]) with 3.
    change (arg 0 [img; dx; dy; dWidth; dHeight]) with img.
    change (arg 1 [img; dx; dy; dWidth; dHeight]) with dx.
    change (arg 2 [img; dx; dy; dWidth; dHeight]) with dy.
    change (arg 3 [img; dx; dy; dWidth; dHeight]) with dWidth.
    change (arg 4 [img; dx; dy; dWidth; dHeight]) with dHeight.
    change (arg 0 [img; dx; dy]) with img.
    change (arg 1 [img; dx; dy]) with dx.
    change (arg 2 [img; dx; dy]) with dy.
    cbn [Nat.ltb Nat.leb Nat.eqb orb andb].
    rewrite Hfin, Hxy. reflexivity.
  - intros Hr Himg.
    destruct (wf_current_transform st (reachable_wf st Hr))
      as (ad & tr & Hct & _).
    exists tr. split; [exact (current_matrix_of_transform st ad tr Hct)|].
    cbv zeta. cbn [exec]. unfold drawImage. cbv zeta.
    change (length [img; dx; dy; dWidth; dHeight]) with 5.
    change (arg 0 [img; dx; dy; dWidth; dHeight]) with img.
    change (arg 1 [img; dx; dy; dWidth; dHeight]) with dx.
    change (arg 2 [img; dx; dy; dWidth; dHeight]) with dy.
    change (arg 3 [img; dx; dy; dWidth; dHeight]) with dWidth.
    change (arg 4 [img; dx; dy; dWidth; dHeight]) with dHeight.
    cbn [Nat.ltb Nat.leb Nat.eqb orb andb].
    rewrite Hfin. cbn [negb].
    unfold bind, getTransformSlice, events_push, drawCalls_push, modify, ret,
      array_push.
    destruct img; try discriminate Himg;
      try (match goal with
           | closed : bool |- _ =>
               destruct closed; [discriminate Himg|]
           end);
      cbv iota beta; cbn [negb]; rewrite Hct; reflexivity.
Qed.

(** X18.  The argument counts [drawImage] refuses.  With fewer than three
    arguments it raises a [TypeError] that names the count given; with
    four, six, seven or eight it raises a [TypeError] whose message says
    "4 arguments provided" whichever of those counts was given.  The
    count is tested before the image, and the context is unchanged. *)
Theorem drawImage_refused_arities st args :
  (length args < 3 ->
   exec (CallDrawImage args) st =
     (Throw (TypeError (Failed "drawImage"
        +:+ "3 arguments required, but only "
        +:+ nat_to_string (length args) +:+ " present.")), st)) /\
  (In (length args) [4; 6; 7; 8] ->
   exec (CallDrawImage args) st =
     (Throw (TypeError (Failed "drawImage"
        +:+ "Valid arities are: [3, 5, 9], but 4 arguments provided.")),
      st)).
Proof.
  split.
  - intros H. cbn [exec]. unfold drawImage. cbv zeta.
    apply Nat.ltb_lt in H. rewrite H. reflexivity.
  - intros H. cbn [exec]. unfold drawImage. cbv zeta.
    simpl in H.
    destruct H as [H|[H|[H|[H|[]]]]]; rewrite <- H; reflexivity.
Qed.

(** ** Colours *)

Lemma parseCSSColor_rgba str r g b a :
  rgba (parseColor host str) = Some [r; g; b; a] ->
  (a =? 1)%float = false ->
  parseCSSColor str =
    Some ("rgba(" +:+ (NumberToString host r +:+ ", "
                       +:+ NumberToString host g +:+ ", "
                       +:+ NumberToString host b +:+ ", "
                       +:+ NumberToString host a) +:+ ")").
Proof.
  intros Hp Ha. unfold parseCSSColor. cbv zeta. rewrite Hp.
  cbv beta iota. change ([r; g; b; a] !! 3) with (Some a).
  cbv beta iota. rewrite Ha. reflexivity.
Qed.

Lemma parseCSSColor_shorthand str r g b a c1 c2 c3 :
  rgba (parseColor host str) = Some [r; g; b; a] ->
  (a =? 1)%float = true ->
  hex (parseColor host str) =
    Some (String "#" (String c1 (String c1 (String c2 (String c2
            (String c3 (String c3 ""))))))) ->
  parseCSSColor str = Some (String "#" (String c1 (String c2 (String c3 "")))).
Proof.
  intros Hp Ha Hh. unfold parseCSSColor. cbv zeta. rewrite Hp, Hh.
  cbv beta iota. change ([r; g; b; a] !! 3) with (Some a).
  cbv beta iota. rewrite Ha. cbn [negb].
  cbv iota. cbn [String.eqb String.get Nat.eqb].
  change (Ascii.eqb "#" _) with false. cbv iota.
  rewrite !bool_decide_eq_true_2 by reflexivity. reflexivity.
Qed.

Lemma parseCSSColor_none str :
  rgba (parseColor host str) = None ->
  hex (parseColor host str) = None ->
  parseCSSColor str = None.
Proof.
  intros Hp Hh. unfold parseCSSColor. cbv zeta. rewrite Hp, Hh. reflexivity.
Qed.

(** The setters test the result of [parseCSSColor] for truthiness; it is
    never the empty string. *)
Lemma parseCSSColor_truthy str result :
  parseCSSColor str = Some result -> Boolean (VStr result) = true.
Proof.
  unfold parseCSSColor. cbv zeta.
  destruct (match rgba (parseColor host str) with
            | Some l => _ | None => false end).
  - intros [= <-]. reflexivity.
  - destruct (hex (parseColor host str)) as [h|]; [|discriminate].
    destruct (String.eqb h "") eqn:Eh; [discriminate|].
    destruct (_ && _).
    + intros [= <-]. reflexivity.
    + intros [= <-]. simpl. rewrite Eh. reflexivity.
Qed.

Lemma set_style_stores st s type str result :
  parseCSSColor str = Some result ->
  fst (stack_read s (snd (set_style s type (VStr str) st))) =
    Normal (VStr result).
Proof.
  intros Hp. unfold set_style. cbv zeta. rewrite Hp.
  rewrite (parseCSSColor_truthy str result Hp).
  apply write_record_read.
Qed.

Lemma set_shadowColor_stores st str result :
  parseCSSColor str = Some result ->
  fst (stack_read _shadowColorStack (snd (set_shadowColor (VStr str) st))) =
    Normal (VStr result).
Proof.
  intros Hp. unfold set_shadowColor. rewrite Hp.
  rewrite (parseCSSColor_truthy str result Hp).
  apply write_record_read.
Qed.

Lemma color_stored st str result :
  parseCSSColor str = Some result ->
  fst (exec GetFillStyle (after (SetFillStyle (VStr str)) st)) =
    Normal (Value (VStr result)) /\
  fst (exec GetStrokeStyle (after (SetStrokeStyle (VStr str)) st)) =
    Normal (Value (VStr result)) /\
  fst (exec GetShadowColor (after (SetShadowColor (VStr str)) st)) =
    Normal (Value (VStr result)).
Proof.
  intros Hp. repeat split.
  - pose proof (set_style_stores st _fillStyleStack "fillStyle" str result Hp)
      as H.
    unfold after. cbn [exec]. unfold get_fillStyle, set_fillStyle.
    read_back H.
  - pose proof (set_style_stores st _strokeStyleStack "strokeStyle" str
                  result Hp) as H.
    unfold after. cbn [exec]. unfold get_strokeStyle, set_strokeStyle.
    read_back H.
  - pose proof (set_shadowColor_stores st str result Hp) as H.
    unfold after. cbn [exec]. unfold get_shadowColor.
    read_back H.
Qed.

Lemma color_ignored st str :
  parseCSSColor str = None ->
  exec (SetFillStyle (VStr str)) st = (Normal undefined, st) /\
  exec (SetStrokeStyle (VStr str)) st = (Normal undefined, st) /\
  exec (SetShadowColor (VStr str)) st = (Normal undefined, st).
Proof.
  intros Hp. cbn [exec].
  unfold set_fillStyle, set_strokeStyle, set_style, set_shadowColor.
  cbv zeta. rewrite Hp. repeat split.
Qed.

Definition color_attributes : list ((value -> call) * call) :=
  [(SetFillStyle, GetFillStyle); (SetStrokeStyle, GetStrokeStyle);
   (SetShadowColor, GetShadowColor)].

(** X19.  [fillStyle], [strokeStyle] and [shadowColor] store a colour in
    the normal form of [parseCSSColor], not as it was written.  With [p]
    the result of the colour parser on the assigned string: when [p] has
    four channels and the alpha is not 1, the getter afterwards returns
    ["rgba(r, g, b, a)"] built from the printed channels; when the alpha
    is 1 and the hex form is ["#aabbcc"] with each digit doubled, it
    returns the three-digit shorthand ["#abc"]; when the parser recognises
    nothing, the assignment neither throws nor changes the context. *)
Theorem colors_are_stored_in_normal_form st str :
  let p := parseColor host str in
  let N := NumberToString host in
  Forall (fun '(set, get) =>
    (forall r g b a,
       rgba p = Some [r; g; b; a] -> (a =? 1)%float = false ->
       fst (exec get (after (set (VStr str)) st)) =
         Normal (Value (VStr ("rgba(" +:+ (N r +:+ ", " +:+ N g +:+ ", "
                                           +:+ N b +:+ ", " +:+ N a)
                              +:+ ")")))) /\
    (forall r g b a c1 c2 c3,
       rgba p = Some [r; g; b; a] -> (a =? 1)%float = true ->
       hex p = Some (String "#" (String c1 (String c1 (String c2 (String c2
                       (String c3 (String c3 ""))))))) ->
       fst (exec get (after (set (VStr str)) st)) =
         Normal (Value (VStr (String "#" (String c1 (String c2
                                (String c3 ""))))))) /\
    (rgba p = None -> hex p = None ->
     exec (set (VStr str)) st = (Normal undefined, st)))
    color_attributes.
Proof.
  intros p N. unfold color_attributes.
  repeat first [apply Forall_nil_2 | apply Forall_cons_2];
    (split; [|split]);
    first
    [ intros r g b a c1 c2 c3 Hp Ha Hh;
      apply (color_stored st str _
               (parseCSSColor_shorthand str r g b a c1 c2 c3 Hp Ha Hh))
    | intros r g b a Hp Ha;
      apply (color_stored st str _ (parseCSSColor_rgba str r g b a Hp Ha))
    | intros Hp Hh;
      apply (color_ignored st str (parseCSSColor_none str Hp Hh)) ].
Qed.

(** X20.  What [fillStyle] and [strokeStyle] take besides a colour: a
    gradient or a pattern object is stored as it is and returned by the
    getter; any other value that is not a string (a number, [null], an
    image) is ignored without a failure.  [shadowColor] ignores every
    value that is not a string, gradients and patterns included. *)
Theorem styles_take_gradients_and_patterns st :
  (forall v, v = VCanvasGradient \/ v = VCanvasPattern ->
     fst (exec GetFillStyle (after (SetFillStyle v) st)) = Normal (Value v) /\
     fst (exec GetStrokeStyle (after (SetStrokeStyle v) st)) =
       Normal (Value v)) /\
  (forall v,
     (forall str, v <> VStr str) ->
     v <> VCanvasGradient -> v <> VCanvasPattern ->
     exec (SetFillStyle v) st = (Normal undefined, st) /\
     exec (SetStrokeStyle v) st = (Normal undefined, st)) /\
  (forall v,
     (forall str, v <> VStr str) ->
     exec (SetShadowColor v) st = (Normal undefined, st)).
Proof.
  split; [|split].
  - intros v H. split.
    + pose proof (write_record_read st _fillStyleStack v "fillStyle"
                    [("value", v)]) as Hw.
      unfold after. cbn [exec].
      unfold get_fillStyle, set_fillStyle, set_style.
      cbv zeta. destruct H as [-> | ->]; read_back Hw.
    + pose proof (write_record_read st _strokeStyleStack v "strokeStyle"
                    [("value", v)]) as Hw.
      unfold after. cbn [exec].
      unfold get_strokeStyle, set_strokeStyle, set_style.
      cbv zeta. destruct H as [-> | ->]; read_back Hw.
  - intros v Hs Hg Hp. cbn [exec].
    unfold set_fillStyle, set_strokeStyle, set_style. cbv zeta.
    destruct v; try (split; reflexivity); exfalso;
      first [exact (Hs _ eq_refl) | exact (Hg eq_refl) | exact (Hp eq_refl)].
  - intros v Hs. cbn [exec]. unfold set_shadowColor.
    destruct v; try reflexivity. exfalso. exact (Hs _ eq_refl).
Qed.

(** ** The setters that make no test *)

Lemma catch_swallowed_state {A} (m : M A) (a : A) st :
  snd (catch m (fun _ => ret a) st) = snd (m st).
Proof. unfold catch, ret. destruct (m st) as [[r|e] st']; reflexivity. Qed.

Lemma set_filter_stores st v :
  fst (exec GetFilter (after (SetFilter v) st)) =
    Normal (Value (match (if str_is v "" then VStr "none" else v) with
                   | VStr s => VStr s
                   | _ => VStr "none"
                   end)).
Proof.
  set (w := match (if str_is v "" then VStr "none" else v) with
            | VStr s => VStr s
            | _ => VStr "none"
            end).
  pose proof (write_record_read st _filterStack w "filter" [("value", w)])
    as H.
  unfold after. cbn [exec]. unfold get_filter, set_filter. cbv zeta.
  assert (match (if str_is v "" then VStr "none" else v) with
          | VStr _ => if str_is v "" then VStr "none" else v
          | _ => VStr "none"
          end = w) as ->.
  { unfold w. destruct (if str_is v "" then VStr "none" else v); reflexivity. }
  read_back H.
Qed.

(** X21.  Three attributes whose setter makes no test of its own.
    [filter] stores any non-empty string as it is and stores ["none"] for
    the empty string and for every value that is not a string;
    [imageSmoothingEnabled] stores the truth value of whatever is
    assigned; [font] stores the string the font parser produces and, when
    the parser fails, swallows the failure and leaves the context as it
    was.  In each case the getter returns what was stored. *)
Theorem filter_smoothing_and_font_assignments st :
  (forall s, s <> "" ->
     fst (exec GetFilter (after (SetFilter (VStr s)) st)) =
       Normal (Value (VStr s))) /\
  (forall v, (forall s, s <> "" -> v <> VStr s) ->
     fst (exec GetFilter (after (SetFilter v) st)) =
       Normal (Value (VStr "none"))) /\
  (forall v,
     fst (exec GetImageSmoothingEnabled
            (after (SetImageSmoothingEnabled v) st)) =
       Normal (Value (VBool (Boolean v)))) /\
  (forall v result, cssfontparser host v = Some result ->
     fst (exec GetFont (after (SetFont v) st)) =
       Normal (Value (VStr result))) /\
  (forall v, cssfontparser host v = None ->
     exec (SetFont v) st = (Normal undefined, st)).
Proof.
  repeat split.
  - intros s Hs. rewrite set_filter_stores. simpl.
    destruct (String.eqb s "") eqn:E; [|reflexivity].
    apply String.eqb_eq in E. contradiction.
  - intros v Hv. rewrite set_filter_stores.
    destruct v; try reflexivity. simpl.
    destruct (String.eqb s "") eqn:E; [reflexivity|].
    exfalso. apply (Hv s); [|reflexivity].
    intros ->. discriminate E.
  - intros v.
    pose proof (write_record_read st _imageSmoothingEnabledStack
                  (VBool (Boolean v)) "imageSmoothingEnabled"
                  [("value", VBool (Boolean v))]) as H.
    unfold after. cbn [exec].
    unfold get_imageSmoothingEnabled, set_imageSmoothingEnabled. cbv zeta.
    read_back H.
  - intros v result Hp.
    pose proof (write_record_read st _fontStack (VStr result) "font"
                  [("value", VStr result)]) as H.
    unfold after. cbn [exec]. unfold get_font, set_font.
    rewrite Hp, catch_swallowed_state. read_back H.
  - intros v Hp. cbn [exec]. unfold set_font. rewrite Hp. reflexivity.
Qed.

(** ** Painting and clipping the path *)

Ltac run_on Hct :=
  cbn [exec];
  unfold fill, stroke, clip, path_and_fillRule, isPointInPath,
    isPointInStroke, bind, gets, ret, throw, getTransformSlice, events_push,
    drawCalls_push, path_push, modify, array_push;
  simpl; rewrite ?Hct; simpl.

(** X22.  [fill], [stroke] and [clip] record the path as it is when they
    are called, under the matrix in force.  Without an argument they take
    the context's own path; given a [Path2D] they take that object's
    segments and do not look at the context's path.  [fill] and [stroke]
    append the record to both logs and leave the path alone; [clip]
    appends its record to the event log and to the path itself, so the
    record of a later [fill] contains the [clip] record, which in turn
    contains the path before it. *)
Theorem fill_stroke_and_clip_record_the_path st :
  reachable st ->
  exists tr,
    current_matrix st = Some tr /\
    let filled p :=
      createCanvasEvent "fill" tr
        [("path", VEvents p); ("fillRule", VStr "nonzero")] in
    let stroked p := createCanvasEvent "stroke" tr [("path", VEvents p)] in
    let clipped p :=
      createCanvasEvent "clip" tr
        [("path", VEvents p); ("fillRule", VStr "nonzero")] in
    let painted e :=
      with_drawCalls (_drawCalls st ++ [e])
        (with_events (_events st ++ [e]) st) in
    let clipping e :=
      with_events (_events st ++ [e]) (with_path (_path st ++ [e]) st) in
    exec (CallFill []) st = (Normal undefined, painted (filled (_path st))) /\
    exec (CallStroke []) st =
      (Normal undefined, painted (stroked (_path st))) /\
    exec (CallClip []) st =
      (Normal undefined, clipping (clipped (_path st))) /\
    (forall segments,
       exec (CallFill [VPath2D segments]) st =
         (Normal undefined, painted (filled segments)) /\
       exec (CallStroke [VPath2D segments]) st =
         (Normal undefined, painted (stroked segments)) /\
       exec (CallClip [VPath2D segments]) st =
         (Normal undefined, clipping (clipped segments))) /\
    _path (after (CallClip []) (after (CallClip []) st)) =
      _path st ++ [clipped (_path st);
                   clipped (_path st ++ [clipped (_path st)])].
Proof.
  intros Hr.
  destruct (wf_current_transform st (reachable_wf st Hr))
    as (ad & tr & Hct & _).
  exists tr. split; [apply (current_matrix_of_transform st ad), Hct|].
  cbv zeta. repeat split; try (intros segments; repeat split);
    try (run_on Hct; reflexivity).
  unfold after. run_on Hct.
  unfold current_transform in Hct |- *. simpl. rewrite Hct. simpl.
  rewrite <- app_assoc. reflexivity.
Qed.

Lemma path_and_fillRule_state args st :
  snd (path_and_fillRule args st) = st.
Proof.
  unfold path_and_fillRule.
  destruct args as [|path rest]; [reflexivity|].
  cbv zeta. destruct (arg 0 (path :: rest)); cbv beta iota;
    repeat match goal with
           | |- context [if ?b then _ else _] => destruct b
           end; reflexivity.
Qed.

(** X23.  [fill] and [clip] check their arguments with the same code:
    from a state the context can reach, one of them fails on given
    arguments exactly when the other does, and with the same exception.
    In particular a fill rule that is neither ["nonzero"] nor ["evenodd"]
    makes [fill] raise the [TypeError] whose message names [clip]. *)
Theorem fill_and_clip_share_their_check st args :
  reachable st ->
  (forall e,
     fst (exec (CallFill args) st) = Throw e <->
     fst (exec (CallClip args) st) = Throw e) /\
  (forall segments rule,
     args = [VPath2D segments; rule] ->
     ToString rule <> "nonzero" -> ToString rule <> "evenodd" ->
     exec (CallFill args) st =
       (Throw (TypeError (Failed "clip" +:+ "The provided value '"
          +:+ ToString rule
          +:+ "' is not a valid enum value of type CanvasFillRule.")), st)).
Proof.
  intros Hr. split.
  - intros e.
    pose proof (path_and_fillRule_state args st) as Hst.
    cbn [exec]. unfold fill, clip, bind.
    destruct (path_and_fillRule args st) as [[pf|e'] st1]; simpl in Hst;
      [|tauto].
    subst st1.
    destruct (wf_current_transform st (reachable_wf st Hr))
      as (ad & tr & Hct & _).
    unfold getTransformSlice. rewrite Hct. simpl. split; discriminate.
  - intros segments rule -> H1 H2. cbn [exec].
    unfold fill, path_and_fillRule, bind.
    change (arg 0 [VPath2D segments; rule]) with (VPath2D segments).
    change (arg 1 [VPath2D segments; rule]) with rule.
    change (length [VPath2D segments; rule] =? 1)%nat with false.
    cbv beta iota zeta.
    apply String.eqb_neq in H1, H2. rewrite H1, H2. reflexivity.
Qed.

(** X24.  The two hit tests never answer [true].  From a state the context
    can reach, [isPointInStroke] with at least two arguments returns
    [false] and appends exactly one event, whose type is ["isPointInPath"]
    (the type [isPointInPath] itself records); with fewer it raises a
    [TypeError].  [isPointInPath] on any arguments either raises or
    returns [false].  Neither touches the path or the draw calls. *)
Theorem hit_tests_answer_false st args :
  reachable st ->
  (2 <= length args ->
   exists e,
     ev_type e = "isPointInPath" /\
     exec (CallIsPointInStroke args) st =
       (Normal (Value (VBool false)), with_events (_events st ++ [e]) st)) /\
  (length args < 2 ->
   exists message,
     exec (CallIsPointInStroke args) st = (Throw (TypeError message), st)) /\
  ((exists e, exec (CallIsPointInPath args) st = (Throw e, st)) \/
   (exists e,
     ev_type e = "isPointInPath" /\
     exec (CallIsPointInPath args) st =
       (Normal (Value (VBool false)), with_events (_events st ++ [e]) st))).
Proof.
  intros Hr.
  destruct (wf_current_transform st (reachable_wf st Hr))
    as (ad & tr & Hct & _).
  repeat split.
  - intros Hlen. apply Nat.ltb_ge in Hlen.
    eexists. split; [|cbn [exec]; unfold isPointInStroke; cbv zeta;
                      rewrite Hlen;
                      unfold bind, gets, ret, getTransformSlice, events_push,
                        modify, array_push; rewrite Hct; reflexivity].
    reflexivity.
  - intros Hlen. apply Nat.ltb_lt in Hlen.
    eexists. cbn [exec]. unfold isPointInStroke. cbv zeta.
    rewrite Hlen. reflexivity.
  - cbn [exec]. unfold isPointInPath. cbv zeta.
    destruct (length args <? 2)%nat; [left; eexists; reflexivity|].
    match goal with
    | |- context [if ?b then throw _ else _] => destruct b
    end; [left; eexists; reflexivity|].
    right. eexists.
    split; [|unfold bind, gets, ret, getTransformSlice, events_push,
               modify, array_push; rewrite Hct; reflexivity].
    reflexivity.
Qed.

(** ** The logs over a sequence of calls *)

Lemma reachable_run cs st : reachable st -> reachable (run cs st).
Proof.
  revert st. induction cs as [|c cs IH]; intros st Hr; [exact Hr|].
  apply IH. constructor. exact Hr.
Qed.

(** X25.  The two logs only grow.  Along any sequence of calls from a state
    the context can reach, what was in the event log and in the draw-call
    log stays there, in place, as a prefix; the event log gains at most
    one entry per call; and the draw-call log is unchanged when none of
    the calls is one of the eight painting methods. *)
Theorem logs_only_grow st cs :
  reachable st ->
  _events st `prefix_of` _events (run cs st) /\
  _drawCalls st `prefix_of` _drawCalls (run cs st) /\
  length (_events (run cs st)) <= length (_events st) + length cs /\
  (Forall (fun c => paints c = false) cs ->
   _drawCalls (run cs st) = _drawCalls st).
Proof.
  revert st. induction cs as [|c cs IH]; intros st Hr.
  - simpl. repeat split; try reflexivity. lia.
  - destruct (IH (after c st) (reachable_call c st Hr))
      as (He & Hd & Hl & Hp).
    destruct (logs_after c st (reachable_wf st Hr))
      as (evs & Hevs & Hev & Hdc).
    change (run (c :: cs) st) with (run cs (after c st)).
    repeat split.
    + etrans; [|exact He]. rewrite Hev. apply prefix_app_r. reflexivity.
    + etrans; [|exact Hd]. rewrite Hdc. apply prefix_app_r. reflexivity.
    + rewrite Hev, length_app in Hl. simpl. lia.
    + intros Hall. apply Forall_cons in Hall. destruct Hall as [Hc Hall].
      rewrite (Hp Hall), Hdc, Hc. apply app_nil_r.
Qed.

(** ** Patterns *)

(** X26.  The repetition argument of [createPattern].  [null] and the
    empty string stand for ["repeat"]: the call does, and records, exactly
    what it does with ["repeat"].  Any other value that is not one of
    ["repeat"], ["repeat-x"], ["repeat-y"], ["no-repeat"] raises a
    [TypeError] quoting the value, whatever the image is (the repetition
    is checked before the image), and changes nothing. *)
Theorem createPattern_repetition st image rest :
  exec (CallCreatePattern (image :: VNull :: rest)) st =
    exec (CallCreatePattern (image :: VStr "repeat" :: rest)) st /\
  exec (CallCreatePattern (image :: VStr "" :: rest)) st =
    exec (CallCreatePattern (image :: VStr "repeat" :: rest)) st /\
  (forall type,
     type <> VNull ->
     (forall s, In s [""; "repeat"; "repeat-x"; "repeat-y"; "no-repeat"] ->
                type <> VStr s) ->
     exec (CallCreatePattern (image :: type :: rest)) st =
       (Throw (TypeError (Failed "createPattern" +:+ "The provided type ('"
          +:+ ToString type
          +:+ "') is not one of 'repeat', 'no-repeat', 'repeat-x', or 'repeat-y'.")),
        st)).
Proof.
  split; [reflexivity|]. split; [reflexivity|].
  intros type Hn Hs. cbn [exec]. unfold createPattern. cbv zeta.
  change (length (image :: type :: rest) =? 1)%nat with false.
  change (arg 1 (image :: type :: rest)) with type.
  cbv iota.
  assert (forall s, In s [""; "repeat"; "repeat-x"; "repeat-y"; "no-repeat"] ->
                    str_is type s = false) as Hf.
  { intros s Hin. destruct type; try reflexivity. simpl.
    apply String.eqb_neq. intros ->. exact (Hs s Hin eq_refl). }
  assert (match type with VNull => VStr "repeat" | _ => type end = type)
    as -> by (destruct type; try reflexivity; contradiction).
  rewrite (Hf "") by (simpl; auto).
  rewrite !Hf by (simpl; auto 10). reflexivity.
Qed.

End WithHost.

(** * Closed instances

    The statements above, run on the concrete host [sample_host] and a
    fresh context. *)

Definition fresh : context := new_context VUndefined.

(** The largest power of two among the numbers: finite, but its double is
    not. *)
Definition big : float := 0x1p1023%float.

Lemma floats_differ (x y : float) :
  (x =? x)%float = true -> (x =? y)%float = false -> x <> y.
Proof. intros Hx Hxy E. rewrite <- E in Hxy. congruence. Qed.

Lemma save_restore_symmetry_witness :
  reachable sample_host fresh /\
  same_frames fresh
    (after sample_host CallRestore (after sample_host CallSave fresh)).
Proof.
  split.
  - apply reachable_new.
  - apply (save_restore_symmetry sample_host fresh
             (reachable_new sample_host VUndefined)).
Defined.

Lemma event_drawcall_subset_law_witness :
  let st :=
    after sample_host (CallFillRect [VNum 0; VNum 0; VNum 1; VNum 1])
      (after sample_host CallSave fresh) in
  reachable sample_host st /\ _drawCalls st `sublist_of` _events st.
Proof.
  split.
  - do 2 apply reachable_call. apply reachable_new.
  - apply (event_drawcall_subset_law sample_host).
    do 2 apply reachable_call. apply reachable_new.
Defined.

Lemma raised_failure_is_atomic_witness :
  let c := CallArc [VNum 1; VNum 2; VNum 3; VNum 4] in
  let e :=
    TypeError
      "Failed to execute 'arc' on 'CanvasRenderingContext2D': 5 arguments required, but only 4 present." in
  reachable sample_host fresh /\
  fst (exec sample_host c fresh) = Throw e /\
  after sample_host c fresh = fresh.
Proof.
  split; [apply reachable_new|]. split; [reflexivity|].
  apply (raised_failure_is_atomic sample_host
           (CallArc [VNum 1; VNum 2; VNum 3; VNum 4]) fresh
           (TypeError
              "Failed to execute 'arc' on 'CanvasRenderingContext2D': 5 arguments required, but only 4 present.")).
  - apply reachable_new.
  - reflexivity.
Defined.

(** One call for each kind of failure the class raises: too few
    arguments, a negative radius ([arc], [arcTo], [ellipse],
    [createRadialGradient]), a fill rule or pattern type outside the
    allowed set, an argument of the wrong type, a detached image. *)
Definition failing_calls : list call :=
  [CallArc [VNum 1; VNum 2; VNum 3; VNum 4];
   CallArc [VNum 0; VNum 0; VNum (-1); VNum 0; VNum 1];
   CallArcTo [VNum 0; VNum 0; VNum 1; VNum 1; VNum (-1)];
   CallEllipse [VNum 0; VNum 0; VNum (-1); VNum 1; VNum 0; VNum 0; VNum 1];
   CallCreateRadialGradient
     [VNum 0; VNum 0; VNum (-1); VNum 0; VNum 0; VNum 1];
   CallFill [VStr "odd"];
   CallClip [VPath2D []; VStr "odd"];
   CallCreatePattern [VHTMLImageElement (VNum 1) (VNum 1); VStr "tile"];
   CallStroke [VNum 1];
   CallPutImageData [VNum 1; VNum 0; VNum 0];
   CallSetLineDash [VNum 1];
   CallCreatePattern [VImageBitmap true (VNum 1) (VNum 1); VStr "repeat"];
   CallDrawImage [VImageBitmap true (VNum 1) (VNum 1); VNum 0; VNum 0]].

Lemma failing_calls_throw_and_change_nothing :
  Forall (fun c =>
            (exists e, fst (exec sample_host c fresh) = Throw e) /\
            after sample_host c fresh = fresh)
    failing_calls.
Proof. repeat constructor; eexists; reflexivity. Qed.

Lemma shadowOffsetY_aliases_shadowOffsetX_witness :
  is_finite 3 = true /\
  fst (exec sample_host GetShadowOffsetX
         (after sample_host (SetShadowOffsetY (VNum 3)) fresh))
    = Normal (Value (VNum 3)).
Proof.
  split; [reflexivity|].
  apply (shadowOffsetY_aliases_shadowOffsetX sample_host fresh 3 eq_refl).
Defined.

Lemma miterLimit_recorded_as_lineWidth_witness :
  reachable sample_host fresh /\ is_finite 5 = true /\
  (0 <? 5)%float = true /\
  _events (after sample_host (SetMiterLimit (VNum 5)) fresh) =
    _events (after sample_host (SetLineWidth (VNum 5)) fresh).
Proof.
  split; [apply reachable_new|]. split; [reflexivity|].
  split; [reflexivity|].
  apply (miterLimit_recorded_as_lineWidth sample_host fresh 5
           (reachable_new sample_host VUndefined) eq_refl eq_refl).
Defined.

Lemma transform_composition_witness :
  let overflowing :=
    [VNum big; VNum big; VNum 0; VNum 0; VNum 0; VNum 0] in
  current_matrix fresh = Some identity_matrix /\
  Math_cos sample_host 0 = 1%float /\ Math_sin sample_host 0 = 0%float /\
  current_matrix
    (after sample_host
       (CallTransform [VNum 2; VNum 0; VNum 0; VNum 2; VNum 5; VNum 7]) fresh)
    = Some [2; 0; 0; 2; 5; 7]%float /\
  Forall (fun v => Number_isFinite v = true) overflowing /\
  exec sample_host (CallTransform overflowing) fresh =
    (Normal undefined, fresh) /\
  current_matrix
    (after sample_host (CallRotate [VNum 0])
       (after sample_host (CallTranslate [VNum 10; VNum 0]) fresh))
    = current_matrix
        (after sample_host (CallTranslate [VNum 10; VNum 0]) fresh).
Proof.
  pose proof (transform_composition sample_host fresh)
    as (Hproduct & _ & (Hfinite & Hdropped) & _ & Hrotate & _).
  split; [reflexivity|]. split; [reflexivity|]. split; [reflexivity|].
  split; [|split; [exact Hfinite|split; [exact Hdropped|]]].
  - apply (Hproduct [VNum 2; VNum 0; VNum 0; VNum 2; VNum 5; VNum 7]
             1 0 0 1 0 0 eq_refl)%float.
    + simpl. lia.
    + reflexivity.
  - apply (Hrotate eq_refl eq_refl eq_refl).
Defined.

(** The failing input of C2 on a fresh context.  The six arguments of
    [transform(2^1023, 2^1023, 0, 0, 0, 0)] are finite, and so is the
    product of the identity with them, [(2^1023, 2^1023, 0, 0, 0, 0)]; yet
    the call changes nothing and the matrix stays the identity.  The
    sibling [scale], which tests its arguments one by one, applies
    [scale(2^1023, 2^1023)]. *)
Lemma transform_overflowing_sum_instance :
  let args := [VNum big; VNum big; VNum 0; VNum 0; VNum 0; VNum 0] in
  Forall (fun v => Number_isFinite v = true) args /\
  current_matrix fresh = Some [1; 0; 0; 1; 0; 0]%float /\
  after sample_host (CallTransform args) fresh = fresh /\
  current_matrix (after sample_host (CallTransform args) fresh) <>
    Some [1 * big + 0 * big; 0 * big + 1 * big; 1 * 0 + 0 * 0;
          0 * 0 + 1 * 0; 1 * 0 + 0 * 0 + 0; 0 * 0 + 1 * 0 + 0]%float /\
  current_matrix (after sample_host (CallScale [VNum big; VNum big]) fresh) =
    Some [big; 0; 0; big; 0; 0]%float.
Proof.
  split; [repeat constructor|]. split; [reflexivity|].
  split; [reflexivity|]. split; [|reflexivity].
  intros H.
  apply (f_equal (fun m => match m with
                           | Some (x :: _) => x
                           | _ => 0%float
                           end)) in H.
  revert H. apply floats_differ; reflexivity.
Qed.

(** [rotate(0)] after [translate(10, 0)] gives back the translated matrix
    on the identity, but not on every matrix the context can reach: after
    [scale(2^1023, 2^1023)] twice the matrix is [(inf, 0, 0, inf, 0, 0)],
    and [rotate(0)] then stores [0 * 1 + inf * 0], which is not a number,
    over the second entry. *)
Lemma rotate_zero_on_an_infinite_matrix :
  let st :=
    after sample_host (CallScale [VNum big; VNum big])
      (after sample_host (CallScale [VNum big; VNum big]) fresh) in
  let translated := after sample_host (CallTranslate [VNum 10; VNum 0]) st in
  reachable sample_host st /\
  current_matrix translated =
    Some [infinity; 0; 0; infinity; infinity; nan]%float /\
  current_matrix (after sample_host (CallRotate [VNum 0]) translated) <>
    current_matrix translated.
Proof.
  split; [do 2 apply reachable_call; apply reachable_new|].
  split; [reflexivity|].
  intros H.
  apply (f_equal (fun m => match m with
                           | Some (_ :: x :: _) => x
                           | _ => 0%float
                           end)) in H.
  symmetry in H. revert H. apply floats_differ; reflexivity.
Qed.

Lemma arc_arity_witness :
  let overflowing := [VNum big; VNum big; VNum 1; VNum 0; VNum 1] in
  exec sample_host (CallArc [VNum 1; VNum 2; VNum 3; VNum 4]) fresh =
    (Throw (TypeError
       "Failed to execute 'arc' on 'CanvasRenderingContext2D': 5 arguments required, but only 4 present."),
     fresh) /\
  reachable sample_host fresh /\
  (exists e,
    ev_type e = "arc" /\
    exec sample_host (CallArc [VNum 1; VNum 2; VNum 3; VNum 0; VNum 1]) fresh =
      (Normal undefined,
       with_events (_events fresh ++ [e])
         (with_path (_path fresh ++ [e]) fresh))) /\
  Forall (fun v => Number_isFinite v = true) overflowing /\
  exec sample_host (CallArc overflowing) fresh = (Normal undefined, fresh).
Proof.
  split; [|split; [apply reachable_new|split]].
  - apply (proj1 (arc_arity sample_host fresh
                    [VNum 1; VNum 2; VNum 3; VNum 4])).
    simpl. lia.
  - apply (proj1 (proj1 (proj2 (arc_arity sample_host fresh
                                  [VNum 1; VNum 2; VNum 3; VNum 0; VNum 1]))
                    (le_n 5)) eq_refl eq_refl
                 (reachable_new sample_host VUndefined)).
  - destruct (proj2 (proj2 (arc_arity sample_host fresh [])))
      as (_ & Hfinite & _ & Hdropped).
    split; [exact Hfinite | exact Hdropped].
Defined.

(** The failing input of C8 on a fresh context.
    [arc(2^1023, 2^1023, 1, 0, 1)] has five finite arguments and a radius
    that is not negative; it raises nothing, but it appends neither a
    segment nor an event.  With the same magnitudes in
    [arc(2^1023, -2^1023, 1, 0, 1)] the sum does not overflow, and the
    call is recorded. *)
Lemma arc_overflowing_sum_instance :
  let args := [VNum big; VNum big; VNum 1; VNum 0; VNum 1] in
  let others := [VNum big; VNum (- big); VNum 1; VNum 0; VNum 1] in
  length args = 5 /\
  Forall (fun v => Number_isFinite v = true) args /\
  (Number sample_host (arg 2 args) <? 0)%float = false /\
  exec sample_host (CallArc args) fresh = (Normal undefined, fresh) /\
  _path (after sample_host (CallArc args) fresh) = _path fresh /\
  _events (after sample_host (CallArc args) fresh) = [] /\
  Forall (fun v => Number_isFinite v = true) others /\
  length (_events (after sample_host (CallArc others) fresh)) = 1 /\
  length (_path (after sample_host (CallArc others) fresh)) = 2.
Proof. repeat split; repeat constructor. Qed.

(** The failing input of C4: the four strings coerce to the finite numbers
    1, 2, 3 and 4, [fillRect] returns without recording anything, and the
    sibling [strokeRect] records the call. *)
Lemma numeric_strings_instance :
  let args := [VStr "1"; VStr "2"; VStr "3"; VStr "4"] in
  map (Number sample_host) args = [1; 2; 3; 4]%float /\
  exec sample_host (CallFillRect args) fresh = (Normal undefined, fresh) /\
  length (_events (after sample_host (CallStrokeRect args) fresh)) = 1.
Proof. repeat split. Qed.

(** ** Instances of the further properties *)

Lemma path_methods_ignore_non_finite_witness :
  let args := [VNum infinity; VNum 0] in
  2 <= length args /\ some_not_finite sample_host 2 args /\
  exec sample_host (CallLineTo args) fresh = (Normal undefined, fresh).
Proof.
  split; [simpl; lia|]. split; [exists 0; split; [lia|reflexivity]|].
  apply (proj1 (path_methods_ignore_non_finite sample_host fresh
                  [VNum infinity; VNum 0])).
  - simpl. lia.
  - exists 0. split; [lia|reflexivity].
Defined.

Lemma transform_methods_ignore_non_finite_witness :
  let args := [VNum 1; VNum nan] in
  2 <= length args /\ some_not_finite sample_host 2 args /\
  exec sample_host (CallScale args) fresh = (Normal undefined, fresh).
Proof.
  split; [simpl; lia|]. split; [exists 1; split; [lia|reflexivity]|].
  apply (proj1 (proj2 (transform_methods_ignore_non_finite sample_host fresh
                         [VNum 1; VNum nan]))).
  - simpl. lia.
  - exists 1. split; [lia|reflexivity].
Defined.

Lemma gradients_reject_non_finite_witness :
  let args := [VNum 0; VNum 0; VNum infinity; VNum 0] in
  4 <= length args /\ some_not_finite sample_host 4 args /\
  exec sample_host (CallCreateLinearGradient args) fresh =
    (Throw (TypeError
       "Failed to execute 'createLinearGradient' on 'CanvasRenderingContext2D': The provided double value is non-finite."),
     fresh).
Proof.
  split; [simpl; lia|]. split; [exists 2; split; [lia|reflexivity]|].
  apply (proj1 (gradients_reject_non_finite sample_host fresh
                  [VNum 0; VNum 0; VNum infinity; VNum 0])).
  - simpl. lia.
  - exists 2. split; [lia|reflexivity].
Defined.

Lemma stacks_stay_parallel_witness :
  let st := after sample_host CallSave fresh in
  reachable sample_host st /\
  (forall s, length (stacks st s) = 2) /\
  length (_lineDashStack st) = 2 /\
  length (_transformStack st) = 2.
Proof.
  split; [apply reachable_call, reachable_new|].
  apply (stacks_stay_parallel sample_host (after sample_host CallSave fresh)).
  apply reachable_call, reachable_new.
Defined.

Lemma depth_changes_only_by_save_and_restore_witness :
  reachable sample_host fresh /\
  _stackIndex (after sample_host CallSave fresh) = 1 /\
  _stackIndex (after sample_host CallRestore fresh) = 0 /\
  (forall c, is_save_restore c = false ->
             _stackIndex (after sample_host c fresh) = 0).
Proof.
  split; [apply reachable_new|].
  apply (depth_changes_only_by_save_and_restore sample_host fresh).
  apply reachable_new.
Defined.

Lemma matrix_changes_only_by_transform_calls_witness :
  let st := after sample_host (CallScale [VNum 2; VNum 3]) fresh in
  reachable sample_host st /\
  writes_transform CallSave = false /\
  current_matrix (after sample_host CallSave st) = current_matrix st.
Proof.
  split; [apply reachable_call, reachable_new|]. split; [reflexivity|].
  apply (matrix_changes_only_by_transform_calls sample_host
           (after sample_host (CallScale [VNum 2; VNum 3]) fresh) CallSave).
  - apply reachable_call, reachable_new.
  - reflexivity.
Defined.

Lemma save_loses_the_line_width_witness :
  reachable sample_host fresh /\
  fst (exec sample_host GetLineWidth fresh) = Normal (Value (VNum 1)) /\
  fst (exec sample_host GetLineWidth (after sample_host CallSave fresh)) =
    Normal (Value VUndefined).
Proof.
  split; [apply reachable_new|]. split; [reflexivity|].
  apply (save_loses_the_line_width sample_host fresh).
  apply reachable_new.
Defined.

Lemma dash_list_has_even_length_witness :
  let st :=
    after sample_host (CallSetLineDash [VArray [VNum 1; VNum 2; VNum 3]])
      fresh in
  reachable sample_host st /\
  exists l, current_lineDash st = Some l /\ Nat.even (length l) = true.
Proof.
  split; [apply reachable_call, reachable_new|].
  apply (dash_list_has_even_length sample_host).
  apply reachable_call, reachable_new.
Defined.

Lemma restore_returns_to_the_saved_frame_witness :
  let cs := [SetLineCap (VStr "round"); CallTranslate [VNum 10; VNum 0]] in
  let opened := after sample_host CallSave fresh in
  let closed := after sample_host CallRestore (run sample_host cs opened) in
  reachable sample_host fresh /\
  stays_above sample_host (_stackIndex fresh) cs opened /\
  _stackIndex (run sample_host cs opened) = _stackIndex fresh + 1 /\
  fst (exec sample_host GetLineCap (run sample_host cs opened)) =
    Normal (Value (VStr "round")) /\
  _stackIndex closed = _stackIndex fresh /\
  (forall s, stacks closed s = stacks fresh s) /\
  _lineDashStack closed = _lineDashStack fresh /\
  current_lineDash closed = current_lineDash fresh.
Proof.
  split; [apply reachable_new|].
  split; [vm_compute; repeat split; lia|].
  split; [reflexivity|]. split; [reflexivity|].
  apply (restore_returns_to_the_saved_frame sample_host fresh
           [SetLineCap (VStr "round"); CallTranslate [VNum 10; VNum 0]]).
  - apply reachable_new.
  - vm_compute. repeat split; lia.
  - reflexivity.
Defined.

Lemma calls_leave_other_attributes_alone_witness :
  let c := SetLineCap (VStr "round") in
  reachable sample_host fresh /\ is_save_restore c = false /\
  (forall s, writes_stack c <> Some s ->
             stacks (after sample_host c fresh) s = stacks fresh s) /\
  ((forall args, c <> CallSetLineDash args) ->
   current_lineDash (after sample_host c fresh) = current_lineDash fresh).
Proof.
  split; [apply reachable_new|]. split; [reflexivity|].
  apply (calls_leave_other_attributes_alone sample_host fresh
           (SetLineCap (VStr "round"))).
  - apply reachable_new.
  - reflexivity.
Defined.

Lemma events_carry_the_resulting_matrix_witness :
  let c := CallScale [VNum 2; VNum 3] in
  let e :=
    createCanvasEvent "scale" [2; 0; 0; 3; 0; 0]%float
      [("x", VNum 2); ("y", VNum 3)] in
  reachable sample_host fresh /\
  _events (after sample_host c fresh) = _events fresh ++ [e] /\
  current_matrix (after sample_host c fresh) = Some (ev_transform e) /\
  length (ev_transform e) = 6.
Proof.
  split; [apply reachable_new|]. split; [reflexivity|].
  apply (events_carry_the_resulting_matrix sample_host fresh
           (CallScale [VNum 2; VNum 3])).
  - apply reachable_new.
  - reflexivity.
Defined.

Lemma path_grows_until_beginPath_witness :
  let st := after sample_host (CallLineTo [VNum 1; VNum 2]) fresh in
  let args := [VNum 1; VNum 2; VNum 3; VNum 4] in
  reachable sample_host st /\
  length (_path st) = 2 /\
  (forall c, c <> CallBeginPath ->
             _path st `prefix_of` _path (after sample_host c st)) /\
  4 <= length args /\ is_finite (1 + 2 + 3 + 4) = true /\
  exec sample_host (CallQuadraticCurveTo args) st =
    (Normal undefined,
     with_events
       (_events st ++
        [createCanvasEvent "quadraticCurveTo" [1; 0; 0; 1; 0; 0]%float
           [("cpx", VNum 1); ("cpy", VNum 2); ("x", VNum 3); ("y", VNum 4)]])
       st).
Proof.
  pose proof (path_grows_until_beginPath sample_host
                (after sample_host (CallLineTo [VNum 1; VNum 2]) fresh)
                (reachable_call sample_host _ _
                   (reachable_new sample_host VUndefined)))
    as (_ & Hprefix & _ & _ & Hquad).
  split; [apply reachable_call, reachable_new|]. split; [reflexivity|].
  split; [exact Hprefix|]. split; [simpl; lia|]. split; [reflexivity|].
  destruct (Hquad [VNum 1; VNum 2; VNum 3; VNum 4]) as (tr & Hm & He).
  - simpl. lia.
  - reflexivity.
  - injection Hm as <-. exact He.
Defined.

Lemma enumerated_setters_accept_or_ignore_witness :
  In "round" ["butt"; "round"; "square"] /\
  fst (exec sample_host GetLineCap
         (after sample_host (SetLineCap (VStr "round")) fresh)) =
    Normal (Value (VStr "round")) /\
  exec sample_host (SetLineCap (VStr "flat")) fresh =
    (Normal undefined, fresh).
Proof.
  split; [simpl; auto|].
  pose proof (enumerated_setters_accept_or_ignore sample_host fresh) as H.
  unfold enumerated_attributes in H.
  do 3 apply Forall_cons_1 in H as [_ H].
  apply Forall_cons_1 in H as [[Hyes Hno] _].
  split.
  - apply Hyes. simpl. auto.
  - apply Hno. intros str [<-|[<-|[<-|[]]]]; discriminate.
Defined.

Lemma numeric_setters_accept_or_ignore_witness :
  fst (exec sample_host GetShadowBlur
         (after sample_host (SetShadowBlur (VNum 4)) fresh)) =
    Normal (Value (VNum 4)) /\
  exec sample_host (SetShadowBlur (VNum 0)) fresh = (Normal undefined, fresh).
Proof.
  pose proof (numeric_setters_accept_or_ignore sample_host fresh) as H.
  unfold numeric_attributes in H.
  do 2 apply Forall_cons_1 in H as [_ H].
  apply Forall_cons_1 in H as [H _].
  split; [exact (H (VNum 4)) | exact (H (VNum 0))].
Defined.


Lemma assigned_matrix_is_read_back_witness :
  let st := after sample_host (CallScale [VNum 2; VNum 3]) fresh in
  let args := [VNum 1; VNum 2; VNum 3; VNum 4; VNum 5; VNum 6] in
  reachable sample_host st /\
  fst (exec sample_host CallGetTransform
         (after sample_host (CallSetTransform args) st)) =
    Normal (Value (VDOMMatrix 1 2 3 4 5 6)) /\
  fst (exec sample_host CallGetTransform
         (after sample_host CallResetTransform st)) =
    Normal (Value (VDOMMatrix 1 0 0 1 0 0)).
Proof.
  pose proof (assigned_matrix_is_read_back sample_host
                (after sample_host (CallScale [VNum 2; VNum 3]) fresh)
                (reachable_call sample_host _ _
                   (reachable_new sample_host VUndefined)))
    as (Hset & _ & _ & Hreset & _).
  split; [apply reachable_call, reachable_new|]. split; [|exact Hreset].
  apply (Hset [VNum 1; VNum 2; VNum 3; VNum 4; VNum 5; VNum 6]).
  - simpl. lia.
  - reflexivity.
Defined.

Lemma drawImage_ignores_the_given_size_witness :
  let img := VHTMLImageElement (VNum 20) (VNum 10) in
  let e :=
    createCanvasEvent "drawImage" [1; 0; 0; 1; 0; 0]%float
      [("img", img); ("sx", VNum 0); ("sy", VNum 0);
       ("sWidth", VNum 20); ("sHeight", VNum 10);
       ("dx", VNum 3); ("dy", VNum 4);
       ("dWidth", VNum 20); ("dHeight", VNum 10)] in
  is_finite (3 + 4 + 100 + 50) = true /\
  reachable sample_host fresh /\ drawn_image img = true /\
  exec sample_host
    (CallDrawImage [img; VNum 3; VNum 4; VNum 100; VNum 50]) fresh =
  exec sample_host (CallDrawImage [img; VNum 3; VNum 4]) fresh /\
  exec sample_host
    (CallDrawImage [img; VNum 3; VNum 4; VNum 100; VNum 50]) fresh =
    (Normal undefined,
     with_drawCalls (_drawCalls fresh ++ [e])
       (with_events (_events fresh ++ [e]) fresh)).
Proof.
  destruct (drawImage_ignores_the_given_size sample_host fresh
              (VHTMLImageElement (VNum 20) (VNum 10))
              (VNum 3) (VNum 4) (VNum 100) (VNum 50) eq_refl)
    as (Hsame & Hrecord).
  split; [reflexivity|]. split; [apply reachable_new|].
  split; [reflexivity|]. split; [exact Hsame|].
  destruct (Hrecord (reachable_new sample_host VUndefined) eq_refl)
    as (tr & Hm & He).
  injection Hm as <-. exact He.
Defined.

Lemma drawImage_refused_arities_witness :
  let img := VHTMLImageElement (VNum 20) (VNum 10) in
  let args := [img; VNum 0; VNum 0; VNum 1; VNum 1; VNum 0; VNum 0] in
  In (length args) [4; 6; 7; 8] /\
  exec sample_host (CallDrawImage args) fresh =
    (Throw (TypeError
       "Failed to execute 'drawImage' on 'CanvasRenderingContext2D': Valid arities are: [3, 5, 9], but 4 arguments provided."),
     fresh).
Proof.
  split; [simpl; auto|].
  apply (proj2 (drawImage_refused_arities sample_host fresh
                  [VHTMLImageElement (VNum 20) (VNum 10); VNum 0; VNum 0;
                   VNum 1; VNum 1; VNum 0; VNum 0])).
  simpl. auto.
Defined.

(** A host that knows two colours and one font, to run the colour and
    font setters on. *)
Definition css_host : Host :=
  {| StringToNumber := digits_to_number;
     NumberToString := number_to_string;
     ObjectToString := fun _ => "[object Object]";
     Math_cos := cos_series;
     Math_sin := sin_series;
     parseColor := fun s =>
       if String.eqb s "#aabbcc" then
         {| rgba := Some [170; 187; 204; 1]%float; hex := Some "#aabbcc" |}
       else if String.eqb s "transparent" then
         {| rgba := Some [0; 0; 0; 0]%float; hex := Some "#000000" |}
       else {| rgba := None; hex := None |};
     cssfontparser := fun v =>
       if str_is v "12px serif" then Some "12px serif" else None |}.

Lemma colors_are_stored_in_normal_form_witness :
  rgba (parseColor css_host "#aabbcc") = Some [170; 187; 204; 1]%float /\
  hex (parseColor css_host "#aabbcc") = Some "#aabbcc" /\
  fst (exec css_host GetFillStyle
         (after css_host (SetFillStyle (VStr "#aabbcc")) fresh)) =
    Normal (Value (VStr "#abc")) /\
  fst (exec css_host GetFillStyle
         (after css_host (SetFillStyle (VStr "transparent")) fresh)) =
    Normal (Value (VStr "rgba(0, 0, 0, 0)")) /\
  exec css_host (SetFillStyle (VStr "no colour")) fresh =
    (Normal undefined, fresh).
Proof.
  split; [reflexivity|]. split; [reflexivity|].
  split; [|split].
  - pose proof (colors_are_stored_in_normal_form css_host fresh "#aabbcc")
      as H.
    cbv zeta in H. unfold color_attributes in H.
    apply Forall_cons_1 in H as [(_ & H & _) _].
    apply (H 170%float 187%float 204%float 1%float
             "a"%char "b"%char "c"%char); reflexivity.
  - pose proof (colors_are_stored_in_normal_form css_host fresh "transparent")
      as H.
    cbv zeta in H. unfold color_attributes in H.
    apply Forall_cons_1 in H as [(H & _ & _) _].
    apply (H 0 0 0 0)%float; reflexivity.
  - pose proof (colors_are_stored_in_normal_form css_host fresh "no colour")
      as H.
    cbv zeta in H. unfold color_attributes in H.
    apply Forall_cons_1 in H as [(_ & _ & H) _].
    apply H; reflexivity.
Defined.

Lemma styles_take_gradients_and_patterns_witness :
  fst (exec sample_host GetFillStyle
         (after sample_host (SetFillStyle VCanvasGradient) fresh)) =
    Normal (Value VCanvasGradient) /\
  exec sample_host (SetFillStyle (VNum 3)) fresh = (Normal undefined, fresh) /\
  exec sample_host (SetShadowColor VCanvasGradient) fresh =
    (Normal undefined, fresh).
Proof.
  pose proof (styles_take_gradients_and_patterns sample_host fresh)
    as (Hobj & Hother & Hshadow).
  split; [|split].
  - apply (Hobj VCanvasGradient). left. reflexivity.
  - apply (Hother (VNum 3)); discriminate.
  - apply (Hshadow VCanvasGradient). discriminate.
Defined.

Lemma filter_smoothing_and_font_assignments_witness :
  fst (exec css_host GetFilter
         (after css_host (SetFilter (VStr "blur(2px)")) fresh)) =
    Normal (Value (VStr "blur(2px)")) /\
  fst (exec css_host GetFilter (after css_host (SetFilter (VStr "")) fresh)) =
    Normal (Value (VStr "none")) /\
  cssfontparser css_host (VStr "12px serif") = Some "12px serif" /\
  fst (exec css_host GetFont
         (after css_host (SetFont (VStr "12px serif")) fresh)) =
    Normal (Value (VStr "12px serif")) /\
  exec css_host (SetFont (VStr "serif")) fresh = (Normal undefined, fresh).
Proof.
  pose proof (filter_smoothing_and_font_assignments css_host fresh)
    as (Hf & Hnone & _ & Hfont & Hbad).
  split; [apply Hf; discriminate|].
  split; [apply Hnone; intros s Hs [= <-]; exact (Hs eq_refl)|].
  split; [reflexivity|].
  split; [apply Hfont; reflexivity | apply Hbad; reflexivity].
Defined.

Lemma fill_stroke_and_clip_record_the_path_witness :
  let st := after sample_host (CallLineTo [VNum 1; VNum 2]) fresh in
  reachable sample_host st /\
  exists tr,
    current_matrix st = Some tr /\
    exec sample_host (CallStroke []) st =
      (Normal undefined,
       let e := createCanvasEvent "stroke" tr [("path", VEvents (_path st))]
       in with_drawCalls (_drawCalls st ++ [e])
            (with_events (_events st ++ [e]) st)).
Proof.
  split; [apply reachable_call, reachable_new|].
  destruct (fill_stroke_and_clip_record_the_path sample_host
              (after sample_host (CallLineTo [VNum 1; VNum 2]) fresh)
              (reachable_call sample_host _ _
                 (reachable_new sample_host VUndefined)))
    as (tr & Hm & _ & Hs & _).
  exists tr. split; [exact Hm | exact Hs].
Defined.

Lemma fill_and_clip_share_their_check_witness :
  let args := [VPath2D []; VStr "odd"] in
  reachable sample_host fresh /\
  ToString sample_host (VStr "odd") <> "nonzero" /\
  ToString sample_host (VStr "odd") <> "evenodd" /\
  fst (exec sample_host (CallFill args) fresh) =
    Throw (TypeError
      "Failed to execute 'clip' on 'CanvasRenderingContext2D': The provided value 'odd' is not a valid enum value of type CanvasFillRule.").
Proof.
  split; [apply reachable_new|]. split; [discriminate|].
  split; [discriminate|].
  rewrite (proj2 (fill_and_clip_share_their_check sample_host fresh
                    [VPath2D []; VStr "odd"]
                    (reachable_new sample_host VUndefined))
             [] (VStr "odd") eq_refl); [reflexivity | discriminate ..].
Defined.

Lemma hit_tests_answer_false_witness :
  let args := [VNum 1; VNum 2] in
  reachable sample_host fresh /\ 2 <= length args /\
  exists e,
    ev_type e = "isPointInPath" /\
    exec sample_host (CallIsPointInStroke args) fresh =
      (Normal (Value (VBool false)),
       with_events (_events fresh ++ [e]) fresh).
Proof.
  split; [apply reachable_new|]. split; [simpl; lia|].
  apply (proj1 (hit_tests_answer_false sample_host fresh [VNum 1; VNum 2]
                  (reachable_new sample_host VUndefined))).
  simpl. lia.
Defined.

Lemma logs_only_grow_witness :
  let cs := [CallSave; SetLineWidth (VNum 2); CallLineTo [VNum 1; VNum 2]] in
  reachable sample_host fresh /\
  Forall (fun c => paints c = false) cs /\
  length (_events (run sample_host cs fresh)) <= length (_events fresh) + 3 /\
  _drawCalls (run sample_host cs fresh) = _drawCalls fresh.
Proof.
  split; [apply reachable_new|].
  assert (Forall (fun c => paints c = false)
            [CallSave; SetLineWidth (VNum 2); CallLineTo [VNum 1; VNum 2]])
    as Hp by (repeat constructor).
  split; [exact Hp|].
  destruct (logs_only_grow sample_host fresh
              [CallSave; SetLineWidth (VNum 2); CallLineTo [VNum 1; VNum 2]]
              (reachable_new sample_host VUndefined))
    as (_ & _ & Hl & Hd).
  split; [exact Hl | exact (Hd Hp)].
Defined.

Lemma createPattern_repetition_witness :
  let img := VHTMLImageElement (VNum 20) (VNum 10) in
  exec sample_host (CallCreatePattern [img; VNull]) fresh =
    exec sample_host (CallCreatePattern [img; VStr "repeat"]) fresh /\
  exec sample_host (CallCreatePattern [img; VStr "tile"]) fresh =
    (Throw (TypeError
       "Failed to execute 'createPattern' on 'CanvasRenderingContext2D': The provided type ('tile') is not one of 'repeat', 'no-repeat', 'repeat-x', or 'repeat-y'."),
     fresh).
Proof.
  destruct (createPattern_repetition sample_host fresh
              (VHTMLImageElement (VNum 20) (VNum 10)) [])
    as (Hnull & _ & Hbad).
  split; [exact Hnull|].
  apply (Hbad (VStr "tile")); [discriminate|].
  intros s [<-|[<-|[<-|[<-|[<-|[]]]]]]; discriminate.
Defined.
